(** * Migration engine (dashboard/migration_engine.py)

    A shallow embedding of the migration pipeline: the manifest store, the
    phase gates, the phase state machine, the checkpoint manager, the progress
    reporter and the migration registry, followed by the properties of the
    specification that concern them.

    Conventions of the embedding.
    - A JSON document is a value of [json], the result of [json.loads]; a file
      on disk is absent, unreadable, not parseable, or holds a document.
      Numbers are integers; non-integer numbers are outside the model.
    - The manifest is kept at the types its dataclass declares: the phases
      are a dict from phase names to dicts, the checkpoints a list of
      strings.  The values of a phase entry ([status], [started_at],
      [completed_at]) are strings, as every value the pipeline stores there
      is.  These are the manifests the pipeline writes, and the state
      machine and the checkpoints are studied on them.  The loader itself
      checks no type: the part [Document] keeps the manifest as the raw
      document, for the properties of [advance_phase] and [get_progress]
      that range over every manifest file.  The artifacts written by other
      tools (features, plan, checkpoint metadata, the manifests read by
      [list_migrations]) are kept as raw documents, because the code
      inspects their shape.
    - Python exceptions are values of [exn]; an operation is a function from
      the world to a result and a new world.  The world carries the files of
      one migration directory, the tags of the target repository and a trace
      of the file and tool accesses made so far.
    - The clock ([_timestamp_iso]) and the failures of the environment (a
      write that fails, a git command that exits non-zero) are arguments of
      the operations.  The per-instance lock is not modelled: every operation
      runs to completion on one thread. *)

From Stdlib Require Import Ascii DecimalString.
From stdpp Require Import gmap strings list.

Set Warnings "-register-all".

(** ** JSON documents and the Python operations used on them *)

Inductive json :=
| JNull
| JBool (b : bool)
| JNum (n : Z)
| JStr (s : string)
| JArr (items : list json)
| JObj (fields : list (string * json)).

(** The items of a parsed object, in insertion order; [dict.get]. *)
Fixpoint assoc {A} (k : string) (d : list (string * A)) : option A :=
  match d with
  | [] => None
  | (k', v) :: d' => if decide (k = k') then Some v else assoc k d'
  end.

Definition dict_get {A} (k : string) (dflt : A) (d : list (string * A)) : A :=
  default dflt (assoc k d).

(** [type(v).__name__] *)
Definition py_type (v : json) : string :=
  match v with
  | JNull => "NoneType"
  | JBool _ => "bool"
  | JNum _ => "int"
  | JStr _ => "str"
  | JArr _ => "list"
  | JObj _ => "dict"
  end.

(** [bool(v)] *)
Definition truthy (v : json) : bool :=
  match v with
  | JNull => false
  | JBool b => b
  | JNum n => negb (n =? 0)%Z
  | JStr s => negb (String.eqb s "")
  | JArr l => match l with [] => false | _ => true end
  | JObj d => match d with [] => false | _ => true end
  end.

(** [v == s] for a string [s] *)
Definition eq_str (v : json) (s : string) : bool :=
  match v with
  | JStr s' => String.eqb s' s
  | _ => false
  end.

Definition str_of_nat (n : nat) : string :=
  NilZero.string_of_uint (Nat.to_uint n).

(** [s.split(sep)] for a one-character separator *)
Fixpoint split_on (sep : Ascii.ascii) (s : string) : list string :=
  match s with
  | EmptyString => [EmptyString]
  | String c s' =>
      if Ascii.eqb c sep then EmptyString :: split_on sep s'
      else match split_on sep s' with
           | [] => [String c EmptyString]
           | p :: ps => String c p :: ps
           end
  end.

(** [needle in haystack] on strings *)
Fixpoint contains (needle haystack : string) : bool :=
  String.prefix needle haystack ||
  match haystack with
  | EmptyString => false
  | String _ h' => contains needle h'
  end.

(** ** Exceptions *)

Inductive exn_class :=
| Exception
| FileNotFoundError
| OSError
| JSONDecodeError
| TypeError
| AttributeError
| KeyError
| ValueError
| RuntimeError
| CalledProcessError.

#[global] Instance exn_class_eq_dec : EqDecision exn_class.
Proof. solve_decision. Defined.

(** [issubclass(c, base)] for the classes above *)
Definition subclass (c base : exn_class) : bool :=
  match c, base with
  | _, Exception => true
  | FileNotFoundError, OSError => true
  | JSONDecodeError, ValueError => true
  | _, _ => bool_decide (c = base)
  end.

Record exn := Exn { exn_cls : exn_class; exn_msg : string }.

(** [isinstance(e, (c1, c2, ...))] *)
Definition caught_by (classes : list exn_class) (e : exn) : bool :=
  existsb (subclass (exn_cls e)) classes.

Inductive result (A : Type) :=
| Ok (a : A)
| Raise (e : exn).
Arguments Ok {A} a.
Arguments Raise {A} e.

Definition returns {A} (r : result A) : Prop := ∃ a, r = Ok a.
Definition raises {A} (r : result A) : Prop := ∃ e, r = Raise e.

(** ** Data models

    The dataclasses do not check the types of their fields, so a field loaded
    from a document holds whatever the document has there. *)

(** [{k: v for k, v in d.items() if k in names}] *)
Definition keep_fields {A} (names : list string) (d : list (string * A))
  : list (string * A) :=
  filter (λ kv, bool_decide (kv.1 ∈ names)) d.

Module Feature.
Record t := Build {
  id : json;
  category : json;
  description : json;
  verification_steps : json;
  passes : json;
  characterization_test : json;
  risk : json;
  notes : json
}.

Definition field_names : list string :=
  ["id"; "category"; "description"; "verification_steps"; "passes";
   "characterization_test"; "risk"; "notes"].

(** [Feature.__init__] with keyword arguments: [id] is the only field without a default. *)
Definition init (kwargs : list (string * json)) : result t :=
  match assoc "id" kwargs with
  | None =>
      Raise (Exn TypeError
        "Feature.__init__() missing 1 required positional argument: 'id'")
  | Some i =>
      Ok {| id := i;
            category := dict_get "category" (JStr "") kwargs;
            description := dict_get "description" (JStr "") kwargs;
            verification_steps := dict_get "verification_steps" (JArr []) kwargs;
            passes := dict_get "passes" (JBool false) kwargs;
            characterization_test := dict_get "characterization_test" (JStr "") kwargs;
            risk := dict_get "risk" (JStr "low") kwargs;
            notes := dict_get "notes" (JStr "") kwargs |}
  end.
End Feature.

Module MigrationStep.
Record t := Build {
  id : json;
  description : json;
  type : json;
  files : json;
  tests_required : json;
  estimated_tokens : json;
  risk : json;
  rollback_point : json;
  depends_on : json;
  assigned_agent : json;
  status : json
}.

Definition field_names : list string :=
  ["id"; "description"; "type"; "files"; "tests_required";
   "estimated_tokens"; "risk"; "rollback_point"; "depends_on";
   "assigned_agent"; "status"].

Definition init (kwargs : list (string * json)) : result t :=
  match assoc "id" kwargs with
  | None =>
      Raise (Exn TypeError
        "MigrationStep.__init__() missing 1 required positional argument: 'id'")
  | Some i =>
      Ok {| id := i;
            description := dict_get "description" (JStr "") kwargs;
            type := dict_get "type" (JStr "") kwargs;
            files := dict_get "files" (JArr []) kwargs;
            tests_required := dict_get "tests_required" (JArr []) kwargs;
            estimated_tokens := dict_get "estimated_tokens" (JNum 0) kwargs;
            risk := dict_get "risk" (JStr "low") kwargs;
            rollback_point := dict_get "rollback_point" (JBool false) kwargs;
            depends_on := dict_get "depends_on" (JArr []) kwargs;
            assigned_agent := dict_get "assigned_agent" (JStr "") kwargs;
            status := dict_get "status" (JStr "pending") kwargs |}
  end.
End MigrationStep.

Module MigrationPlan.
Record t := Build {
  version : json;
  strategy : json;
  constraints : json;
  steps : list MigrationStep.t;
  rollback_strategy : json;
  exit_criteria : json
}.

Definition field_names : list string :=
  ["version"; "strategy"; "constraints"; "steps"; "rollback_strategy";
   "exit_criteria"].

(** [MigrationPlan.__init__] with keyword arguments: every field has a default. *)
Definition init (kwargs : list (string * json)) : t :=
  {| version := dict_get "version" (JNum 1) kwargs;
     strategy := dict_get "strategy" (JStr "incremental") kwargs;
     constraints := dict_get "constraints" (JArr []) kwargs;
     steps := [];
     rollback_strategy := dict_get "rollback_strategy" (JStr "checkpoint") kwargs;
     exit_criteria := dict_get "exit_criteria" (JObj []) kwargs |}.

Definition with_steps (p : t) (ss : list MigrationStep.t) : t :=
  {| version := version p; strategy := strategy p;
     constraints := constraints p; steps := ss;
     rollback_strategy := rollback_strategy p;
     exit_criteria := exit_criteria p |}.
End MigrationPlan.

Module PhaseResult.
Record t := Build {
  phase : string;
  status : string;
  artifacts : list string;
  started_at : string;
  completed_at : string;
  error : string
}.
End PhaseResult.

Module MigrationManifest.
Record t := Build {
  id : string;
  created_at : string;
  source_info : list (string * json);
  target_info : list (string * json);
  phases : gmap string (gmap string string);
  feature_list_path : string;
  migration_plan_path : string;
  checkpoints : list string
}.

Definition with_phases (m : t) (ps : gmap string (gmap string string)) : t :=
  {| id := id m; created_at := created_at m;
     source_info := source_info m; target_info := target_info m;
     phases := ps;
     feature_list_path := feature_list_path m;
     migration_plan_path := migration_plan_path m;
     checkpoints := checkpoints m |}.

Definition with_checkpoints (m : t) (cs : list string) : t :=
  {| id := id m; created_at := created_at m;
     source_info := source_info m; target_info := target_info m;
     phases := phases m;
     feature_list_path := feature_list_path m;
     migration_plan_path := migration_plan_path m;
     checkpoints := cs |}.
End MigrationManifest.

(** Phase ordering for gate validation *)
Definition PHASE_ORDER : list string :=
  ["understand"; "guardrail"; "migrate"; "verify"].

(** [PHASE_ORDER.index(phase)], for a phase of the list *)
Fixpoint index_of (x : string) (l : list string) : option nat :=
  match l with
  | [] => None
  | y :: l' => if decide (x = y) then Some 0 else S <$> index_of x l'
  end.

(** ** Files, the target repository and the world *)

(** What is at a path that exists: [read_text] may fail ([Unreadable], an
    [OSError] other than "not found"), the text may fail to parse
    ([Garbled], with the decoder's message), or it holds a document.  A file
    is an [option (content A)]; [None] is a path that does not exist. *)
Inductive content (A : Type) :=
| Unreadable (msg : string)
| Garbled (msg : string)
| Holds (a : A).
Arguments Unreadable {A} msg.
Arguments Garbled {A} msg.
Arguments Holds {A} a.

Inductive path :=
| manifest_json
| features_json
| migration_plan_json
| seams_json
| checkpoint_json (step_id : string).

#[global] Instance path_eq_dec : EqDecision path.
Proof. solve_decision. Defined.

Inductive event :=
| Read (p : path)
| Write (p : path)
| Git (args : list string).

Record world := World {
  manifest_file : option (content MigrationManifest.t);
  features_file : option (content json);
  plan_file : option (content json);
  seams_file : bool;                              (* seams.json exists *)
  docs_dir : option (list string);                (* entries of docs/, if it exists *)
  checkpoint_files : gmap string (content json);  (* checkpoints/<step_id>.json *)
  repo_tags : gmap string string;                 (* tag name -> commit *)
  repo_head : string;
  trace : list event
}.

Definition record_event (ev : event) (w : world) : world :=
  {| manifest_file := manifest_file w; features_file := features_file w;
     plan_file := plan_file w; seams_file := seams_file w;
     docs_dir := docs_dir w; checkpoint_files := checkpoint_files w;
     repo_tags := repo_tags w; repo_head := repo_head w;
     trace := trace w ++ [ev] |}.

Definition put_manifest (m : MigrationManifest.t) (w : world) : world :=
  {| manifest_file := Some (Holds m); features_file := features_file w;
     plan_file := plan_file w; seams_file := seams_file w;
     docs_dir := docs_dir w; checkpoint_files := checkpoint_files w;
     repo_tags := repo_tags w; repo_head := repo_head w;
     trace := trace w |}.

Definition put_checkpoint_file (step_id : string) (j : json) (w : world) : world :=
  {| manifest_file := manifest_file w; features_file := features_file w;
     plan_file := plan_file w; seams_file := seams_file w;
     docs_dir := docs_dir w;
     checkpoint_files := <[step_id := Holds j]> (checkpoint_files w);
     repo_tags := repo_tags w; repo_head := repo_head w;
     trace := trace w |}.

Definition put_repo (tags : gmap string string) (head : string) (w : world) : world :=
  {| manifest_file := manifest_file w; features_file := features_file w;
     plan_file := plan_file w; seams_file := seams_file w;
     docs_dir := docs_dir w; checkpoint_files := checkpoint_files w;
     repo_tags := tags; repo_head := head;
     trace := trace w |}.

(** Failures of the environment during one call: which atomic writes fail
    and which git invocations (by their arguments) exit non-zero whatever
    the state of the repository. *)
Record faults := Faults {
  write_fails : path → bool;
  git_fails : list string → bool
}.

Definition no_faults : faults :=
  {| write_fails := λ _, false; git_fails := λ _, false |}.

(** ** Operations: a state and exception monad over the world *)

Definition M (A : Type) : Type := world → result A * world.

Definition ret {A} (a : A) : M A := λ w, (Ok a, w).
Definition raise {A} (e : exn) : M A := λ w, (Raise e, w).
Definition bind {A B} (m : M A) (k : A → M B) : M B :=
  λ w, match m w with
       | (Ok a, w') => k a w'
       | (Raise e, w') => (Raise e, w')
       end.
Definition lift {A} (r : result A) : M A := λ w, (r, w).
Definition ask {A} (f : world → A) : M A := λ w, (Ok (f w), w).

Notation "'do' x <- m ; k" := (bind m (λ x, k))
  (at level 10, x name, m at level 100, k at level 200).
Notation "'do' ' pat <- m ; k" := (bind m (λ x, match x with pat => k end))
  (at level 10, pat pattern, m at level 100, k at level 200).
Notation "'run' m ; k" := (bind m (λ _, k))
  (at level 10, m at level 100, k at level 200).

(** [try: m except classes1: h1 except classes2: h2 ...]: the first clause
    whose classes the exception is an instance of handles it. *)
Fixpoint dispatch {A} (clauses : list (list exn_class * (exn → M A))) (e : exn) : M A :=
  match clauses with
  | [] => raise e
  | (classes, h) :: rest => if caught_by classes e then h e else dispatch rest e
  end.

Definition try_except {A} (m : M A) (clauses : list (list exn_class * (exn → M A))) : M A :=
  λ w, match m w with
       | (Ok a, w') => (Ok a, w')
       | (Raise e, w') => dispatch clauses e w'
       end.

(** [json.loads(path.read_text(encoding="utf-8"))] *)
Definition read_json {A} (p : path) (file : world → option (content A)) : M A :=
  λ w, let w' := record_event (Read p) w in
       match file w with
       | None => (Raise (Exn FileNotFoundError "No such file or directory"), w')
       | Some (Unreadable msg) => (Raise (Exn OSError msg), w')
       | Some (Garbled msg) => (Raise (Exn JSONDecodeError msg), w')
       | Some (Holds a) => (Ok a, w')
       end.

(** Write content to file atomically using temp-file-then-rename: on
    failure the temporary file is removed and the target is as before;
    [store] installs the new content at [p]. *)
Definition _atomic_write (fx : faults) (p : path) (store : world → world) : M unit :=
  λ w, let w' := record_event (Write p) w in
       if write_fails fx p
       then (Raise (Exn OSError "write failed"), w')
       else (Ok tt, store w').

(** The version-control tool, reduced to the three invocations the pipeline
    makes in the target codebase: [git tag <name>] tags the head commit and
    fails when the tag exists, [git tag -d <name>] and
    [git reset --hard <name>] fail when it does not; any of them also fails
    when the environment says so.  A failure is the [CalledProcessError] of
    [subprocess.run(..., check=True)], carrying the tool's stderr. *)
Definition git (fx : faults) (args : list string) : M unit :=
  λ w, let w' := record_event (Git args) w in
       if git_fails fx args
       then (Raise (Exn CalledProcessError "fatal: git failed"), w')
       else match args with
            | [cmd; name] =>
                if String.eqb cmd "tag" then
                  match repo_tags w !! name with
                  | Some _ =>
                      (Raise (Exn CalledProcessError
                         ("fatal: tag '" +:+ name +:+ "' already exists")), w')
                  | None =>
                      (Ok tt, put_repo (<[name := repo_head w]> (repo_tags w))
                                (repo_head w) w')
                  end
                else (Raise (Exn CalledProcessError "usage"), w')
            | [cmd; opt; name] =>
                if String.eqb cmd "tag" && String.eqb opt "-d" then
                  match repo_tags w !! name with
                  | Some _ =>
                      (Ok tt, put_repo (delete name (repo_tags w)) (repo_head w) w')
                  | None =>
                      (Raise (Exn CalledProcessError
                         ("error: tag '" +:+ name +:+ "' not found.")), w')
                  end
                else if String.eqb cmd "reset" && String.eqb opt "--hard" then
                  match repo_tags w !! name with
                  | Some commit => (Ok tt, put_repo (repo_tags w) commit w')
                  | None =>
                      (Raise (Exn CalledProcessError
                         ("fatal: ambiguous argument '" +:+ name +:+ "'")), w')
                  end
                else (Raise (Exn CalledProcessError "usage"), w')
            | _ => (Raise (Exn CalledProcessError "usage"), w')
            end.

Definition and_then {A B} (r : result A) (k : A → result B) : result B :=
  match r with
  | Ok a => k a
  | Raise e => Raise e
  end.

(** ** Loading the artifacts *)

(** The comprehension that builds one dataclass instance per item of
    [data], from the item's known fields ([x.items()] filtered by name):
    iterating a list yields its items, iterating a dict or a string yields
    strings (which have no [items]), anything else is not iterable; the
    first item that fails ends the comprehension. *)
Fixpoint build_each {A} (names : list string)
    (init : list (string * json) → result A) (items : list json) : result (list A) :=
  match items with
  | [] => Ok []
  | JObj d :: rest =>
      match init (keep_fields names d) with
      | Raise e => Raise e
      | Ok a =>
          match build_each names init rest with
          | Raise e => Raise e
          | Ok l => Ok (a :: l)
          end
      end
  | v :: _ =>
      Raise (Exn AttributeError
        ("'" +:+ py_type v +:+ "' object has no attribute 'items'"))
  end.

Definition build_all {A} (names : list string)
    (init : list (string * json) → result A) (data : json) : result (list A) :=
  match data with
  | JArr items => build_each names init items
  | JObj [] => Ok []
  | JObj (_ :: _) => Raise (Exn AttributeError "'str' object has no attribute 'items'")
  | JStr s =>
      if String.eqb s "" then Ok []
      else Raise (Exn AttributeError "'str' object has no attribute 'items'")
  | v => Raise (Exn TypeError ("'" +:+ py_type v +:+ "' object is not iterable"))
  end.

(** [v.get(k, dflt)], defined on dicts only *)
Definition py_get (v : json) (k : string) (dflt : json) : result json :=
  match v with
  | JObj d => Ok (dict_get k dflt d)
  | _ => Raise (Exn AttributeError
           ("'" +:+ py_type v +:+ "' object has no attribute 'get'"))
  end.

(** The body shared by [load_features] and the guardrail gate: handle both
    the flat list and the [{"features": [...]}] wrapper, then filter to the
    known [Feature] fields. *)
Definition features_of_json (data : json) : result (list Feature.t) :=
  let data := match data with
              | JObj d => dict_get "features" (JArr []) d
              | _ => data
              end in
  build_all Feature.field_names Feature.init data.

(** The body shared by [load_plan] and the migrate gate: the plan-level
    fields without [steps], then the nested steps. *)
Definition plan_of_json (data : json) : result MigrationPlan.t :=
  match data with
  | JObj d =>
      let steps_data := dict_get "steps" (JArr []) d in
      let plan_data :=
        filter (λ kv, negb (String.eqb kv.1 "steps"))
               (keep_fields MigrationPlan.field_names d) in
      let plan := MigrationPlan.init plan_data in
      match build_all MigrationStep.field_names MigrationStep.init steps_data with
      | Raise e => Raise e
      | Ok ss => Ok (MigrationPlan.with_steps plan ss)
      end
  | _ => Raise (Exn AttributeError
           ("'" +:+ py_type data +:+ "' object has no attribute 'get'"))
  end.

(** [", ".join(ids)]: every item must be a string. *)
Fixpoint str_items (i : nat) (l : list json) : result (list string) :=
  match l with
  | [] => Ok []
  | JStr s :: l' =>
      match str_items (S i) l' with
      | Raise e => Raise e
      | Ok ss => Ok (s :: ss)
      end
  | v :: _ =>
      Raise (Exn TypeError
        ("sequence item " +:+ str_of_nat i +:+ ": expected str instance, "
         +:+ py_type v +:+ " found"))
  end.

Definition join_ids (l : list json) : result string :=
  match str_items 0 l with
  | Raise e => Raise e
  | Ok ss => Ok (String.concat ", " ss)
  end.

(** [^[a-zA-Z0-9_-]+$] under [re.match]: [$] also matches just before a
    newline that ends the string. *)
Definition safe_char (c : Ascii.ascii) : bool :=
  let n := Ascii.nat_of_ascii c in
  ((97 <=? n) && (n <=? 122)) || ((65 <=? n) && (n <=? 90))
  || ((48 <=? n) && (n <=? 57)) || (n =? 95) || (n =? 45).

Fixpoint safe_tail (s : string) : bool :=
  match s with
  | EmptyString => true
  | String c s' =>
      if safe_char c then safe_tail s'
      else (Ascii.nat_of_ascii c =? 10) && String.eqb s' ""
  end.

Definition step_id_matches (s : string) : bool :=
  match s with
  | EmptyString => false
  | String c s' => safe_char c && safe_tail s'
  end.

(** ** MigrationPipeline *)

Record pipeline := Pipeline {
  codebase_path : string;
  target : string;
  options : list (string * json);
  migration_id : string;
  migration_dir : string
}.

Definition in_phase_order (phase : string) : bool :=
  bool_decide (phase ∈ PHASE_ORDER).

(** [PHASE_ORDER[phase_idx + 1] if phase_idx + 1 < len(PHASE_ORDER) else None] *)
Definition next_phase_of (phase : string) : option string :=
  match index_of phase PHASE_ORDER with
  | Some phase_idx => PHASE_ORDER !! (phase_idx + 1)
  | None => None
  end.

(** [manifest.phases[phase][key]] *)
Definition phase_item (m : MigrationManifest.t) (phase key : string) : result string :=
  match MigrationManifest.phases m !! phase with
  | None => Raise (Exn KeyError ("'" +:+ phase +:+ "'"))
  | Some entry =>
      match entry !! key with
      | None => Raise (Exn KeyError ("'" +:+ key +:+ "'"))
      | Some v => Ok v
      end
  end.

(** [manifest.phases[phase][key] = v]: the entry must exist, the key need not *)
Definition set_phase_item (m : MigrationManifest.t) (phase key v : string)
  : result MigrationManifest.t :=
  match MigrationManifest.phases m !! phase with
  | None => Raise (Exn KeyError ("'" +:+ phase +:+ "'"))
  | Some entry =>
      Ok (MigrationManifest.with_phases m
            (<[phase := <[key := v]> entry]> (MigrationManifest.phases m)))
  end.

(** [manifest.phases.get(phase, {}).get("status", "pending")] *)
Definition status_or_pending (phases : gmap string (gmap string string)) (phase : string)
  : string :=
  default "pending" (default ∅ (phases !! phase) !! "status").

Section Pipeline.
Variable self : pipeline.

(** *** Manifest operations *)

Definition _load_manifest_unlocked : M MigrationManifest.t :=
  read_json manifest_json manifest_file.

Definition _save_manifest_unlocked (fx : faults) (manifest : MigrationManifest.t) : M unit :=
  _atomic_write fx manifest_json (put_manifest manifest).

Definition load_manifest : M MigrationManifest.t := _load_manifest_unlocked.

Definition save_manifest (fx : faults) (manifest : MigrationManifest.t) : M unit :=
  _save_manifest_unlocked fx manifest.

Definition initial_phase (phase started : string) : gmap string string :=
  {[ "status" := if decide (phase = "understand") then "in_progress" else "pending";
     "started_at" := if decide (phase = "understand") then started else "";
     "completed_at" := "" ]}.

(** Create the initial manifest.json for this migration; [created] and
    [started] are the two readings of the clock. *)
Definition create_manifest (fx : faults) (created started : string)
  : M MigrationManifest.t :=
  let manifest :=
    {| MigrationManifest.id := migration_id self;
       MigrationManifest.created_at := created;
       MigrationManifest.source_info :=
         [("path", JStr (codebase_path self));
          ("type", dict_get "source_type" (JStr "unknown") (options self))];
       MigrationManifest.target_info :=
         [("target", JStr (target self)); ("options", JObj (options self))];
       MigrationManifest.phases :=
         list_to_map ((λ phase, (phase, initial_phase phase started)) <$> PHASE_ORDER);
       MigrationManifest.feature_list_path := migration_dir self +:+ "/features.json";
       MigrationManifest.migration_plan_path :=
         migration_dir self +:+ "/migration-plan.json";
       MigrationManifest.checkpoints := [] |} in
  run save_manifest fx manifest;
  ret manifest.

(** *** Phase gate logic *)

Definition get_phase_status (phase : string) : M string :=
  if negb (in_phase_order phase)
  then raise (Exn ValueError ("Unknown phase: " +:+ phase))
  else
    do manifest <- load_manifest;
    ret (status_or_pending (MigrationManifest.phases manifest) phase).

(** Start a phase (transition from pending to in_progress). *)
Definition start_phase (fx : faults) (now : string) (phase : string) : M unit :=
  if negb (in_phase_order phase)
  then raise (Exn ValueError ("Unknown phase: " +:+ phase))
  else
    do manifest <- _load_manifest_unlocked;
    do current_status <- lift (phase_item manifest phase "status");
    if String.eqb current_status "in_progress" then ret tt
    else if negb (String.eqb current_status "pending") then
      raise (Exn RuntimeError
        ("Cannot start phase '" +:+ phase +:+ "': status is '" +:+ current_status
         +:+ "', expected 'pending'"))
    else
      do manifest <- lift (set_phase_item manifest phase "status" "in_progress");
      do manifest <- lift (set_phase_item manifest phase "started_at" now);
      _save_manifest_unlocked fx manifest.

Definition has_docs (docs : option (list string)) : bool :=
  match docs with
  | Some (_ :: _) => true
  | _ => false
  end.

(** Validate phase transition; the variant called by [advance_phase]. *)
Definition _check_phase_gate_unlocked (from_phase to_phase : string) : M (bool * string) :=
  match index_of from_phase PHASE_ORDER, index_of to_phase PHASE_ORDER with
  | Some from_idx, Some to_idx =>
      if negb (to_idx =? from_idx + 1) then
        ret (false, "Cannot jump from " +:+ from_phase +:+ " to " +:+ to_phase)
      else if String.eqb from_phase "understand" && String.eqb to_phase "guardrail" then
        do docs <- ask docs_dir;
        if negb (has_docs docs) then
          ret (false, "Phase gate failed: no documentation generated in docs/")
        else
          do seams <- ask seams_file;
          if negb seams then ret (false, "Phase gate failed: seams.json does not exist")
          else ret (true, "Gate passed: docs generated and seams.json exists")
      else if String.eqb from_phase "guardrail" && String.eqb to_phase "migrate" then
        do loaded <-
          try_except
            (do data <- read_json features_json features_file;
             do features <- lift (features_of_json data);
             ret (inl features))
            [([FileNotFoundError],
              λ _, ret (inr (false, "Phase gate failed: features.json not found")));
             ([JSONDecodeError; TypeError],
              λ exc, ret (inr (false, "Phase gate failed: features.json is invalid: "
                                       +:+ exn_msg exc)))];
        match loaded with
        | inr verdict => ret verdict
        | inl features =>
            if bool_decide (features = []) then ret (false, "No features defined")
            else
              let failing := filter (λ f, negb (truthy (Feature.passes f))) features in
              if negb (bool_decide (failing = [])) then
                do ids <- lift (join_ids (Feature.id <$> take 5 failing));
                ret (false, "Phase gate failed: " +:+ str_of_nat (length failing)
                            +:+ " characterization tests not passing (" +:+ ids +:+ ")")
              else ret (true, "Gate passed: all characterization tests pass")
        end
      else if String.eqb from_phase "migrate" && String.eqb to_phase "verify" then
        do loaded <-
          try_except
            (do data <- read_json migration_plan_json plan_file;
             do plan <- lift (plan_of_json data);
             ret (inl plan))
            [([FileNotFoundError],
              λ _, ret (inr (false, "Phase gate failed: migration-plan.json not found")));
             ([JSONDecodeError; TypeError],
              λ exc, ret (inr (false, "Phase gate failed: migration-plan.json is invalid: "
                                       +:+ exn_msg exc)))];
        match loaded with
        | inr verdict => ret verdict
        | inl plan =>
            let incomplete :=
              filter (λ s, negb (eq_str (MigrationStep.status s) "completed"))
                     (MigrationPlan.steps plan) in
            if negb (bool_decide (incomplete = [])) then
              do ids <- lift (join_ids (MigrationStep.id <$> take 5 incomplete));
              ret (false, "Phase gate failed: " +:+ str_of_nat (length incomplete)
                          +:+ " steps not completed (" +:+ ids +:+ ")")
            else ret (true, "Gate passed: all migration steps completed")
        end
      else ret (true, "Gate passed")
  | _, _ => ret (false, "Unknown phase: " +:+ from_phase +:+ " or " +:+ to_phase)
  end.

(** *** Features and plan *)

(** Load features from features.json: the errors are logged and re-raised. *)
Definition load_features : M (list Feature.t) :=
  try_except
    (do data <- read_json features_json features_file;
     lift (features_of_json data))
    [([FileNotFoundError], λ exc, raise exc);
     ([JSONDecodeError; TypeError], λ exc, raise exc)].

(** Load migration plan from migration-plan.json. *)
Definition load_plan : M MigrationPlan.t :=
  try_except
    (do data <- read_json migration_plan_json plan_file;
     lift (plan_of_json data))
    [([FileNotFoundError], λ exc, raise exc);
     ([JSONDecodeError; TypeError], λ exc, raise exc)].

(** Validate whether transition from [from_phase] to [to_phase] is
    allowed; the standalone variant. *)
Definition check_phase_gate (from_phase to_phase : string) : M (bool * string) :=
  match index_of from_phase PHASE_ORDER, index_of to_phase PHASE_ORDER with
  | Some from_idx, Some to_idx =>
      if negb (to_idx =? from_idx + 1) then
        ret (false, "Cannot jump from " +:+ from_phase +:+ " to " +:+ to_phase)
      else if String.eqb from_phase "understand" && String.eqb to_phase "guardrail" then
        do docs <- ask docs_dir;
        if negb (has_docs docs) then
          ret (false, "Phase gate failed: no documentation generated in docs/")
        else
          do seams <- ask seams_file;
          if negb seams then ret (false, "Phase gate failed: seams.json does not exist")
          else ret (true, "Gate passed: docs generated and seams.json exists")
      else if String.eqb from_phase "guardrail" && String.eqb to_phase "migrate" then
        do loaded <-
          try_except
            (do features <- load_features; ret (inl features))
            [([FileNotFoundError],
              λ _, ret (inr (false, "Phase gate failed: features.json not found")))];
        match loaded with
        | inr verdict => ret verdict
        | inl features =>
            if bool_decide (features = []) then ret (false, "No features defined")
            else
              let failing := filter (λ f, negb (truthy (Feature.passes f))) features in
              if negb (bool_decide (failing = [])) then
                do ids <- lift (join_ids (Feature.id <$> take 5 failing));
                ret (false, "Phase gate failed: " +:+ str_of_nat (length failing)
                            +:+ " characterization tests not passing (" +:+ ids +:+ ")")
              else ret (true, "Gate passed: all characterization tests pass")
        end
      else if String.eqb from_phase "migrate" && String.eqb to_phase "verify" then
        do loaded <-
          try_except
            (do plan <- load_plan; ret (inl plan))
            [([FileNotFoundError],
              λ _, ret (inr (false, "Phase gate failed: migration-plan.json not found")))];
        match loaded with
        | inr verdict => ret verdict
        | inl plan =>
            let incomplete :=
              filter (λ s, negb (eq_str (MigrationStep.status s) "completed"))
                     (MigrationPlan.steps plan) in
            if negb (bool_decide (incomplete = [])) then
              do ids <- lift (join_ids (MigrationStep.id <$> take 5 incomplete));
              ret (false, "Phase gate failed: " +:+ str_of_nat (length incomplete)
                          +:+ " steps not completed (" +:+ ids +:+ ")")
            else ret (true, "Gate passed: all migration steps completed")
        end
      else ret (true, "Gate passed")
  | _, _ => ret (false, "Unknown phase: " +:+ from_phase +:+ " or " +:+ to_phase)
  end.

(** The four blocks of [advance_phase], in the order of the source. *)

(** Enforce phase gate if there is a next phase. *)
Definition enforce_gate (phase : string) (next_phase : option string) : M unit :=
  match next_phase with
  | Some next =>
      do '(allowed, reason) <- _check_phase_gate_unlocked phase next;
      if negb allowed
      then raise (Exn RuntimeError ("Phase gate failed: " +:+ reason))
      else ret tt
  | None => ret tt
  end.

(** Verify current phase is in_progress before advancing. *)
Definition verify_in_progress (manifest : MigrationManifest.t) (phase : string)
  : result unit :=
  match MigrationManifest.phases manifest !! phase with
  | Some entry =>
      let current_status := default "pending" (entry !! "status") in
      if negb (String.eqb current_status "in_progress") then
        Raise (Exn RuntimeError
          ("Cannot advance phase '" +:+ phase +:+ "': status is '"
           +:+ current_status +:+ "', expected 'in_progress'"))
      else Ok tt
  | None => Ok tt
  end.

(** Mark current phase completed. *)
Definition mark_completed (manifest : MigrationManifest.t) (phase now : string)
  : result MigrationManifest.t :=
  match MigrationManifest.phases manifest !! phase with
  | Some _ =>
      and_then (set_phase_item manifest phase "status" "completed") (λ manifest,
      set_phase_item manifest phase "completed_at" now)
  | None => Ok manifest
  end.

(** Start next phase if there is one. *)
Definition start_next (manifest : MigrationManifest.t) (next_phase : option string)
    (now : string) : result MigrationManifest.t :=
  match next_phase with
  | Some next =>
      and_then (set_phase_item manifest next "status" "in_progress") (λ manifest,
      set_phase_item manifest next "started_at" now)
  | None => Ok manifest
  end.

(** Mark the current phase as complete and start the next one. *)
Definition advance_phase (fx : faults) (now : string) (phase : string)
  : M PhaseResult.t :=
  if negb (in_phase_order phase)
  then raise (Exn ValueError ("Unknown phase: " +:+ phase))
  else
    let next_phase := next_phase_of phase in
    run enforce_gate phase next_phase;
    do manifest <- _load_manifest_unlocked;
    run lift (verify_in_progress manifest phase);
    do manifest <- lift (mark_completed manifest phase now);
    do manifest <- lift (start_next manifest next_phase now);
    run _save_manifest_unlocked fx manifest;
    ret {| PhaseResult.phase := phase;
           PhaseResult.status := "completed";
           PhaseResult.artifacts := [];
           PhaseResult.started_at := "";
           PhaseResult.completed_at := now;
           PhaseResult.error := "" |}.

(** *** Checkpoints *)

Definition _validate_step_id (step_id : string) : M unit :=
  if negb (step_id_matches step_id)
  then raise (Exn ValueError
         ("Invalid step_id '" +:+ step_id +:+ "': must match ^[a-zA-Z0-9_-]+$"))
  else ret tt.

Definition tag_of (step_id : string) : string :=
  "loki-migrate/" +:+ step_id +:+ "/pre".

Definition checkpoint_meta (step_id tag_name created : string) : json :=
  JObj [("step_id", JStr step_id); ("tag", JStr tag_name); ("created_at", JStr created)].

(** Record in manifest: the whole read-modify-write. *)
Definition record_checkpoint (fx : faults) (tag_name : string) : M unit :=
  do manifest <- _load_manifest_unlocked;
  let manifest :=
    MigrationManifest.with_checkpoints manifest
      (MigrationManifest.checkpoints manifest ++ [tag_name]) in
  _save_manifest_unlocked fx manifest.

(** Rollback git tag if manifest save fails: a deletion that fails is logged
    and nothing more. *)
Definition delete_orphaned_tag (fx : faults) (tag_name : string) : M unit :=
  try_except (git fx ["tag"; "-d"; tag_name])
    [([CalledProcessError], λ _, ret tt)].

(** Create a git tag checkpoint for a migration step. *)
Definition create_checkpoint (fx : faults) (now : string) (step_id : string) : M string :=
  run _validate_step_id step_id;
  let tag_name := tag_of step_id in
  run try_except (git fx ["tag"; tag_name])
        [([CalledProcessError],
          λ exc, raise (Exn RuntimeError ("Git tag creation failed: " +:+ exn_msg exc)))];
  run try_except (record_checkpoint fx tag_name)
        [([Exception], λ exc, run delete_orphaned_tag fx tag_name; raise exc)];
  (* Write checkpoint metadata *)
  run _atomic_write fx (checkpoint_json step_id)
        (put_checkpoint_file step_id (checkpoint_meta step_id tag_name now));
  ret tag_name.

(** Reset the codebase to the checkpoint tag for a given step. *)
Definition rollback_to_checkpoint (fx : faults) (step_id : string) : M unit :=
  run _validate_step_id step_id;
  let tag_name := tag_of step_id in
  try_except (git fx ["reset"; "--hard"; tag_name])
    [([CalledProcessError],
      λ exc, raise (Exn RuntimeError ("Git rollback failed: " +:+ exn_msg exc)))].

(** *** Progress and summary *)

Record checkpoint_info := CheckpointInfo {
  cp_tag : json;
  cp_step_id : json;
  cp_timestamp : json
}.

Record progress := Progress {
  pr_migration_id : string;
  pr_status : string;
  pr_current_phase : string;
  pr_phases : gmap string (gmap string string);
  pr_completed_phases : list string;
  pr_source : list (string * json);
  pr_target : list (string * json);
  pr_current_step : option json;
  pr_features_passing : nat;
  pr_features_total : nat;
  pr_steps_current : nat;
  pr_steps_completed : nat;
  pr_steps_total : nat;
  pr_last_checkpoint : option checkpoint_info;
  pr_checkpoints_count : nat
}.

(** The loop over [PHASE_ORDER]: (current_phase, overall_status,
    completed_phases), leaving at the first phase in progress. *)
Fixpoint scan_phases (phases : gmap string (gmap string string)) (order : list string)
    (acc : string * string * list string) : string * string * list string :=
  match order with
  | [] => acc
  | phase :: rest =>
      let status := status_or_pending phases phase in
      if String.eqb status "in_progress" then (phase, "in_progress", acc.2)
      else if String.eqb status "completed"
           then scan_phases phases rest (phase, "completed", acc.2 ++ [phase])
           else scan_phases phases rest acc
  end.

Definition count {A} (p : A → bool) (l : list A) : nat := length (filter p l).

(** Feature stats: (total, passing), zero when the document is absent or
    corrupt. *)
Definition feature_stats : M (nat * nat) :=
  try_except
    (do features <- load_features;
     ret (length features, count (λ f, truthy (Feature.passes f)) features))
    [([FileNotFoundError; JSONDecodeError; TypeError], λ _, ret (0, 0))].

(** Step stats: (total, completed, current step, current step index). *)
Definition step_stats : M (nat * nat * option json * nat) :=
  try_except
    (do plan <- load_plan;
     let steps := MigrationPlan.steps plan in
     let steps_total := length steps in
     let steps_completed :=
       count (λ s, eq_str (MigrationStep.status s) "completed") steps in
     let in_progress :=
       filter (λ s, eq_str (MigrationStep.status s) "in_progress") steps in
     let current_step := MigrationStep.id <$> head in_progress in
     let current_step_index :=
       if negb (steps_total =? 0) then Nat.min (steps_completed + 1) steps_total else 0 in
     ret (steps_total, steps_completed, current_step, current_step_index))
    [([FileNotFoundError; JSONDecodeError; TypeError], λ _, ret (0, 0, None, 0))].

(** Last checkpoint metadata; the tag format is loki-migrate/<step_id>/pre. *)
Definition last_checkpoint_data (manifest : MigrationManifest.t)
  : M (option checkpoint_info) :=
  match last (MigrationManifest.checkpoints manifest) with
  | None => ret None
  | Some last_tag =>
      match split_on "/" last_tag with
      | _ :: cp_step :: _ =>
          try_except
            (do meta <- read_json (checkpoint_json cp_step)
                          (λ w, checkpoint_files w !! cp_step);
             do tag <- lift (py_get meta "tag" (JStr last_tag));
             do step <- lift (py_get meta "step_id" (JStr cp_step));
             do created <- lift (py_get meta "created_at" (JStr ""));
             ret (Some (CheckpointInfo tag step created)))
            [([FileNotFoundError; JSONDecodeError],
              λ _, ret (Some (CheckpointInfo (JStr last_tag) (JStr "") (JStr ""))))]
      | _ => ret None
      end
  end.

Definition get_progress : M progress :=
  do manifest <- load_manifest;
  let '(current_phase, overall_status, completed_phases) :=
    scan_phases (MigrationManifest.phases manifest) PHASE_ORDER ("pending", "pending", []) in
  do '(features_total, features_passing) <- feature_stats;
  do '(steps_total, steps_completed, current_step, current_step_index) <- step_stats;
  do last_checkpoint <- last_checkpoint_data manifest;
  ret {| pr_migration_id := migration_id self;
         pr_status := overall_status;
         pr_current_phase := current_phase;
         pr_phases := MigrationManifest.phases manifest;
         pr_completed_phases := completed_phases;
         pr_source := MigrationManifest.source_info manifest;
         pr_target := MigrationManifest.target_info manifest;
         pr_current_step := current_step;
         pr_features_passing := features_passing;
         pr_features_total := features_total;
         pr_steps_current := current_step_index;
         pr_steps_completed := steps_completed;
         pr_steps_total := steps_total;
         pr_last_checkpoint := last_checkpoint;
         pr_checkpoints_count := length (MigrationManifest.checkpoints manifest) |}.

End Pipeline.

(** ** Utility: list all migrations *)

(** An entry of the migrations directory and, for a directory, what is at
    [manifest.json] inside it. *)
Record dir_entry := DirEntry {
  entry_name : string;
  entry_is_dir : bool;
  entry_manifest : option (content json)
}.

Record migration_summary := MigrationSummary {
  ms_id : json;
  ms_created_at : json;
  ms_source : json;
  ms_source_path : json;
  ms_target : json;
  ms_status : string
}.

(** [sorted(migrations_path.iterdir())]: by name *)
Fixpoint insert_entry (e : dir_entry) (l : list dir_entry) : list dir_entry :=
  match l with
  | [] => [e]
  | e' :: l' =>
      if String.leb (entry_name e) (entry_name e') then e :: l
      else e' :: insert_entry e l'
  end.

Definition sorted_entries (l : list dir_entry) : list dir_entry :=
  foldr insert_entry [] l.

(** Determine overall status from phases, leaving the loop at the first
    phase in progress. *)
Fixpoint overall_status (phases : json) (order : list string) (status : string)
  : result string :=
  match order with
  | [] => Ok status
  | phase :: rest =>
      and_then (py_get phases phase (JObj [])) (λ entry,
      and_then (py_get entry "status" (JStr "pending")) (λ phase_status,
      if eq_str phase_status "in_progress" then Ok "in_progress"
      else if eq_str phase_status "completed" then overall_status phases rest "completed"
      else overall_status phases rest status))
  end.

(** The body of the [try] for one manifest document *)
Definition summarize (name : string) (data : json) : result migration_summary :=
  and_then (py_get data "phases" (JObj [])) (λ phases,
  and_then (overall_status phases PHASE_ORDER "pending") (λ status,
  and_then (py_get data "source_info" (JObj [])) (λ source_info,
  and_then (py_get data "id" (JStr name)) (λ id,
  and_then (py_get data "created_at" (JStr "")) (λ created_at,
  and_then (py_get source_info "path" (JStr "")) (λ source_path,
  and_then (py_get data "target_info" (JObj [])) (λ target_info,
  and_then (py_get target_info "target" (JStr "")) (λ target,
  Ok {| ms_id := id; ms_created_at := created_at; ms_source := source_info;
        ms_source_path := source_path; ms_target := target;
        ms_status := status |})))))))).

(** [json.loads(manifest_file.read_text(encoding="utf-8"))] for an existing
    manifest file *)
Definition read_manifest_document (c : content json) : result json :=
  match c with
  | Unreadable msg => Raise (Exn OSError msg)
  | Garbled msg => Raise (Exn JSONDecodeError msg)
  | Holds data => Ok data
  end.

(** The loop of [list_migrations]: the entries found so far and the warnings
    logged so far; an exception that no clause handles ends it. *)
Fixpoint list_loop (entries : list dir_entry) (results : list migration_summary)
    (warnings : list string) : result (list migration_summary) * list string :=
  match entries with
  | [] => (Ok results, warnings)
  | entry :: rest =>
      if negb (entry_is_dir entry) then list_loop rest results warnings
      else match entry_manifest entry with
           | None => list_loop rest results warnings
           | Some c =>
               match and_then (read_manifest_document c) (summarize (entry_name entry)) with
               | Ok s => list_loop rest (results ++ [s]) warnings
               | Raise exc =>
                   if caught_by [JSONDecodeError; OSError] exc then
                     list_loop rest results
                       (warnings ++ ["Skipping corrupt migration at " +:+ entry_name entry
                                     +:+ ": " +:+ exn_msg exc])
                   else (Raise exc, warnings)
               end
           end
  end.

(** List all migrations; [root] is [None] when the migrations directory does
    not exist.  The result comes with the warnings logged. *)
Definition list_migrations (root : option (list dir_entry))
  : result (list migration_summary) * list string :=
  match root with
  | None => (Ok [], [])
  | Some entries => list_loop (sorted_entries entries) [] []
  end.


(** ** Saving the artifacts *)








(** ** Seams *)

Module SeamInfo.
Record t := Build {
  id : json;
  description : json;
  type : json;
  location : json;
  name : json;
  priority : json;
  files : json;
  dependencies : json;
  complexity : json;
  confidence : json;
  suggested_interface : json
}.

Definition field_names : list string :=
  ["id"; "description"; "type"; "location"; "name"; "priority"; "files";
   "dependencies"; "complexity"; "confidence"; "suggested_interface"].

Definition init (kwargs : list (string * json)) : result t :=
  match assoc "id" kwargs with
  | None =>
      Raise (Exn TypeError
        "SeamInfo.__init__() missing 1 required positional argument: 'id'")
  | Some i =>
      Ok {| id := i;
            description := dict_get "description" (JStr "") kwargs;
            type := dict_get "type" (JStr "") kwargs;
            location := dict_get "location" (JStr "") kwargs;
            name := dict_get "name" (JStr "") kwargs;
            priority := dict_get "priority" (JStr "medium") kwargs;
            files := dict_get "files" (JArr []) kwargs;
            dependencies := dict_get "dependencies" (JArr []) kwargs;
            complexity := dict_get "complexity" (JStr "") kwargs;
            confidence := dict_get "confidence" (JNum 0) kwargs;
            suggested_interface := dict_get "suggested_interface" (JStr "") kwargs |}
  end.
End SeamInfo.

(** The body of [load_seams] after the read: handle both the flat list and the
    [{"seams": [...]}] wrapper, then filter to the known fields. *)
Definition seams_of_json (data : json) : result (list SeamInfo.t) :=
  let data := match data with
              | JObj d => dict_get "seams" (JArr []) d
              | _ => data
              end in
  build_all SeamInfo.field_names SeamInfo.init data.

(** [asdict(seam)] *)
Definition seam_asdict (s : SeamInfo.t) : json :=
  JObj [("id", SeamInfo.id s);
        ("description", SeamInfo.description s);
        ("type", SeamInfo.type s);
        ("location", SeamInfo.location s);
        ("name", SeamInfo.name s);
        ("priority", SeamInfo.priority s);
        ("files", SeamInfo.files s);
        ("dependencies", SeamInfo.dependencies s);
        ("complexity", SeamInfo.complexity s);
        ("confidence", SeamInfo.confidence s);
        ("suggested_interface", SeamInfo.suggested_interface s)].

(** The document [save_seams] writes: always the flat list. *)
Definition seams_document (seams : list SeamInfo.t) : json :=
  JArr (seam_asdict <$> seams).

(** ** Migration identifiers *)

(** [re.sub(r'[^a-zA-Z0-9_-]', '_', dirname)] *)
Fixpoint sanitize (dirname : string) : string :=
  match dirname with
  | EmptyString => EmptyString
  | String c rest =>
      String (if safe_char c then c else "_"%char) (sanitize rest)
  end.

(** Generate a migration ID like mig_20260223_143052_<dirname>, from the base
    name of the codebase path and the two renderings of the clock. *)
Definition _generate_migration_id (dirname date_str time_str : string) : string :=
  let safe_dirname := sanitize dirname in
  let safe_dirname :=
    if String.eqb safe_dirname "" then "unnamed" else safe_dirname in
  "mig_" +:+ date_str +:+ "_" +:+ time_str +:+ "_" +:+ safe_dirname.

Definition is_digit (c : Ascii.ascii) : bool :=
  let n := Ascii.nat_of_ascii c in (48 <=? n) && (n <=? 57).

(** [\d{n}] at the start of [s]: what follows, if it matches. *)
Fixpoint digits (n : nat) (s : string) : option string :=
  match n with
  | 0 => Some s
  | S n' =>
      match s with
      | String c rest => if is_digit c then digits n' rest else None
      | EmptyString => None
      end
  end.

(** A literal at the start of [s]: what follows, if it matches. *)
Fixpoint literal (lit s : string) : option string :=
  match lit with
  | EmptyString => Some s
  | String c lit' =>
      match s with
      | String c' rest => if Ascii.eqb c c' then literal lit' rest else None
      | EmptyString => None
      end
  end.

(** [^mig_\d{8}_\d{6}_[a-zA-Z0-9_-]+$] under [re.match]; the tail is the
    pattern of step ids. *)
Definition migration_id_matches (s : string) : bool :=
  match literal "mig_" s with
  | None => false
  | Some s1 =>
      match digits 8 s1 with
      | None => false
      | Some s2 =>
          match literal "_" s2 with
          | None => false
          | Some s3 =>
              match digits 6 s3 with
              | None => false
              | Some s4 =>
                  match literal "_" s4 with
                  | None => false
                  | Some s5 => step_id_matches s5
                  end
              end
          end
      end
  end.

(** What [load] reconstructs: the path and the target are whatever the
    manifest document holds there. *)
Record loaded_pipeline := LoadedPipeline {
  lp_codebase_path : json;
  lp_target : json;
  lp_options : list (string * json);
  lp_migration_dir : string;
  lp_migration_id : string
}.

(** Load an existing migration by ID; [migrations_dir] is the path of the
    migrations directory and [root] its entries, [None] when it does not
    exist. *)
Definition load (migrations_dir : string) (root : option (list dir_entry))
    (migration_id : string) : result loaded_pipeline :=
  if negb (migration_id_matches migration_id) then
    Raise (Exn ValueError
      ("Invalid migration_id '" +:+ migration_id
       +:+ "': must match ^mig_YYYYMMDD_HHMMSS_<name>$"))
  else
    let migration_dir := migrations_dir +:+ "/" +:+ migration_id in
    match List.find (λ e, String.eqb (entry_name e) migration_id) (default [] root) with
    | None => Raise (Exn FileNotFoundError ("Migration not found: " +:+ migration_id))
    | Some entry =>
        if negb (entry_is_dir entry) then
          Raise (Exn FileNotFoundError ("Migration not found: " +:+ migration_id))
        else
          match entry_manifest entry with
          | None =>
              Raise (Exn FileNotFoundError
                ("Manifest not found for migration: " +:+ migration_id))
          | Some c =>
              and_then (read_manifest_document c) (λ data,
              and_then (py_get data "source_info" (JObj [])) (λ source_info,
              and_then (py_get source_info "path" (JStr "")) (λ path,
              and_then (py_get data "target_info" (JObj [])) (λ target_info,
              and_then (py_get target_info "target" (JStr "")) (λ target,
              and_then (if truthy target then Ok target
                        else py_get target_info "language" (JStr "")) (λ target,
              Ok {| lp_codebase_path := path;
                    lp_target := target;
                    lp_options := [];
                    lp_migration_dir := migration_dir;
                    lp_migration_id := migration_id |}))))))
          end
    end.

(** ** The manifest document *)

(** [asdict] of one phase entry. *)
Definition phase_asdict (entry : gmap string string) : json :=
  JObj (prod_map id JStr <$> map_to_list entry).

(** [asdict(manifest)], the document [_save_manifest_unlocked] writes.  The
    keys of [phases] and of a phase entry come in the order of the finite
    map; every reader looks them up by name. *)
Definition manifest_asdict (m : MigrationManifest.t) : json :=
  JObj [("id", JStr (MigrationManifest.id m));
        ("created_at", JStr (MigrationManifest.created_at m));
        ("source_info", JObj (MigrationManifest.source_info m));
        ("target_info", JObj (MigrationManifest.target_info m));
        ("phases",
         JObj (prod_map id phase_asdict <$> map_to_list (MigrationManifest.phases m)));
        ("feature_list_path", JStr (MigrationManifest.feature_list_path m));
        ("migration_plan_path", JStr (MigrationManifest.migration_plan_path m));
        ("checkpoints", JArr (JStr <$> MigrationManifest.checkpoints m))].

(** * The manifest as a document

    [_load_manifest_unlocked] parses manifest.json and builds the dataclass
    from the fields it knows; the dataclass checks nothing, so each field
    holds whatever the document has there, and the operations apply Python's
    [in], [.get], subscription, item assignment, truth, [len] and [str] to
    values of any JSON type.  This part embeds the manifest operations at
    that level; the sections above embed them for the manifests whose fields
    have the types the dataclass annotates, which are the manifests the
    pipeline itself writes.

    A parsed string is kept as its UTF-8 bytes; a string without a UTF-8
    form (a lone surrogate) is outside the model. *)

(** ** Python on parsed JSON *)

(** [{**d, k: v}] in place: the position of an existing key is kept, a new
    key goes last. *)
Fixpoint assoc_set {A} (k : string) (v : A) (d : list (string * A)) : list (string * A) :=
  match d with
  | [] => [(k, v)]
  | (k', v') :: d' =>
      if decide (k = k') then (k, v) :: d' else (k', v') :: assoc_set k v d'
  end.

Definition hex_digit (n : nat) : Ascii.ascii :=
  Ascii.ascii_of_nat (if n <? 10 then 48 + n else 87 + n).

Definition backslash : Ascii.ascii := Ascii.ascii_of_nat 92.

(** One character of [repr] of a string quoted by [quote]; characters
    outside ASCII are taken to be printable. *)
Definition repr_char (quote c : Ascii.ascii) : string :=
  let n := Ascii.nat_of_ascii c in
  if Ascii.eqb c quote || (n =? 92) then String backslash (String c "")
  else if n =? 9 then String backslash "t"
  else if n =? 10 then String backslash "n"
  else if n =? 13 then String backslash "r"
  else if (n <? 32) || (n =? 127)
       then String backslash (String "x"%char
              (String (hex_digit (n / 16)) (String (hex_digit (n mod 16)) "")))
  else String c "".

Fixpoint repr_chars (quote : Ascii.ascii) (s : string) : string :=
  match s with
  | EmptyString => EmptyString
  | String c s' => repr_char quote c +:+ repr_chars quote s'
  end.

Fixpoint has_char (c : Ascii.ascii) (s : string) : bool :=
  match s with
  | EmptyString => false
  | String c' s' => Ascii.eqb c c' || has_char c s'
  end.

(** [repr(s)] for a string: single quotes, unless the string has a single
    quote and no double quote. *)
Definition repr_str (s : string) : string :=
  let quote :=
    if has_char "'"%char s && negb (has_char (Ascii.ascii_of_nat 34) s)
    then Ascii.ascii_of_nat 34 else "'"%char in
  String quote (repr_chars quote s) +:+ String quote "".

Definition str_of_Z (n : Z) : string := NilZero.string_of_int (Z.to_int n).

(** [repr(v)] *)
Fixpoint py_repr (v : json) : string :=
  match v with
  | JNull => "None"
  | JBool b => if b then "True" else "False"
  | JNum n => str_of_Z n
  | JStr s => repr_str s
  | JArr items => "[" +:+ String.concat ", " (map py_repr items) +:+ "]"
  | JObj fields =>
      "{" +:+ String.concat ", "
                (map (λ kv, repr_str kv.1 +:+ ": " +:+ py_repr kv.2) fields)
      +:+ "}"
  end.

(** [str(v)], as an f-string renders a value *)
Definition py_str (v : json) : string :=
  match v with
  | JStr s => s
  | _ => py_repr v
  end.

(** [k in v] for a string [k] *)
Definition py_contains (k : string) (v : json) : result bool :=
  match v with
  | JObj d => Ok (bool_decide (is_Some (assoc k d)))
  | JArr items => Ok (existsb (λ x, eq_str x k) items)
  | JStr s => Ok (contains k s)
  | _ => Raise (Exn TypeError
           ("argument of type '" +:+ py_type v +:+ "' is not iterable"))
  end.

(** [v[k]] for a string [k] *)
Definition py_getitem (v : json) (k : string) : result json :=
  match v with
  | JObj d =>
      match assoc k d with
      | Some x => Ok x
      | None => Raise (Exn KeyError (repr_str k))
      end
  | JArr _ => Raise (Exn TypeError "list indices must be integers or slices, not str")
  | JStr _ => Raise (Exn TypeError "string indices must be integers, not 'str'")
  | _ => Raise (Exn TypeError ("'" +:+ py_type v +:+ "' object is not subscriptable"))
  end.

(** [v[k] = x] for a string [k]: what [v] is afterwards *)
Definition py_setitem (v : json) (k : string) (x : json) : result json :=
  match v with
  | JObj d => Ok (JObj (assoc_set k x d))
  | JArr _ => Raise (Exn TypeError "list indices must be integers or slices, not str")
  | _ => Raise (Exn TypeError
           ("'" +:+ py_type v +:+ "' object does not support item assignment"))
  end.

(** [v[k1][k2] = x]: the item [v[k1]] is fetched and assigned into, and [v]
    then holds it as it is afterwards. *)
Definition py_setitem2 (v : json) (k1 k2 : string) (x : json) : result json :=
  and_then (py_getitem v k1) (λ item,
  and_then (py_setitem item k2 x) (λ item,
  py_setitem v k1 item)).

(** A byte that continues a UTF-8 character. *)
Definition is_continuation (c : Ascii.ascii) : bool :=
  let n := Ascii.nat_of_ascii c in (128 <=? n) && (n <? 192).

(** [len(s)]: the characters of the string *)
Fixpoint str_len (s : string) : nat :=
  match s with
  | EmptyString => 0
  | String c s' => (if is_continuation c then 0 else 1) + str_len s'
  end.

Fixpoint all_continuation (s : string) : bool :=
  match s with
  | EmptyString => true
  | String c s' => is_continuation c && all_continuation s'
  end.

(** [s[-1]]: the last character of a string that is not empty *)
Fixpoint last_char (s : string) : string :=
  match s with
  | EmptyString => EmptyString
  | String c s' => if all_continuation s' then s else last_char s'
  end.

(** [len(v)] *)
Definition py_len (v : json) : result nat :=
  match v with
  | JArr items => Ok (length items)
  | JObj fields => Ok (length fields)
  | JStr s => Ok (str_len s)
  | _ => Raise (Exn TypeError ("object of type '" +:+ py_type v +:+ "' has no len()"))
  end.

(** [v[-1] if v else None]: nothing when [v] is falsy, else its last item. *)
Definition py_last (v : json) : result (option json) :=
  if negb (truthy v) then Ok None
  else match v with
       | JArr items => Ok (last items)
       | JStr s => Ok (Some (JStr (last_char s)))
       | JObj _ => Raise (Exn KeyError "-1")
       | _ => Raise (Exn TypeError ("'" +:+ py_type v +:+ "' object is not subscriptable"))
       end.

(** [v.split(sep)] *)
Definition py_split (sep : Ascii.ascii) (v : json) : result (list string) :=
  match v with
  | JStr s => Ok (split_on sep s)
  | _ => Raise (Exn AttributeError
           ("'" +:+ py_type v +:+ "' object has no attribute 'split'"))
  end.

(** [v.items()] *)
Definition py_items (v : json) : result (list (string * json)) :=
  match v with
  | JObj d => Ok d
  | _ => Raise (Exn AttributeError
           ("'" +:+ py_type v +:+ "' object has no attribute 'items'"))
  end.

Module Document.

(** The dataclass [MigrationManifest], its fields unchecked. *)
Module MigrationManifest.
Record t := Build {
  id : json;
  created_at : json;
  source_info : json;
  target_info : json;
  phases : json;
  feature_list_path : json;
  migration_plan_path : json;
  checkpoints : json
}.

Definition field_names : list string :=
  ["id"; "created_at"; "source_info"; "target_info"; "phases";
   "feature_list_path"; "migration_plan_path"; "checkpoints"].

(** [MigrationManifest.__init__] with keyword arguments: every field has a
    default. *)
Definition init (kwargs : list (string * json)) : t :=
  {| id := dict_get "id" (JStr "") kwargs;
     created_at := dict_get "created_at" (JStr "") kwargs;
     source_info := dict_get "source_info" (JObj []) kwargs;
     target_info := dict_get "target_info" (JObj []) kwargs;
     phases := dict_get "phases" (JObj []) kwargs;
     feature_list_path := dict_get "feature_list_path" (JStr "") kwargs;
     migration_plan_path := dict_get "migration_plan_path" (JStr "") kwargs;
     checkpoints := dict_get "checkpoints" (JArr []) kwargs |}.

(** [asdict(manifest)] *)
Definition asdict (m : t) : json :=
  JObj [("id", id m);
        ("created_at", created_at m);
        ("source_info", source_info m);
        ("target_info", target_info m);
        ("phases", phases m);
        ("feature_list_path", feature_list_path m);
        ("migration_plan_path", migration_plan_path m);
        ("checkpoints", checkpoints m)].

Definition with_phases (m : t) (ps : json) : t :=
  {| id := id m; created_at := created_at m;
     source_info := source_info m; target_info := target_info m;
     phases := ps;
     feature_list_path := feature_list_path m;
     migration_plan_path := migration_plan_path m;
     checkpoints := checkpoints m |}.
End MigrationManifest.

(** The migration directory with manifest.json as the document it holds;
    [others] carries the other files, the repository and the trace (its
    typed view of the manifest is not used here). *)
Record state := State {
  document : option (content json);
  others : world
}.

Definition D (A : Type) : Type := state → result A * state.

Definition ret {A} (a : A) : D A := λ s, (Ok a, s).
Definition raise {A} (e : exn) : D A := λ s, (Raise e, s).
Definition bind {A B} (m : D A) (k : A → D B) : D B :=
  λ s, match m s with
       | (Ok a, s') => k a s'
       | (Raise e, s') => (Raise e, s')
       end.
Definition lift {A} (r : result A) : D A := λ s, (r, s).

(** An operation on the other files. *)
Definition on_others {A} (m : M A) : D A :=
  λ s, let '(r, w) := m (others s) in (r, State (document s) w).

#[local] Set Warnings "-notation-overridden".
Notation "'do' x <- m ; k" := (bind m (λ x, k))
  (at level 10, x name, m at level 100, k at level 200).
Notation "'do' ' pat <- m ; k" := (bind m (λ x, match x with pat => k end))
  (at level 10, pat pattern, m at level 100, k at level 200).
Notation "'run' m ; k" := (bind m (λ _, k))
  (at level 10, m at level 100, k at level 200).

Definition try_except {A} (m : D A) (classes : list exn_class) (h : exn → D A) : D A :=
  λ s, match m s with
       | (Ok a, s') => (Ok a, s')
       | (Raise e, s') => if caught_by classes e then h e s' else (Raise e, s')
       end.

Definition log (ev : event) (s : state) : state :=
  State (document s) (record_event ev (others s)).

(** [json.loads(manifest_path.read_text(encoding="utf-8"))] *)
Definition read_document : D json :=
  λ s, let s' := log (Read manifest_json) s in
       match document s with
       | None => (Raise (Exn FileNotFoundError "No such file or directory"), s')
       | Some (Unreadable msg) => (Raise (Exn OSError msg), s')
       | Some (Garbled msg) => (Raise (Exn JSONDecodeError msg), s')
       | Some (Holds data) => (Ok data, s')
       end.

(** Load manifest.json from disk: the fields the dataclass knows, unchecked
    (the handlers of the source log and raise again). *)
Definition _load_manifest_unlocked : D MigrationManifest.t :=
  do data <- read_document;
  do items <- lift (py_items data);
  ret (MigrationManifest.init (keep_fields MigrationManifest.field_names items)).

(** Persist manifest to disk atomically. *)
Definition _save_manifest_unlocked (fx : faults) (manifest : MigrationManifest.t)
  : D unit :=
  λ s, let s' := log (Write manifest_json) s in
       if write_fails fx manifest_json
       then (Raise (Exn OSError "write failed"), s')
       else (Ok tt, State (Some (Holds (MigrationManifest.asdict manifest))) (others s')).

Definition load_manifest : D MigrationManifest.t := _load_manifest_unlocked.

(** Return the status of a given phase from the manifest. *)
Definition get_phase_status (phase : string) : D json :=
  if negb (in_phase_order phase)
  then raise (Exn ValueError ("Unknown phase: " +:+ phase))
  else
    do manifest <- load_manifest;
    do phase_data <- lift (py_get (MigrationManifest.phases manifest) phase (JObj []));
    lift (py_get phase_data "status" (JStr "pending")).

(** Verify current phase is in_progress before advancing. *)
Definition verify_in_progress (manifest : MigrationManifest.t) (phase : string) : result unit :=
  and_then (py_contains phase (MigrationManifest.phases manifest)) (λ present,
  if present then
    and_then (py_getitem (MigrationManifest.phases manifest) phase) (λ entry,
    and_then (py_get entry "status" (JStr "pending")) (λ current_status,
    if negb (eq_str current_status "in_progress") then
      Raise (Exn RuntimeError
        ("Cannot advance phase '" +:+ phase +:+ "': status is '"
         +:+ py_str current_status +:+ "', expected 'in_progress'"))
    else Ok tt))
  else Ok tt).

(** Mark current phase completed. *)
Definition mark_completed (manifest : MigrationManifest.t) (phase now : string) 
  : result MigrationManifest.t :=
  and_then (py_contains phase (MigrationManifest.phases manifest)) (λ present,
  if present then
    and_then (py_setitem2 (MigrationManifest.phases manifest) phase "status" (JStr "completed")) (λ ps,
    and_then (py_setitem2 ps phase "completed_at" (JStr now)) (λ ps,
    Ok (MigrationManifest.with_phases manifest ps)))
  else Ok manifest).

(** Start next phase if there is one. *)
Definition start_next (manifest : MigrationManifest.t) (next_phase : option string) (now : string)
  
  : result MigrationManifest.t :=
  match next_phase with
  | Some next =>
      and_then (py_setitem2 (MigrationManifest.phases manifest) next "status" (JStr "in_progress")) (λ ps,
      and_then (py_setitem2 ps next "started_at" (JStr now)) (λ ps,
      Ok (MigrationManifest.with_phases manifest ps)))
  | None => Ok manifest
  end.

(** Mark the current phase as complete and start the next one. *)
Definition advance_phase (fx : faults) (now : string) (phase : string)
  : D PhaseResult.t :=
  if negb (in_phase_order phase)
  then raise (Exn ValueError ("Unknown phase: " +:+ phase))
  else
    let next_phase := next_phase_of phase in
    run on_others (enforce_gate phase next_phase);
    do manifest <- _load_manifest_unlocked;
    run lift (verify_in_progress manifest phase);
    do manifest <- lift (mark_completed manifest phase now);
    do manifest <- lift (start_next manifest next_phase now);
    run _save_manifest_unlocked fx manifest;
    ret {| PhaseResult.phase := phase;
           PhaseResult.status := "completed";
           PhaseResult.artifacts := [];
           PhaseResult.started_at := "";
           PhaseResult.completed_at := now;
           PhaseResult.error := "" |}.

(** *** Progress *)

Record progress := Progress {
  pr_migration_id : string;
  pr_status : string;
  pr_current_phase : string;
  pr_phases : json;
  pr_completed_phases : list string;
  pr_source : json;
  pr_target : json;
  pr_current_step : option json;
  pr_features_passing : nat;
  pr_features_total : nat;
  pr_steps_current : nat;
  pr_steps_completed : nat;
  pr_steps_total : nat;
  pr_last_checkpoint : option checkpoint_info;
  pr_checkpoints_count : nat
}.

(** The loop over [PHASE_ORDER]: (current_phase, overall_status,
    completed_phases), leaving at the first phase in progress. *)
Fixpoint scan_phases (phases : json) (order : list string)
    (acc : string * string * list string) : result (string * string * list string) :=
  match order with
  | [] => Ok acc
  | phase :: rest =>
      and_then (py_get phases phase (JObj [])) (λ entry,
      and_then (py_get entry "status" (JStr "pending")) (λ status,
      if eq_str status "in_progress" then Ok (phase, "in_progress", acc.2)
      else if eq_str status "completed"
           then scan_phases phases rest (phase, "completed", acc.2 ++ [phase])
           else scan_phases phases rest acc))
  end.

(** Try to read checkpoint metadata file. *)
Definition read_metadata (last_tag : json) (cp_step_id : string) : D checkpoint_info :=
  try_except
    (do meta <- on_others (read_json (checkpoint_json cp_step_id)
                             (λ w, checkpoint_files w !! cp_step_id));
     do tag <- lift (py_get meta "tag" last_tag);
     do step <- lift (py_get meta "step_id" (JStr cp_step_id));
     do created <- lift (py_get meta "created_at" (JStr ""));
     ret (CheckpointInfo tag step created))
    [FileNotFoundError; JSONDecodeError]
    (λ _, ret (CheckpointInfo last_tag (JStr "") (JStr ""))).

(** Last checkpoint metadata; the tag format is loki-migrate/<step_id>/pre. *)
Definition last_checkpoint_data (manifest : MigrationManifest.t) : D (option checkpoint_info) :=
  do last <- lift (py_last (MigrationManifest.checkpoints manifest));
  match last with
  | None => ret None
  | Some last_tag =>
      do parts <- lift (py_split "/" last_tag);
      match parts with
      | _ :: cp_step_id :: _ =>
          do info <- read_metadata last_tag cp_step_id;
          ret (Some info)
      | _ => ret None
      end
  end.

Section Pipeline.
Variable self : pipeline.

(** Return a progress summary of the migration. *)
Definition get_progress : D progress :=
  do manifest <- load_manifest;
  do '(current_phase, overall_status, completed_phases) <-
    lift (scan_phases (MigrationManifest.phases manifest) PHASE_ORDER ("pending", "pending", []));
  do '(features_total, features_passing) <- on_others feature_stats;
  do '(steps_total, steps_completed, current_step, current_step_index) <-
    on_others step_stats;
  do last_checkpoint <- last_checkpoint_data manifest;
  do checkpoints_count <- lift (py_len (MigrationManifest.checkpoints manifest));
  ret {| pr_migration_id := migration_id self;
         pr_status := overall_status;
         pr_current_phase := current_phase;
         pr_phases := MigrationManifest.phases manifest;
         pr_completed_phases := completed_phases;
         pr_source := MigrationManifest.source_info manifest;
         pr_target := MigrationManifest.target_info manifest;
         pr_current_step := current_step;
         pr_features_passing := features_passing;
         pr_features_total := features_total;
         pr_steps_current := current_step_index;
         pr_steps_completed := steps_completed;
         pr_steps_total := steps_total;
         pr_last_checkpoint := last_checkpoint;
         pr_checkpoints_count := checkpoints_count |}.

End Pipeline.

End Document.
(** * Vocabulary of the properties *)

(** The world after more accesses have been traced, and nothing else. *)
Definition add_events (evs : list event) (w : world) : world :=
  {| manifest_file := manifest_file w; features_file := features_file w;
     plan_file := plan_file w; seams_file := seams_file w;
     docs_dir := docs_dir w; checkpoint_files := checkpoint_files w;
     repo_tags := repo_tags w; repo_head := repo_head w;
     trace := trace w ++ evs |}.

(** A computation that changes nothing and whose accesses all satisfy [P]. *)
Definition only_logs {A} (P : event → Prop) (m : M A) : Prop :=
  ∀ w, ∃ evs, (m w).2 = add_events evs w ∧ Forall P evs.

Definition artifact_read (ev : event) : Prop :=
  ev = Read features_json ∨ ev = Read migration_plan_json.

(** The phase has no successor, or the gate to its successor passes. *)
Definition gate_passes (phase : string) (w : world) : Prop :=
  match next_phase_of phase with
  | None => True
  | Some next =>
      (∃ reason, (_check_phase_gate_unlocked phase next w).1 = Ok (true, reason))
  end.

(** The status of a phase, as [get_phase_status] reports it. *)
Definition status_is (phase status : string) (w : world) : Prop :=
  (get_phase_status phase w).1 = Ok status.

(** The manifest part of [advance_phase]: what is saved, from what was loaded. *)
Definition advance_manifest (now phase : string) (m : MigrationManifest.t)
  : result MigrationManifest.t :=
  and_then (verify_in_progress m phase) (λ _,
  and_then (mark_completed m phase now) (λ m1,
  start_next m1 (next_phase_of phase) now)).

(** ** Sample worlds *)

Definition sample_pipeline : pipeline :=
  {| codebase_path := "/tmp/proj"; target := "rust"; options := [];
     migration_id := "mig_20260223_143052_proj";
     migration_dir := "/root/.loki/migrations/mig_20260223_143052_proj" |}.

(** A migration directory as [MigrationPipeline.__init__] leaves it, for a
    repository without tags. *)
Definition empty_world : world :=
  {| manifest_file := None; features_file := None; plan_file := None;
     seams_file := false; docs_dir := Some [];
     checkpoint_files := ∅; repo_tags := ∅; repo_head := "c0"; trace := [] |}.

Definition with_artifacts (features plan : option (content json)) (seams : bool)
    (docs : option (list string)) (w : world) : world :=
  {| manifest_file := manifest_file w; features_file := features;
     plan_file := plan; seams_file := seams; docs_dir := docs;
     checkpoint_files := checkpoint_files w;
     repo_tags := repo_tags w; repo_head := repo_head w; trace := trace w |}.

(** After [create_manifest]. *)
Definition fresh_world : world :=
  (create_manifest sample_pipeline no_faults
     "2026-02-23T14:30:52+00:00" "2026-02-23T14:30:52+00:00" empty_world).2.

(** After the analysis wrote its documents and the features all pass. *)
Definition ready_world : world :=
  with_artifacts
    (Some (Holds (JArr [JObj [("id", JStr "f1"); ("passes", JBool true)]])))
    (Some (Holds (JObj [("steps", JArr [JObj [("id", JStr "s1");
                                              ("status", JStr "completed")]])])))
    true (Some ["architecture.md"]) fresh_world.

(** Scenario B: one feature, not passing. *)
Definition failing_feature_world : world :=
  with_artifacts
    (Some (Holds (JArr [JObj [("id", JStr "f1"); ("passes", JBool false)]])))
    None true (Some ["architecture.md"]) fresh_world.

(** The artifact loads without the errors that [load_features] and
    [load_plan] call corrupt. *)
Definition not_corrupt {A} (load : M A) (w : world) : Prop :=
  ∀ e, (load w).1 = Raise e → caught_by [JSONDecodeError; TypeError] e = false.

(** features.json is present but is not JSON (a truncated file). *)
Definition corrupt_features_world : world :=
  with_artifacts (Some (Garbled "Expecting value: line 1 column 1 (char 0)")) None
    true (Some ["architecture.md"]) fresh_world.

(** migration-plan.json is JSON of the wrong shape: [{"steps": 5}]. *)
Definition misshapen_plan_world : world :=
  with_artifacts None (Some (Holds (JObj [("steps", JNum 5)])))
    true (Some ["architecture.md"]) fresh_world.

Definition valid_manifest_document : json :=
  JObj [("id", JStr "mig_20260223_143052_proj");
        ("created_at", JStr "2026-02-23T14:30:52+00:00");
        ("source_info", JObj [("path", JStr "/tmp/proj")]);
        ("target_info", JObj [("target", JStr "rust")]);
        ("phases", JObj [("understand", JObj [("status", JStr "in_progress")])])].

(** Scenario D: one valid manifest and one that is not JSON. *)
Definition registry_with_invalid_json : option (list dir_entry) :=
  Some [DirEntry "mig_20260224_090000_other" true
          (Some (Garbled "Expecting value: line 1 column 1 (char 0)"));
        DirEntry "mig_20260223_143052_proj" true
          (Some (Holds valid_manifest_document))].

(** One valid manifest and one that is valid JSON of the wrong shape: [[]]. *)
Definition registry_with_wrong_shape : option (list dir_entry) :=
  Some [DirEntry "mig_20260224_090000_other" true (Some (Holds (JArr [])));
        DirEntry "mig_20260223_143052_proj" true
          (Some (Holds valid_manifest_document))].

(** The verdict of the guardrail gate on the loaded features. *)
Definition guardrail_verdict (features : list Feature.t) : result (bool * string) :=
  if bool_decide (features = []) then Ok (false, "No features defined")
  else
    let failing := filter (λ f, negb (truthy (Feature.passes f))) features in
    if negb (bool_decide (failing = [])) then
      and_then (join_ids (Feature.id <$> take 5 failing)) (λ ids,
      Ok (false, "Phase gate failed: " +:+ str_of_nat (length failing)
                 +:+ " characterization tests not passing (" +:+ ids +:+ ")"))
    else Ok (true, "Gate passed: all characterization tests pass").

(** What reading and parsing a file gives, from what is at its path. *)
Definition read_result {A B} (parse : A → result B) (file : option (content A)) : result B :=
  match file with
  | None => Raise (Exn FileNotFoundError "No such file or directory")
  | Some (Unreadable msg) => Raise (Exn OSError msg)
  | Some (Garbled msg) => Raise (Exn JSONDecodeError msg)
  | Some (Holds a) => parse a
  end.

(** The last checkpoint of the manifest and the step its tag names. *)
Definition last_checkpoint_step (m : MigrationManifest.t) : option (string * string) :=
  match last (MigrationManifest.checkpoints m) with
  | Some last_tag =>
      match split_on "/" last_tag with
      | _ :: cp_step :: _ => Some (last_tag, cp_step)
      | _ => None
      end
  | None => None
  end.

(** The manifest [create_manifest] writes for [sample_pipeline]. *)
Definition sample_manifest : MigrationManifest.t :=
  {| MigrationManifest.id := "mig_20260223_143052_proj";
     MigrationManifest.created_at := "2026-02-23T14:30:52+00:00";
     MigrationManifest.source_info :=
       [("path", JStr "/tmp/proj"); ("type", JStr "unknown")];
     MigrationManifest.target_info :=
       [("target", JStr "rust"); ("options", JObj [])];
     MigrationManifest.phases :=
       list_to_map
         ((λ phase, (phase, initial_phase phase "2026-02-23T14:30:52+00:00"))
            <$> PHASE_ORDER);
     MigrationManifest.feature_list_path :=
       "/root/.loki/migrations/mig_20260223_143052_proj/features.json";
     MigrationManifest.migration_plan_path :=
       "/root/.loki/migrations/mig_20260223_143052_proj/migration-plan.json";
     MigrationManifest.checkpoints := [] |}.

(** The manifest part of [start_phase]: nothing to save when the phase is
    already in progress, else the manifest to save. *)
Definition start_manifest (now phase : string) (m : MigrationManifest.t)
  : result (option MigrationManifest.t) :=
  and_then (phase_item m phase "status") (λ current_status,
  if String.eqb current_status "in_progress" then Ok None
  else if negb (String.eqb current_status "pending") then
    Raise (Exn RuntimeError
      ("Cannot start phase '" +:+ phase +:+ "': status is '" +:+ current_status
       +:+ "', expected 'pending'"))
  else
    and_then (set_phase_item m phase "status" "in_progress") (λ m1,
    and_then (set_phase_item m1 phase "started_at" now) (λ m2, Ok (Some m2)))).

(** A call of the state machine, or other tools rewriting the artifacts the
    gates read between two calls. *)
Inductive call :=
| StartPhase (fx : faults) (now phase : string)
| AdvancePhase (fx : faults) (now phase : string)
| EditArtifacts (features plan : option (content json)) (seams : bool)
    (docs : option (list string)).

Definition perform (c : call) (w : world) : world :=
  match c with
  | StartPhase fx now phase => (start_phase fx now phase w).2
  | AdvancePhase fx now phase => (advance_phase fx now phase w).2
  | EditArtifacts features plan seams docs => with_artifacts features plan seams docs w
  end.

Definition perform_all (cs : list call) (w : world) : world :=
  foldl (λ w c, perform c w) w cs.

(** The world right after a successful [create_manifest]. *)
Definition created (w : world) : Prop :=
  ∃ self fx created started w0 m,
    create_manifest self fx created started w0 = (Ok m, w).

Definition status_of (m : MigrationManifest.t) (phase : string) : string :=
  status_or_pending (MigrationManifest.phases m) phase.

Definition first_not_completed (m : MigrationManifest.t) : option string :=
  List.find (λ p, negb (String.eqb (status_of m p) "completed")) PHASE_ORDER.

(** At most one phase is in progress, and it is the first phase that is not
    completed. *)
Definition one_in_progress (w : world) : Prop :=
  ∀ m, manifest_file w = Some (Holds m) →
    (∀ p q, p ∈ PHASE_ORDER → q ∈ PHASE_ORDER →
            status_of m p = "in_progress" → status_of m q = "in_progress" → p = q)
    ∧ (∀ p, p ∈ PHASE_ORDER → status_of m p = "in_progress" →
            first_not_completed m = Some p).

(** [start_phase] is not applied to a pending phase. *)
Definition in_order (c : call) (w : world) : Prop :=
  match c with
  | StartPhase _ _ phase => ¬ status_is phase "pending" w
  | _ => True
  end.

Fixpoint disciplined (cs : list call) (w : world) : Prop :=
  match cs with
  | [] => True
  | c :: cs' => in_order c w ∧ disciplined cs' (perform c w)
  end.

Definition is_state_call (c : call) : Prop :=
  match c with
  | EditArtifacts _ _ _ _ => False
  | _ => True
  end.

(** C2 as the specification words it. *)
Definition phase_order_claim : Prop :=
  ∀ w cs, created w → Forall is_state_call cs → one_in_progress (perform_all cs w).

(** C3 as the specification words it. *)
Definition completed_is_final_claim : Prop :=
  ∀ w cs cs' p, created w → Forall is_state_call (cs ++ cs') → p ∈ PHASE_ORDER →
    status_is p "completed" (perform_all cs w) →
    ¬ status_is p "pending" (perform_all cs' (perform_all cs w))
    ∧ ¬ status_is p "in_progress" (perform_all cs' (perform_all cs w)).

Definition expected_status (k i : nat) : string :=
  if i <? k then "completed" else if i =? k then "in_progress" else "pending".

(** The first [k] phases are completed, the next is in progress, the others
    are pending. *)
Definition shaped (k : nat) (m : MigrationManifest.t) : Prop :=
  ∀ i p, PHASE_ORDER !! i = Some p →
    ∃ entry, MigrationManifest.phases m !! p = Some entry
             ∧ entry !! "status" = Some (expected_status k i).

Definition shaped_world (k : nat) (w : world) : Prop :=
  ∃ m, manifest_file w = Some (Holds m) ∧ shaped k m.

(** A status is kept, or set to in_progress or completed: no call writes
    pending. *)
Definition moves_forward (m m' : MigrationManifest.t) : Prop :=
  ∀ p, status_of m' p = status_of m p
       ∨ status_of m' p = "in_progress" ∨ status_of m' p = "completed".

(** The manifest save fails and so does the deletion of the tag. *)
Definition save_and_delete_fail : faults :=
  {| write_fails := λ p, bool_decide (p = manifest_json);
     git_fails := λ args, bool_decide (args = ["tag"; "-d"; "loki-migrate/s1/pre"]) |}.


(** C6 as the specification words it. *)
Definition compensation_claim : Prop :=
  ∀ fx now step_id w,
    step_id_matches step_id = true →
    returns (git fx ["tag"; tag_of step_id] w).1 →
    raises (record_checkpoint fx (tag_of step_id)
              (git fx ["tag"; tag_of step_id] w).2).1 →
    raises (create_checkpoint fx now step_id w).1
    ∧ repo_tags (create_checkpoint fx now step_id w).2 !! tag_of step_id = None
    ∧ (∀ m, manifest_file (create_checkpoint fx now step_id w).2 = Some (Holds m) →
            tag_of step_id ∉ MigrationManifest.checkpoints m).











(** The manifest save fails; git works. *)
Definition save_fails : faults :=
  {| write_fails := λ p, bool_decide (p = manifest_json);
     git_fails := λ _, false |}.

(** The call is an [advance_phase] of the predecessor of [p] that returns. *)
Definition restarts (c : call) (w : world) (p : string) : Prop :=
  match c with
  | AdvancePhase fx now q =>
      next_phase_of q = Some p ∧ returns (advance_phase fx now q w).1
  | _ => False
  end.

(** No call of the sequence restarts [p]. *)
Fixpoint spares (p : string) (cs : list call) (w : world) : Prop :=
  match cs with
  | [] => True
  | c :: cs' => ¬ restarts c w p ∧ spares p cs' (perform c w)
  end.





(** ** Vocabulary for the manifest as a document *)

(** The operation changes the persisted document. *)
Definition document_mutates {A} (op : Document.D A) (s : Document.state) : Prop :=
  Document.document (op s).2 ≠ Document.document s.

(** The status of a phase, as [get_phase_status] reports it. *)
Definition document_status_is (phase status : string) (s : Document.state) : Prop :=
  (Document.get_phase_status phase s).1 = Ok (JStr status).

(** The entry of a phase in the [phases] object of the persisted document. *)
Definition phase_entry (phase : string) (s : Document.state) : option json :=
  match Document.document s with
  | Some (Holds (JObj d)) =>
      match dict_get "phases" (JObj []) d with
      | JObj ps => assoc phase ps
      | _ => None
      end
  | _ => None
  end.

(** [phase in manifest.phases] is false on the manifest that loads: the
    status check of [advance_phase] is skipped. *)
Definition phase_not_in_phases (phase : string) (s : Document.state) : Prop :=
  ∃ d, Document.document s = Some (Holds (JObj d))
       ∧ py_contains phase (dict_get "phases" (JObj []) d) = Ok false.

(** The entry of the phase is an object. *)
Definition object_entry (phase : string) (s : Document.state) : Prop :=
  ∃ fields, phase_entry phase s = Some (JObj fields).

(** The manifest part of [advance_phase]: what is saved, from the document
    that was read. *)
Definition advance_document (now phase : string) (data : json)
  : result Document.MigrationManifest.t :=
  and_then (py_items data) (λ items,
  let manifest :=
    Document.MigrationManifest.init
      (keep_fields Document.MigrationManifest.field_names items) in
  and_then (Document.verify_in_progress manifest phase) (λ _,
  and_then (Document.mark_completed manifest phase now) (λ manifest,
  Document.start_next manifest (next_phase_of phase) now))).

(** The contract of [advance_phase] as the specification words it. *)
Definition document_contract (fx : faults) (now phase : string) (s : Document.state)
  : Prop :=
  (document_mutates (Document.advance_phase fx now phase) s
     ↔ document_status_is phase "in_progress" s
       ∧ gate_passes phase (Document.others s))
  ∧ (raises (Document.advance_phase fx now phase s).1 →
     Document.document (Document.advance_phase fx now phase s).2 = Document.document s).

(** The document [create_manifest] writes for [sample_pipeline]. *)
Definition sample_document : json :=
  JObj [("id", JStr "mig_20260223_143052_proj");
        ("created_at", JStr "2026-02-23T14:30:52+00:00");
        ("source_info", JObj [("path", JStr "/tmp/proj"); ("type", JStr "unknown")]);
        ("target_info", JObj [("target", JStr "rust"); ("options", JObj [])]);
        ("phases",
         JObj [("understand", JObj [("status", JStr "in_progress");
                                    ("started_at", JStr "2026-02-23T14:30:52+00:00");
                                    ("completed_at", JStr "")]);
               ("guardrail", JObj [("status", JStr "pending");
                                   ("started_at", JStr "");
                                   ("completed_at", JStr "")]);
               ("migrate", JObj [("status", JStr "pending");
                                 ("started_at", JStr "");
                                 ("completed_at", JStr "")]);
               ("verify", JObj [("status", JStr "pending");
                                ("started_at", JStr "");
                                ("completed_at", JStr "")])]);
        ("feature_list_path",
         JStr "/root/.loki/migrations/mig_20260223_143052_proj/features.json");
        ("migration_plan_path",
         JStr "/root/.loki/migrations/mig_20260223_143052_proj/migration-plan.json");
        ("checkpoints", JArr [])].

(** The migration directory of [ready_world], with that document. *)
Definition ready_state : Document.state :=
  Document.State (Some (Holds sample_document)) ready_world.

(** A document whose phases lack the entry of [understand]. *)
Definition document_without_understand : json :=
  JObj [("id", JStr "mig_20260223_143052_proj");
        ("phases", JObj [("guardrail", JObj [("status", JStr "pending")])])].

(** A document in which the entry of [guardrail] is a string. *)
Definition document_with_string_entry : json :=
  JObj [("phases", JObj [("understand", JObj [("status", JStr "in_progress")]);
                         ("guardrail", JStr "pending")])].










(** The status the loop of [get_progress] reads for a phase: the status of
    its entry, "pending" by default. *)
Definition document_status_of (ps : list (string * json)) (phase : string) : json :=
  match assoc phase ps with
  | None => JStr "pending"
  | Some (JObj fields) => dict_get "status" (JStr "pending") fields
  | Some _ => JNull
  end.
(** ** Vocabulary of the further properties *)


(** A nonempty string over [a-zA-Z0-9_-]. *)
Definition safe_string (s : string) : Prop :=
  s ≠ "" ∧ Forall (λ c, safe_char c = true) (String.list_ascii_of_string s).

Definition newline : string := String (Ascii.ascii_of_nat 10) "".

(** What [re.match] with the pattern of [_validate_step_id] accepts: a safe
    string, or a safe string followed by one newline. *)
Definition step_id_shape (step_id : string) : Prop :=
  ∃ body, safe_string body ∧ (step_id = body ∨ step_id = body +:+ newline).

(** The repository where [head] is checked out, otherwise [w]. *)
Definition checked_out (head : string) (w : world) : world :=
  put_repo (repo_tags w) head w.

(** An access that reads a file. *)
Definition is_read (ev : event) : Prop := ∃ p, ev = Read p.

(** What is at [manifest.json] of a migration directory, as the registry
    reads it. *)
Definition manifest_document (w : world) : option (content json) :=
  match manifest_file w with
  | None => None
  | Some (Unreadable msg) => Some (Unreadable msg)
  | Some (Garbled msg) => Some (Garbled msg)
  | Some (Holds m) => Some (Holds (manifest_asdict m))
  end.

(** The entry of the migrations directory for the migration of [w]. *)
Definition registry_entry (name : string) (w : world) : dir_entry :=
  DirEntry name true (manifest_document w).





(** [n] decimal digits, as [strftime] renders a date or a time of day. *)
Definition all_digits (n : nat) (s : string) : Prop :=
  String.length s = n ∧ Forall (λ c, is_digit c = true) (String.list_ascii_of_string s).

(** An item of a document reduced to the fields a dataclass knows. *)
Definition known_fields (names : list string) (item : json) : json :=
  match item with
  | JObj d => JObj (keep_fields names d)
  | _ => item
  end.

(** * Properties *)

(** ** The monad and the trace *)

Lemma add_events_nil w : add_events [] w = w.
Proof. destruct w; unfold add_events; simpl. by rewrite app_nil_r. Qed.

Lemma add_events_app evs evs' w :
  add_events evs' (add_events evs w) = add_events (evs ++ evs') w.
Proof. unfold add_events; simpl. by rewrite app_assoc. Qed.

Lemma record_event_add ev w : record_event ev w = add_events [ev] w.
Proof. reflexivity. Qed.

Section OnlyLogs.
Context (P : event → Prop).

Lemma only_logs_ret {A} (a : A) : only_logs P (ret a).
Proof. intros w. exists []. by rewrite add_events_nil. Qed.

Lemma only_logs_raise {A} e : only_logs P (raise (A:=A) e).
Proof. intros w. exists []. by rewrite add_events_nil. Qed.

Lemma only_logs_lift {A} (r : result A) : only_logs P (lift r).
Proof. intros w. exists []. by rewrite add_events_nil. Qed.

Lemma only_logs_ask {A} (f : world → A) : only_logs P (ask f).
Proof. intros w. exists []. by rewrite add_events_nil. Qed.

Lemma only_logs_bind {A B} (m : M A) (k : A → M B) :
  only_logs P m → (∀ a, only_logs P (k a)) → only_logs P (bind m k).
Proof.
  intros Hm Hk w. unfold bind. destruct (Hm w) as (evs & Hw & Hevs).
  destruct (m w) as [[a|e] w']; simpl in *; subst.
  - destruct (Hk a (add_events evs w)) as (evs' & Hw' & Hevs').
    exists (evs ++ evs'). rewrite Hw', add_events_app. split; [done|].
    by apply Forall_app.
  - by exists evs.
Qed.

Lemma only_logs_dispatch {A} (clauses : list (list exn_class * (exn → M A))) e :
  Forall (λ c, ∀ e, only_logs P (c.2 e)) clauses → only_logs P (dispatch clauses e).
Proof.
  induction 1 as [|[cs h] clauses Hh _ IH]; simpl.
  - apply only_logs_raise.
  - destruct (caught_by cs e); [apply Hh | apply IH].
Qed.

Lemma only_logs_try {A} (m : M A) clauses :
  only_logs P m → Forall (λ c, ∀ e, only_logs P (c.2 e)) clauses →
  only_logs P (try_except m clauses).
Proof.
  intros Hm Hc w. unfold try_except. destruct (Hm w) as (evs & Hw & Hevs).
  destruct (m w) as [[a|e] w']; simpl in *; subst.
  - by exists evs.
  - destruct (only_logs_dispatch clauses e Hc (add_events evs w))
      as (evs' & Hw' & Hevs').
    exists (evs ++ evs'). rewrite Hw', add_events_app. split; [done|].
    by apply Forall_app.
Qed.

Lemma only_logs_read_json {A} p (file : world → option (content A)) :
  P (Read p) → only_logs P (read_json p file).
Proof.
  intros Hp w. exists [Read p]. unfold read_json.
  split; [|by constructor]. by destruct (file w) as [[]|].
Qed.
End OnlyLogs.

Ltac only_logs_step :=
  first [ apply only_logs_ret | apply only_logs_raise | apply only_logs_lift
        | apply only_logs_ask
        | apply only_logs_read_json
        | apply only_logs_bind; [|intros ?]
        | apply only_logs_try; [|repeat constructor; simpl; intros ?]
        | case_match ].

(** ** The gates read the artifacts and nothing else *)

Lemma gate_only_logs from_phase to_phase :
  only_logs artifact_read (_check_phase_gate_unlocked from_phase to_phase).
Proof.
  unfold _check_phase_gate_unlocked.
  repeat only_logs_step; unfold artifact_read; auto.
Qed.

Lemma enforce_gate_only_logs phase next_phase :
  only_logs artifact_read (enforce_gate phase next_phase).
Proof.
  unfold enforce_gate. destruct next_phase; [|apply only_logs_ret].
  apply only_logs_bind; [apply gate_only_logs|].
  intros [[] reason]; simpl; [apply only_logs_ret | apply only_logs_raise].
Qed.

Lemma index_of_elem x l i : index_of x l = Some i → x ∈ l.
Proof.
  revert i. induction l as [|y l IH]; intros i; simpl; [done|].
  case_decide; [subst; set_solver|].
  destruct (index_of x l); simpl; [|done]. intros _. right. by eapply IH.
Qed.

Lemma next_phase_in_order phase next :
  next_phase_of phase = Some next → in_phase_order phase = true.
Proof.
  unfold next_phase_of, in_phase_order. intros H. apply bool_decide_eq_true.
  destruct (index_of phase PHASE_ORDER) as [i|] eqn:Hi; [|done].
  by eapply index_of_elem.
Qed.

(** [enforce_gate] lets the call continue exactly when the gate passes. *)
Lemma enforce_gate_ok phase w :
  (enforce_gate phase (next_phase_of phase) w).1 = Ok tt ↔ gate_passes phase w.
Proof.
  unfold enforce_gate, gate_passes. destruct (next_phase_of phase) as [next|]; [|done].
  unfold bind.
  destruct (_check_phase_gate_unlocked phase next w) as [[[[] reason]|e] w1]; simpl.
  - split; eauto.
  - split; [done|]. by intros [? ?].
  - split; [done|]. by intros [? ?].
Qed.

Lemma enforce_gate_blocked phase next reason w :
  (_check_phase_gate_unlocked phase next w).1 = Ok (false, reason) →
  (enforce_gate phase (Some next) w).1
    = Raise (Exn RuntimeError ("Phase gate failed: " +:+ reason)).
Proof.
  unfold enforce_gate, bind.
  destruct (_check_phase_gate_unlocked phase next w) as [r w1]; simpl.
  by intros ->.
Qed.

(** The normal form of [advance_phase]: the gate, the load, the manifest
    part, the save. *)
Lemma advance_phase_run fx now phase w :
  advance_phase fx now phase w =
    if negb (in_phase_order phase)
    then (Raise (Exn ValueError ("Unknown phase: " +:+ phase)), w)
    else
      match enforce_gate phase (next_phase_of phase) w with
      | (Raise e, w1) => (Raise e, w1)
      | (Ok _, w1) =>
          let w2 := record_event (Read manifest_json) w1 in
          match manifest_file w1 with
          | None => (Raise (Exn FileNotFoundError "No such file or directory"), w2)
          | Some (Unreadable msg) => (Raise (Exn OSError msg), w2)
          | Some (Garbled msg) => (Raise (Exn JSONDecodeError msg), w2)
          | Some (Holds m) =>
              match advance_manifest now phase m with
              | Raise e => (Raise e, w2)
              | Ok m' =>
                  let w3 := record_event (Write manifest_json) w2 in
                  if write_fails fx manifest_json
                  then (Raise (Exn OSError "write failed"), w3)
                  else (Ok {| PhaseResult.phase := phase;
                              PhaseResult.status := "completed";
                              PhaseResult.artifacts := [];
                              PhaseResult.started_at := "";
                              PhaseResult.completed_at := now;
                              PhaseResult.error := "" |},
                        put_manifest m' w3)
              end
          end
      end.
Proof.
  unfold advance_phase. destruct (negb (in_phase_order phase)); [done|].
  unfold bind at 1.
  destruct (enforce_gate phase (next_phase_of phase) w) as [[[]|e] w1]; [|done].
  unfold bind at 1, _load_manifest_unlocked, read_json.
  destruct (manifest_file w1) as [[msg|msg|m]|]; try done.
  unfold advance_manifest, bind, lift, and_then.
  destruct (verify_in_progress m phase) as [[]|e]; [|done].
  destruct (mark_completed m phase now) as [m1|e]; [|done].
  destruct (start_next m1 (next_phase_of phase) now) as [m2|e]; [|done].
  unfold _save_manifest_unlocked, _atomic_write, ret.
  by destruct (write_fails fx manifest_json).
Qed.

(** ** advance_phase *)

Lemma manifest_file_add_events evs w :
  manifest_file (add_events evs w) = manifest_file w.
Proof. done. Qed.

Lemma enforce_gate_world phase next_phase w :
  ∃ evs, (enforce_gate phase next_phase w).2 = add_events evs w
         ∧ Forall artifact_read evs.
Proof. apply enforce_gate_only_logs. Qed.

Lemma next_phase_ne phase next : next_phase_of phase = Some next → next ≠ phase.
Proof.
  unfold next_phase_of, PHASE_ORDER; simpl.
  repeat (case_decide; [subst; simpl; intros [= <-]; done|]). done.
Qed.

Lemma set_phase_item_other m phase key v m' other :
  set_phase_item m phase key v = Ok m' → other ≠ phase →
  MigrationManifest.phases m' !! other = MigrationManifest.phases m !! other.
Proof.
  unfold set_phase_item. destruct (MigrationManifest.phases m !! phase); [|done].
  intros [= <-] Hne. simpl. by rewrite lookup_insert_ne.
Qed.

Lemma set_phase_item_same m phase key v m' :
  set_phase_item m phase key v = Ok m' →
  ∃ entry, MigrationManifest.phases m !! phase = Some entry
           ∧ MigrationManifest.phases m' !! phase = Some (<[key := v]> entry).
Proof.
  unfold set_phase_item. destruct (MigrationManifest.phases m !! phase) as [entry|]; [|done].
  intros [= <-]. exists entry. simpl. by rewrite lookup_insert_eq.
Qed.

Lemma set_phase_item_ok m phase key v entry :
  MigrationManifest.phases m !! phase = Some entry →
  ∃ m', set_phase_item m phase key v = Ok m'.
Proof. unfold set_phase_item. intros ->. eauto. Qed.

(** What [advance_manifest] needs, and what it leaves in the phase's entry. *)
Lemma advance_manifest_inv now phase m m' entry :
  MigrationManifest.phases m !! phase = Some entry →
  advance_manifest now phase m = Ok m' →
  default "pending" (entry !! "status") = "in_progress"
  ∧ status_or_pending (MigrationManifest.phases m') phase = "completed".
Proof.
  intros Hentry. unfold advance_manifest, verify_in_progress, mark_completed.
  rewrite Hentry. simpl.
  destruct (String.eqb_spec (default "pending" (entry !! "status")) "in_progress")
    as [Hst|Hst]; simpl; [|done].
  unfold and_then.
  destruct (set_phase_item m phase "status" "completed") as [m1|] eqn:H1; [|done].
  destruct (set_phase_item m1 phase "completed_at" now) as [m2|] eqn:H2; [|done].
  intros Hnext. split; [done|].
  apply set_phase_item_same in H1 as (e1 & He1 & H1).
  apply set_phase_item_same in H2 as (e2 & He2 & H2).
  assert (MigrationManifest.phases m' !! phase = MigrationManifest.phases m2 !! phase) as Hsame.
  { unfold start_next in Hnext. destruct (next_phase_of phase) as [next|] eqn:Hn.
    - unfold and_then in Hnext.
      destruct (set_phase_item m2 next "status" "in_progress") as [m3|] eqn:H3; [|done].
      pose proof (next_phase_ne _ _ Hn) as Hne.
      rewrite (set_phase_item_other _ _ _ _ _ _ Hnext); [|done].
      by rewrite (set_phase_item_other _ _ _ _ _ _ H3).
    - by inversion Hnext. }
  unfold status_or_pending. rewrite Hsame, H2. simpl.
  rewrite H1 in He2. injection He2 as <-.
  rewrite lookup_insert_ne; [|done]. by rewrite lookup_insert_eq.
Qed.

Lemma advance_manifest_intro now phase m entry :
  MigrationManifest.phases m !! phase = Some entry →
  default "pending" (entry !! "status") = "in_progress" →
  (∀ next, next_phase_of phase = Some next →
           is_Some (MigrationManifest.phases m !! next)) →
  ∃ m', advance_manifest now phase m = Ok m'.
Proof.
  intros Hentry Hst Hnext. unfold advance_manifest, verify_in_progress, mark_completed.
  rewrite Hentry, Hst. simpl.
  destruct (set_phase_item_ok m phase "status" "completed" _ Hentry) as [m1 H1].
  rewrite H1. simpl.
  pose proof H1 as H1'. apply set_phase_item_same in H1' as (e1 & _ & He1).
  destruct (set_phase_item_ok m1 phase "completed_at" now _ He1) as [m2 H2].
  rewrite H2. simpl. unfold start_next.
  destruct (next_phase_of phase) as [next|] eqn:Hn; [|eauto].
  destruct (Hnext next eq_refl) as [en Hen].
  pose proof (next_phase_ne _ _ Hn) as Hne.
  assert (MigrationManifest.phases m2 !! next = Some en) as Hen2.
  { rewrite (set_phase_item_other _ _ _ _ _ _ H2); [|done].
    by rewrite (set_phase_item_other _ _ _ _ _ _ H1). }
  destruct (set_phase_item_ok m2 next "status" "in_progress" _ Hen2) as [m3 H3].
  rewrite H3. simpl.
  pose proof H3 as H3'. apply set_phase_item_same in H3' as (e3 & _ & He3).
  apply (set_phase_item_ok m3 next "started_at" now _ He3).
Qed.

(** Whenever [advance_phase] raises, only the trace has grown. *)
Lemma advance_phase_raise_frame fx now phase w e :
  (advance_phase fx now phase w).1 = Raise e →
  ∃ evs, (advance_phase fx now phase w).2 = add_events evs w.
Proof.
  rewrite advance_phase_run.
  destruct (negb (in_phase_order phase)); [exists []; by rewrite add_events_nil|].
  destruct (enforce_gate_world phase (next_phase_of phase) w) as (evs & Hw & _).
  destruct (enforce_gate phase (next_phase_of phase) w) as [[[]|e'] w1];
    simpl in Hw; subst w1; [|by exists evs].
  rewrite manifest_file_add_events.
  destruct (manifest_file w) as [[msg|msg|m]|]; simpl;
    try (rewrite record_event_add, add_events_app; eauto; fail).
  destruct (advance_manifest now phase m) as [m'|e'];
    [|rewrite record_event_add, add_events_app; eauto].
  destruct (write_fails fx manifest_json); simpl; [|done].
  rewrite !record_event_add, !add_events_app; eauto.
Qed.

Lemma status_is_inv phase status w :
  status_is phase status w →
  ∃ m, manifest_file w = Some (Holds m)
       ∧ status_or_pending (MigrationManifest.phases m) phase = status.
Proof.
  unfold status_is, get_phase_status.
  destruct (negb (in_phase_order phase)); [done|].
  unfold bind, load_manifest, _load_manifest_unlocked, read_json, ret.
  destruct (manifest_file w) as [[msg|msg|m]|]; simpl; try done.
  intros [= <-]. eauto.
Qed.

Lemma status_is_intro phase m w :
  phase ∈ PHASE_ORDER →
  manifest_file w = Some (Holds m) →
  status_is phase (status_or_pending (MigrationManifest.phases m) phase) w.
Proof.
  intros Hin Hm. unfold status_is, get_phase_status, in_phase_order.
  rewrite bool_decide_eq_true_2 by done. simpl.
  unfold bind, load_manifest, _load_manifest_unlocked, read_json, ret.
  by rewrite Hm.
Qed.

(** ** The gate comes first *)

(** C10: [advance_phase] evaluates the gate before it reads the manifest or
    checks the status: for a phase with a successor whose gate fails, it
    raises the gate-failure error whatever the manifest holds, and the
    manifest file is neither read nor written. *)
Theorem advance_phase_gate_first fx now phase next reason w :
  next_phase_of phase = Some next →
  (_check_phase_gate_unlocked phase next w).1 = Ok (false, reason) →
  (advance_phase fx now phase w).1
    = Raise (Exn RuntimeError ("Phase gate failed: " +:+ reason))
  ∧ (∃ evs, (advance_phase fx now phase w).2 = add_events evs w
            ∧ (Read manifest_json ∉ evs) ∧ (Write manifest_json ∉ evs)).
Proof.
  intros Hnext Hgate. rewrite advance_phase_run.
  rewrite (next_phase_in_order _ _ Hnext), Hnext. cbn [negb].
  pose proof (enforce_gate_blocked phase next reason w Hgate) as Hblocked.
  destruct (enforce_gate_world phase (Some next) w) as (evs & Hw & Hevs).
  destruct (enforce_gate phase (Some next) w) as [r w1]; simpl in *; subst; simpl.
  split; [done|]. exists evs. split; [done|].
  rewrite Forall_forall in Hevs.
  split; intros Hin; destruct (Hevs _ Hin); discriminate.
Qed.

Lemma advance_phase_gate_first_witness :
  next_phase_of "guardrail" = Some "migrate"
  ∧ (_check_phase_gate_unlocked "guardrail" "migrate" failing_feature_world).1
      = Ok (false, "Phase gate failed: 1 characterization tests not passing (f1)")
  ∧ status_is "guardrail" "pending" failing_feature_world
  ∧ (advance_phase no_faults "t1" "guardrail" failing_feature_world).1
      = Raise (Exn RuntimeError
          "Phase gate failed: Phase gate failed: 1 characterization tests not passing (f1)").
Proof.
  assert (next_phase_of "guardrail" = Some "migrate") as Hn by reflexivity.
  assert ((_check_phase_gate_unlocked "guardrail" "migrate" failing_feature_world).1
          = Ok (false, "Phase gate failed: 1 characterization tests not passing (f1)"))
    as Hg by (vm_compute; reflexivity).
  split; [done|]. split; [done|]. split; [vm_compute; reflexivity|].
  apply (advance_phase_gate_first no_faults "t1" "guardrail" "migrate" _ _ Hn Hg).
Defined.

(** ** The two variants of the gate *)

Lemma features_block_agrees w :
  not_corrupt load_features w →
  try_except (do features <- load_features; ret (inl features))
    [([FileNotFoundError],
      λ _, ret (inr (false, "Phase gate failed: features.json not found")))] w
  = try_except
      (do data <- read_json features_json features_file;
       do features <- lift (features_of_json data);
       ret (inl features))
      [([FileNotFoundError],
        λ _, ret (inr (false, "Phase gate failed: features.json not found")));
       ([JSONDecodeError; TypeError],
        λ exc, ret (inr (false, "Phase gate failed: features.json is invalid: "
                                 +:+ exn_msg exc)))] w.
Proof.
  unfold not_corrupt, load_features, try_except, bind, read_json, lift, ret.
  destruct (features_file w) as [[msg|msg|data]|]; simpl.
  - done.
  - intros H. by specialize (H _ eq_refl).
  - destruct (features_of_json data) as [fs|e]; simpl; [done|].
    destruct e as [cls msg]. unfold raise.
    destruct cls; simpl; try done; intros H; by specialize (H _ eq_refl).
  - done.
Qed.

Lemma plan_block_agrees w :
  not_corrupt load_plan w →
  try_except (do plan <- load_plan; ret (inl plan))
    [([FileNotFoundError],
      λ _, ret (inr (false, "Phase gate failed: migration-plan.json not found")))] w
  = try_except
      (do data <- read_json migration_plan_json plan_file;
       do plan <- lift (plan_of_json data);
       ret (inl plan))
      [([FileNotFoundError],
        λ _, ret (inr (false, "Phase gate failed: migration-plan.json not found")));
       ([JSONDecodeError; TypeError],
        λ exc, ret (inr (false, "Phase gate failed: migration-plan.json is invalid: "
                                 +:+ exn_msg exc)))] w.
Proof.
  unfold not_corrupt, load_plan, try_except, bind, read_json, lift, ret.
  destruct (plan_file w) as [[msg|msg|data]|]; simpl.
  - done.
  - intros H. by specialize (H _ eq_refl).
  - destruct (plan_of_json data) as [fs|e]; simpl; [done|].
    destruct e as [cls msg]. unfold raise.
    destruct cls; simpl; try done; intros H; by specialize (H _ eq_refl).
  - done.
Qed.

(** X28: away from corrupt artifacts the two variants of the gate agree. *)
Lemma gate_variants_agree from_phase to_phase w :
  not_corrupt load_features w → not_corrupt load_plan w →
  check_phase_gate from_phase to_phase w
  = _check_phase_gate_unlocked from_phase to_phase w.
Proof.
  intros Hf Hp. unfold check_phase_gate, _check_phase_gate_unlocked.
  destruct (index_of from_phase PHASE_ORDER); [|done].
  destruct (index_of to_phase PHASE_ORDER); [|done].
  destruct (negb _); [done|].
  destruct (_ && _); [done|].
  destruct (_ && _).
  { unfold bind at 1. unfold bind at 3. by rewrite features_block_agrees. }
  destruct (_ && _); [|done].
  unfold bind at 1. unfold bind at 3. by rewrite plan_block_agrees.
Qed.

(** C4: the standalone gate and the one [advance_phase] uses give the same
    verdict on every state of the migration directory.  The code does not:
    on a features.json that is not JSON, and on a migration-plan.json of the
    wrong shape, [check_phase_gate] raises what [load_features] and
    [load_plan] raise, where [_check_phase_gate_unlocked] returns a failed
    verdict. *)
Theorem gate_variants_disagree_on_corrupt :
  (check_phase_gate "guardrail" "migrate" corrupt_features_world).1
    = Raise (Exn JSONDecodeError "Expecting value: line 1 column 1 (char 0)")
  ∧ (_check_phase_gate_unlocked "guardrail" "migrate" corrupt_features_world).1
    = Ok (false, "Phase gate failed: features.json is invalid: Expecting value: line 1 column 1 (char 0)")
  ∧ (check_phase_gate "migrate" "verify" misshapen_plan_world).1
    = Raise (Exn TypeError "'int' object is not iterable")
  ∧ (_check_phase_gate_unlocked "migrate" "verify" misshapen_plan_world).1
    = Ok (false, "Phase gate failed: migration-plan.json is invalid: 'int' object is not iterable").
Proof. repeat split; vm_compute; reflexivity. Qed.

(** ** The registry *)

(** Scenario D: the manifest that is not JSON is skipped with a warning. *)
Lemma list_migrations_skips_invalid_json :
  ∃ entry warning,
    list_migrations registry_with_invalid_json = (Ok [entry], [warning])
    ∧ ms_id entry = JStr "mig_20260223_143052_proj".
Proof. eexists _, _. split; vm_compute; reflexivity. Qed.

(** C8: corrupt manifests, including valid JSON of the wrong shape, are
    skipped and the listing never raises.  The code does not skip the wrong
    shape: the clause handles [JSONDecodeError] and [OSError], and the
    [AttributeError] of [data.get] on a list leaves [list_migrations], taking
    the valid entry with it. *)
Theorem list_migrations_raises_on_wrong_shape :
  list_migrations registry_with_wrong_shape
  = (Raise (Exn AttributeError "'list' object has no attribute 'get'"), []).
Proof. vm_compute. reflexivity. Qed.

(** ** The guardrail gate *)

Lemma guardrail_gate_run w :
  check_phase_gate "guardrail" "migrate" w =
    match load_features w with
    | (Ok features, w1) => (guardrail_verdict features, w1)
    | (Raise e, w1) =>
        if caught_by [FileNotFoundError] e
        then (Ok (false, "Phase gate failed: features.json not found"), w1)
        else (Raise e, w1)
    end.
Proof.
  unfold check_phase_gate. simpl. unfold bind at 1, try_except at 1, bind at 1.
  destruct (load_features w) as [[fs|e] w1]; simpl.
  - unfold guardrail_verdict, ret.
    destruct (bool_decide (fs = [])); [done|].
    destruct (negb _); [|done].
    unfold bind, lift, and_then. by destruct (join_ids _).
  - by destruct (subclass (exn_cls e) FileNotFoundError).
Qed.

Lemma filter_nil_Forall {A} (p : A → bool) (l : list A) :
  filter (λ x, negb (p x)) l = [] ↔ Forall (λ x, p x = true) l.
Proof.
  induction l as [|x l IH]; [by split|].
  rewrite filter_cons. destruct (p x) eqn:Hp; simpl.
  - rewrite IH. split; [by constructor|]. by inversion 1.
  - split; [done|]. inversion 1; congruence.
Qed.

(** X29: the gate returns true exactly when the document loads, is not empty
    and every feature passes. *)
Lemma guardrail_gate_true_iff w :
  (∃ reason, (check_phase_gate "guardrail" "migrate" w).1 = Ok (true, reason))
  ↔ ∃ features, (load_features w).1 = Ok features ∧ features ≠ []
                ∧ Forall (λ f, truthy (Feature.passes f) = true) features.
Proof.
  rewrite guardrail_gate_run.
  destruct (load_features w) as [[fs|e] w1]; simpl.
  - unfold guardrail_verdict.
    destruct (decide (fs = [])) as [->|Hne].
    { simpl. split; [by intros [? ?]|]. intros (fs & [= <-] & ? & _). done. }
    rewrite bool_decide_eq_false_2 by done.
    pose proof (filter_nil_Forall (λ f, truthy (Feature.passes f)) fs) as Hfil.
    destruct (decide (filter (λ f, negb (truthy (Feature.passes f))) fs = [])) as [Hnil|Hsome].
    + rewrite bool_decide_eq_true_2 by done. simpl. split; [|eauto].
      intros _. exists fs. split; [done|]. split; [done|]. by apply Hfil.
    + rewrite bool_decide_eq_false_2 by done. simpl. split.
      * destruct (join_ids _); simpl; by intros [? ?].
      * intros (fs' & [= <-] & _ & Hall). by apply Hfil in Hall.
  - split.
    + destruct (subclass (exn_cls e) FileNotFoundError || false); by intros [? ?].
    + by intros (? & ? & _).
Qed.

Lemma str_items_ok i l ss :
  str_items i l = Ok ss → l = JStr <$> ss.
Proof.
  revert i ss. induction l as [|v l IH]; intros i ss; simpl.
  - by intros [= <-].
  - destruct v; try done.
    destruct (str_items (S i) l) as [ss'|] eqn:Hl; [|done].
    intros [= <-]. simpl. f_equal. by eapply IH.
Qed.

(** X30: a failed verdict names at most five features, each of them not
    passing. *)
Lemma guardrail_gate_names_at_most_five w reason :
  (check_phase_gate "guardrail" "migrate" w).1 = Ok (false, reason) →
  reason = "Phase gate failed: features.json not found"
  ∨ reason = "No features defined"
  ∨ ∃ features failing ids,
      (load_features w).1 = Ok features
      ∧ failing = filter (λ f, negb (truthy (Feature.passes f))) features
      ∧ Feature.id <$> take 5 failing = JStr <$> ids
      ∧ length ids ≤ 5
      ∧ reason = "Phase gate failed: " +:+ str_of_nat (length failing)
                 +:+ " characterization tests not passing ("
                 +:+ String.concat ", " ids +:+ ")".
Proof.
  rewrite guardrail_gate_run.
  destruct (load_features w) as [[fs|e] w1]; simpl.
  - unfold guardrail_verdict.
    destruct (bool_decide (fs = [])); [intros [= <-]; auto|].
    destruct (negb _); [|done].
    unfold join_ids.
    destruct (str_items 0 _) as [ids|] eqn:Hids; simpl; [|done].
    intros [= <-]. right. right. eexists fs, _, ids.
    apply str_items_ok in Hids.
    split; [done|]. split; [done|]. split; [done|]. split; [|done].
    apply (f_equal length) in Hids. rewrite !length_fmap, length_take in Hids. lia.
  - destruct (subclass (exn_cls e) FileNotFoundError || false); [|done].
    intros [= <-]. auto.
Qed.

(** Scenario B *)
Lemma guardrail_gate_scenario_B :
  ∃ reason,
    (check_phase_gate "guardrail" "migrate" failing_feature_world).1 = Ok (false, reason)
    ∧ contains "f1" reason = true.
Proof. eexists. split; vm_compute; reflexivity. Qed.

(** C5: the guardrail gate returns true exactly when the features document
    exists, parses, is not empty and every feature passes, and on failure it
    returns false with a reason naming at most five features.  The first
    part and scenario B hold (the three lemmas above); the code misses the
    second on a features.json that does not parse, where [check_phase_gate]
    raises instead of returning false. *)
Theorem guardrail_gate_raises_on_corrupt_features :
  raises (load_features corrupt_features_world).1
  ∧ (check_phase_gate "guardrail" "migrate" corrupt_features_world).1
    = Raise (Exn JSONDecodeError "Expecting value: line 1 column 1 (char 0)")
  ∧ (∀ reason, (check_phase_gate "guardrail" "migrate" corrupt_features_world).1
               ≠ Ok (false, reason)).
Proof.
  split; [eexists; vm_compute; reflexivity|].
  split; [vm_compute; reflexivity|].
  intros reason. vm_compute. discriminate.
Qed.

(** ** The progress reporter *)

Lemma bind_ok {A B} (m : M A) (k : A → M B) w a w' :
  m w = (Ok a, w') → bind m k w = k a w'.
Proof. unfold bind. by intros ->. Qed.

Lemma dispatch_reraise {A} (e : exn) w :
  dispatch (A:=A) [([FileNotFoundError], λ exc, raise exc);
            ([JSONDecodeError; TypeError], λ exc, raise exc)] e w = (Raise e, w).
Proof. simpl. by repeat case_match. Qed.

Lemma load_features_run w :
  load_features w
  = (read_result features_of_json (features_file w), record_event (Read features_json) w).
Proof.
  unfold load_features, try_except, bind, read_json, lift.
  destruct (features_file w) as [[msg|msg|data]|]; simpl; try done.
  destruct (features_of_json data) as [fs|e]; [done|]. apply dispatch_reraise.
Qed.

Lemma load_plan_run w :
  load_plan w
  = (read_result plan_of_json (plan_file w), record_event (Read migration_plan_json) w).
Proof.
  unfold load_plan, try_except, bind, read_json, lift.
  destruct (plan_file w) as [[msg|msg|data]|]; simpl; try done.
  destruct (plan_of_json data) as [fs|e]; [done|]. apply dispatch_reraise.
Qed.

Lemma feature_stats_world w :
  (feature_stats w).2 = record_event (Read features_json) w.
Proof.
  unfold feature_stats, try_except, bind. rewrite load_features_run.
  destruct (read_result _ _) as [fs|e]; simpl; [done|]. by case_match.
Qed.

Lemma feature_stats_absent w :
  features_file w = None → (feature_stats w).1 = Ok (0, 0).
Proof.
  intros H. unfold feature_stats, try_except, bind. rewrite load_features_run, H. done.
Qed.

Lemma feature_stats_returns w :
  returns (load_features w).1 → returns (feature_stats w).1.
Proof.
  intros [fs H]. unfold feature_stats, try_except, bind.
  destruct (load_features w) as [r w1]. simpl in H. subst r. simpl. by eexists.
Qed.

Lemma step_stats_world w :
  (step_stats w).2 = record_event (Read migration_plan_json) w.
Proof.
  unfold step_stats, try_except, bind. rewrite load_plan_run.
  destruct (read_result _ _) as [fs|e]; simpl; [done|]. by case_match.
Qed.

Lemma step_stats_absent w :
  plan_file w = None → (step_stats w).1 = Ok (0, 0, None, 0).
Proof.
  intros H. unfold step_stats, try_except, bind. rewrite load_plan_run, H. done.
Qed.

Lemma step_stats_returns w :
  returns (load_plan w).1 → returns (step_stats w).1.
Proof.
  intros [fs H]. unfold step_stats, try_except, bind.
  destruct (load_plan w) as [r w1]. simpl in H. subst r. simpl. by eexists.
Qed.

Lemma last_checkpoint_data_none m w :
  last_checkpoint_step m = None → (last_checkpoint_data m w).1 = Ok None.
Proof.
  unfold last_checkpoint_step, last_checkpoint_data.
  destruct (last _) as [tag|]; [|done].
  destruct (split_on "/" tag) as [|? [|? ?]]; done.
Qed.

Lemma last_checkpoint_data_missing m w tag step :
  last_checkpoint_step m = Some (tag, step) →
  checkpoint_files w !! step = None →
  (last_checkpoint_data m w).1
  = Ok (Some (CheckpointInfo (JStr tag) (JStr "") (JStr ""))).
Proof.
  unfold last_checkpoint_step, last_checkpoint_data.
  destruct (last _) as [tag'|]; [|done].
  destruct (split_on "/" tag') as [|? [|? ?]]; try done.
  intros [= -> ->] Hfile. unfold try_except, bind, read_json. by rewrite Hfile.
Qed.

Lemma last_checkpoint_data_dict m w tag step d :
  last_checkpoint_step m = Some (tag, step) →
  checkpoint_files w !! step = Some (Holds (JObj d)) →
  returns (last_checkpoint_data m w).1.
Proof.
  unfold last_checkpoint_step, last_checkpoint_data.
  destruct (last _) as [tag'|]; [|done].
  destruct (split_on "/" tag') as [|? [|? ?]]; try done.
  intros [= -> ->] Hfile. unfold try_except, bind, read_json. rewrite Hfile.
  simpl. by eexists.
Qed.

(** Scenario A: the manifest of a new pipeline. *)
Lemma create_manifest_scenario_A :
  manifest_file fresh_world = Some (Holds sample_manifest)
  ∧ status_is "understand" "in_progress" fresh_world
  ∧ status_is "guardrail" "pending" fresh_world
  ∧ status_is "migrate" "pending" fresh_world
  ∧ status_is "verify" "pending" fresh_world.
Proof. repeat split; vm_compute; reflexivity. Qed.

(** ** The phase state machine *)

(** *** The phase state machine *)

Lemma created_fresh_world : created fresh_world.
Proof.
  exists sample_pipeline, no_faults, "2026-02-23T14:30:52+00:00",
    "2026-02-23T14:30:52+00:00", empty_world, sample_manifest.
  reflexivity.
Qed.

Lemma created_ready_world : created ready_world.
Proof.
  exists sample_pipeline, no_faults, "2026-02-23T14:30:52+00:00",
    "2026-02-23T14:30:52+00:00".
  eexists (with_artifacts _ _ _ _ empty_world), sample_manifest.
  reflexivity.
Qed.

(** C2 as stated fails: [start_phase] starts any pending phase, so after
    [create_manifest] and [start_phase("verify")] both understand and verify
    are in progress. *)
Lemma phase_order_claim_fails :
  created fresh_world
  ∧ status_is "understand" "in_progress"
      (perform_all [StartPhase no_faults "t1" "verify"] fresh_world)
  ∧ status_is "verify" "in_progress"
      (perform_all [StartPhase no_faults "t1" "verify"] fresh_world)
  ∧ ¬ phase_order_claim.
Proof.
  split; [exact created_fresh_world|].
  split; [vm_compute; reflexivity|]. split; [vm_compute; reflexivity|].
  intros H.
  pose proof (H fresh_world [StartPhase no_faults "t1" "verify"] created_fresh_world)
    as H1.
  assert (∃ m, manifest_file (perform_all [StartPhase no_faults "t1" "verify"] fresh_world)
               = Some (Holds m)
               ∧ status_of m "understand" = "in_progress"
               ∧ status_of m "verify" = "in_progress") as (m & Hm & Hu & Hv).
  { eexists. split; [vm_compute; reflexivity|]. split; vm_compute; reflexivity. }
  destruct (H1 ltac:(by repeat constructor) m Hm) as [Huniq _].
  assert ("understand" = "verify") as Heq; [|discriminate Heq].
  apply Huniq; [set_solver | set_solver | done | done].
Qed.

(** C3 as stated fails: after [start_phase("guardrail")] and
    [advance_phase("guardrail")] the phase guardrail is completed while
    understand is still in progress; [advance_phase("understand")] then sets
    guardrail back to in_progress. *)
Lemma completed_is_final_claim_fails :
  created ready_world
  ∧ status_is "guardrail" "completed"
      (perform_all [StartPhase no_faults "t1" "guardrail";
                    AdvancePhase no_faults "t2" "guardrail"] ready_world)
  ∧ status_is "guardrail" "in_progress"
      (perform_all [AdvancePhase no_faults "t3" "understand"]
         (perform_all [StartPhase no_faults "t1" "guardrail";
                       AdvancePhase no_faults "t2" "guardrail"] ready_world))
  ∧ ¬ completed_is_final_claim.
Proof.
  split; [exact created_ready_world|].
  split; [vm_compute; reflexivity|]. split; [vm_compute; reflexivity|].
  intros H.
  specialize (H ready_world
                [StartPhase no_faults "t1" "guardrail"; AdvancePhase no_faults "t2" "guardrail"]
                [AdvancePhase no_faults "t3" "understand"]
                "guardrail" created_ready_world).
  destruct H as [_ H]; [by repeat constructor | set_solver | vm_compute; reflexivity |].
  apply H. vm_compute. reflexivity.
Qed.

Lemma start_phase_run fx now phase w :
  start_phase fx now phase w =
    if negb (in_phase_order phase)
    then (Raise (Exn ValueError ("Unknown phase: " +:+ phase)), w)
    else
      let w1 := record_event (Read manifest_json) w in
      match manifest_file w with
      | None => (Raise (Exn FileNotFoundError "No such file or directory"), w1)
      | Some (Unreadable msg) => (Raise (Exn OSError msg), w1)
      | Some (Garbled msg) => (Raise (Exn JSONDecodeError msg), w1)
      | Some (Holds m) =>
          match start_manifest now phase m with
          | Raise e => (Raise e, w1)
          | Ok None => (Ok tt, w1)
          | Ok (Some m') =>
              let w2 := record_event (Write manifest_json) w1 in
              if write_fails fx manifest_json
              then (Raise (Exn OSError "write failed"), w2)
              else (Ok tt, put_manifest m' w2)
          end
      end.
Proof.
  unfold start_phase. destruct (negb (in_phase_order phase)); [done|].
  unfold bind at 1, _load_manifest_unlocked, read_json.
  destruct (manifest_file w) as [[msg|msg|m]|]; try done.
  unfold start_manifest, bind, lift, and_then.
  destruct (phase_item m phase "status") as [st|e]; [|done].
  destruct (String.eqb st "in_progress"); [done|].
  destruct (negb (String.eqb st "pending")); [done|].
  destruct (set_phase_item m phase "status" "in_progress") as [m1|e]; [|done].
  destruct (set_phase_item m1 phase "started_at" now) as [m2|e]; [|done].
  done.
Qed.

(** [start_phase] changes the manifest of a pending phase only. *)
Lemma start_phase_changes_pending fx now phase w :
  manifest_file (start_phase fx now phase w).2 ≠ manifest_file w →
  status_is phase "pending" w.
Proof.
  rewrite start_phase_run. unfold status_is, get_phase_status.
  destruct (negb (in_phase_order phase)); [done|].
  unfold bind, load_manifest, _load_manifest_unlocked, read_json, ret.
  destruct (manifest_file w) as [[msg|msg|m]|] eqn:Hm; simpl; try done.
  unfold start_manifest, phase_item, status_or_pending.
  destruct (MigrationManifest.phases m !! phase) as [entry|]; simpl; [|done].
  destruct (entry !! "status") as [st|]; simpl; [|done].
  destruct (String.eqb st "in_progress"); [done|].
  destruct (String.eqb_spec st "pending") as [->|]; simpl; [done|done].
Qed.

Lemma phase_order_index i p :
  PHASE_ORDER !! i = Some p →
  (i = 0 ∧ p = "understand") ∨ (i = 1 ∧ p = "guardrail")
  ∨ (i = 2 ∧ p = "migrate") ∨ (i = 3 ∧ p = "verify").
Proof.
  destruct i as [|[|[|[|i]]]]; simpl; intros [= <-]; auto 10.
Qed.

Lemma shaped_status k m i p :
  shaped k m → PHASE_ORDER !! i = Some p → status_of m p = expected_status k i.
Proof.
  intros Hs Hi. destruct (Hs i p Hi) as (entry & He & Hst).
  unfold status_of, status_or_pending. by rewrite He; simpl; rewrite Hst.
Qed.

Lemma created_shaped w : created w → shaped_world 0 w.
Proof.
  intros (self & fx & c & s & w0 & m & H).
  unfold create_manifest, bind, save_manifest, _save_manifest_unlocked, _atomic_write, ret in H.
  destruct (write_fails fx manifest_json); [done|].
  injection H as <- <-. eexists. split; [done|].
  intros i p Hi. simpl.
  destruct (phase_order_index i p Hi) as [[-> ->]|[[-> ->]|[[-> ->]|[-> ->]]]];
    eexists; split; reflexivity.
Qed.

Lemma expected_in_progress k i : expected_status k i = "in_progress" → i = k.
Proof.
  unfold expected_status. destruct (i <? k); [done|].
  destruct (Nat.eqb_spec i k); [done|done].
Qed.

Lemma in_phase_order_index phase :
  in_phase_order phase = true → ∃ i, PHASE_ORDER !! i = Some phase.
Proof.
  unfold in_phase_order. intros H. apply bool_decide_eq_true in H.
  by apply list_elem_of_lookup in H.
Qed.

Lemma advance_manifest_shaped now phase k m m' :
  in_phase_order phase = true →
  shaped k m → advance_manifest now phase m = Ok m' →
  k < 4 ∧ shaped (S k) m'.
Proof.
  intros Hin Hs Hadv.
  destruct (in_phase_order_index phase Hin) as [i Hi].
  destruct (Hs i phase Hi) as (entry & He & Hst).
  destruct (advance_manifest_inv now phase m m' entry He Hadv) as [Hprog _].
  rewrite Hst in Hprog. simpl in Hprog. apply expected_in_progress in Hprog. subst i.
  pose proof (lookup_lt_Some _ _ _ Hi) as Hlt. simpl in Hlt. split; [done|].
  destruct (Hs 0 "understand" eq_refl) as (e0 & H0 & S0).
  destruct (Hs 1 "guardrail" eq_refl) as (e1 & H1 & S1).
  destruct (Hs 2 "migrate" eq_refl) as (e2 & H2 & S2).
  destruct (Hs 3 "verify" eq_refl) as (e3 & H3 & S3).
  unfold advance_manifest, verify_in_progress, mark_completed, start_next,
    set_phase_item, and_then in Hadv.
  destruct (phase_order_index k phase Hi) as [[-> ->]|[[-> ->]|[[-> ->]|[-> ->]]]];
    simpl in Hadv; simplify_map_eq;
    intros j q Hj;
    destruct (phase_order_index j q Hj) as [[-> ->]|[[-> ->]|[[-> ->]|[-> ->]]]];
    unfold expected_status in *; simpl in *; simplify_map_eq; eauto.
  all: eexists; (split; [reflexivity|]); by simplify_map_eq.
Qed.

Lemma start_phase_manifest fx now phase w :
  manifest_file (start_phase fx now phase w).2 = manifest_file w
  ∨ status_is phase "pending" w.
Proof.
  rewrite start_phase_run. unfold status_is, get_phase_status.
  destruct (negb (in_phase_order phase)); [by left|].
  unfold bind, load_manifest, _load_manifest_unlocked, read_json, ret.
  destruct (manifest_file w) as [[msg|msg|m]|] eqn:Hm; simpl; try (by left).
  unfold start_manifest, phase_item, status_or_pending.
  destruct (MigrationManifest.phases m !! phase) as [entry|]; simpl; [|by left].
  destruct (entry !! "status") as [st|]; simpl; [|by left].
  destruct (String.eqb st "in_progress"); [by left|].
  destruct (String.eqb_spec st "pending") as [->|]; simpl; [by right|by left].
Qed.

Lemma advance_phase_manifest fx now phase w :
  manifest_file (advance_phase fx now phase w).2 = manifest_file w
  ∨ ∃ m m', manifest_file w = Some (Holds m)
            ∧ in_phase_order phase = true
            ∧ advance_manifest now phase m = Ok m'
            ∧ manifest_file (advance_phase fx now phase w).2 = Some (Holds m').
Proof.
  rewrite advance_phase_run.
  destruct (in_phase_order phase) eqn:Hin; simpl; [|by left].
  destruct (enforce_gate_world phase (next_phase_of phase) w) as (evs & Hw & _).
  destruct (enforce_gate phase (next_phase_of phase) w) as [[[]|e] w1];
    simpl in Hw; subst w1; [|by left].
  rewrite manifest_file_add_events.
  destruct (manifest_file w) as [[msg|msg|m]|] eqn:Hm; simpl; rewrite ?Hm;
    try (by left).
  destruct (advance_manifest now phase m) as [m'|e] eqn:Hadv;
    [|left; simpl; by rewrite Hm].
  destruct (write_fails fx manifest_json); [left; simpl; by rewrite Hm|].
  right. by exists m, m'.
Qed.

Lemma perform_shaped c k w :
  k ≤ 4 → shaped_world k w → in_order c w →
  ∃ k', k ≤ k' ∧ k' ≤ 4 ∧ shaped_world k' (perform c w).
Proof.
  intros Hk (m & Hm & Hs) Hord. destruct c as [fx now phase|fx now phase|f p s d]; simpl.
  - destruct (start_phase_manifest fx now phase w) as [Heq|Hpending]; [|done].
    exists k. split; [done|]. split; [done|]. exists m. by rewrite Heq.
  - destruct (advance_phase_manifest fx now phase w)
      as [Heq|(m0 & m' & Hm0 & Hin & Hadv & Hm')].
    + exists k. split; [done|]. split; [done|]. exists m. by rewrite Heq.
    + rewrite Hm in Hm0. injection Hm0 as <-.
      destruct (advance_manifest_shaped now phase k m m' Hin Hs Hadv) as [Hlt Hs'].
      exists (S k). split; [lia|]. split; [lia|]. by exists m'.
  - exists k. split; [done|]. split; [done|]. by exists m.
Qed.

Lemma perform_all_shaped cs k w :
  k ≤ 4 → shaped_world k w → disciplined cs w →
  ∃ k', k ≤ k' ∧ k' ≤ 4 ∧ shaped_world k' (perform_all cs w).
Proof.
  revert k w. induction cs as [|c cs IH]; intros k w Hk Hs Hd; simpl.
  - by exists k.
  - destruct Hd as [Hc Hd].
    destruct (perform_shaped c k w Hk Hs Hc) as (k1 & Hle & Hk1 & Hs1).
    destruct (IH k1 (perform c w) Hk1 Hs1 Hd) as (k2 & Hle2 & Hk2 & Hs2).
    exists k2. split; [lia|]. done.
Qed.

Lemma disciplined_app cs cs' w :
  disciplined (cs ++ cs') w ↔ disciplined cs w ∧ disciplined cs' (perform_all cs w).
Proof.
  revert w. induction cs as [|c cs IH]; intros w; simpl; [tauto|].
  rewrite IH. tauto.
Qed.

Lemma perform_all_app cs cs' w :
  perform_all (cs ++ cs') w = perform_all cs' (perform_all cs w).
Proof. unfold perform_all. by rewrite foldl_app. Qed.

Lemma shaped_one_in_progress k m :
  k ≤ 4 → shaped k m →
  (∀ p q, p ∈ PHASE_ORDER → q ∈ PHASE_ORDER →
          status_of m p = "in_progress" → status_of m q = "in_progress" → p = q)
  ∧ (∀ p, p ∈ PHASE_ORDER → status_of m p = "in_progress" →
          first_not_completed m = Some p).
Proof.
  intros Hk Hs.
  pose proof (shaped_status k m 0 "understand" Hs eq_refl) as H0.
  pose proof (shaped_status k m 1 "guardrail" Hs eq_refl) as H1.
  pose proof (shaped_status k m 2 "migrate" Hs eq_refl) as H2.
  pose proof (shaped_status k m 3 "verify" Hs eq_refl) as H3.
  assert (∀ p, p ∈ PHASE_ORDER → status_of m p = "in_progress" →
               PHASE_ORDER !! k = Some p) as Hidx.
  { intros p Hp Hst. apply list_elem_of_lookup in Hp as [i Hi].
    rewrite (shaped_status k m i p Hs Hi) in Hst.
    apply expected_in_progress in Hst. by subst. }
  split.
  - intros p q Hp Hq Hsp Hsq.
    pose proof (Hidx p Hp Hsp). pose proof (Hidx q Hq Hsq). congruence.
  - intros p Hp Hsp. pose proof (Hidx p Hp Hsp) as Hi.
    unfold first_not_completed. simpl. rewrite H0, H1, H2, H3.
    destruct k as [|[|[|[|k]]]]; simpl in *; try done.
Qed.

Lemma status_is_shaped k w i p status :
  shaped_world k w → PHASE_ORDER !! i = Some p →
  status_is p status w ↔ status = expected_status k i.
Proof.
  intros (m & Hm & Hs) Hi.
  assert (p ∈ PHASE_ORDER) as Hp by (by eapply list_elem_of_lookup_2).
  pose proof (status_is_intro p m w Hp Hm) as Hst.
  fold (status_of m p) in Hst. rewrite (shaped_status k m i p Hs Hi) in Hst.
  unfold status_is in *. rewrite Hst. split; [by intros [= <-]|by intros ->].
Qed.

Lemma expected_completed k i : expected_status k i = "completed" ↔ i < k.
Proof.
  unfold expected_status. destruct (Nat.ltb_spec i k); [done|].
  destruct (i =? k); split; (done || lia).
Qed.



Lemma moves_forward_refl m : moves_forward m m.
Proof. intros p. by left. Qed.

Lemma moves_forward_trans m1 m2 m3 :
  moves_forward m1 m2 → moves_forward m2 m3 → moves_forward m1 m3.
Proof.
  intros H12 H23 p. destruct (H23 p) as [->|[?|?]]; auto. 
Qed.

Lemma set_status_moves_forward m phase v m' :
  v = "in_progress" ∨ v = "completed" →
  set_phase_item m phase "status" v = Ok m' → moves_forward m m'.
Proof.
  intros Hv Hset p. unfold status_of, status_or_pending.
  destruct (decide (p = phase)) as [->|Hne].
  - apply set_phase_item_same in Hset as (entry & _ & ->). simpl.
    rewrite lookup_insert_eq. simpl. destruct Hv as [->| ->]; auto.
  - left. by rewrite (set_phase_item_other _ _ _ _ _ _ Hset Hne).
Qed.

Lemma set_other_moves_forward m phase key v m' :
  key ≠ "status" →
  set_phase_item m phase key v = Ok m' → moves_forward m m'.
Proof.
  intros Hkey Hset p. left. unfold status_of, status_or_pending.
  destruct (decide (p = phase)) as [->|Hne].
  - apply set_phase_item_same in Hset as (entry & -> & ->). simpl.
    by rewrite lookup_insert_ne.
  - by rewrite (set_phase_item_other _ _ _ _ _ _ Hset Hne).
Qed.

Lemma advance_manifest_moves_forward now phase m m' :
  advance_manifest now phase m = Ok m' → moves_forward m m'.
Proof.
  unfold advance_manifest, mark_completed, start_next, and_then.
  destruct (verify_in_progress m phase); [|done].
  assert (∀ m1, match MigrationManifest.phases m !! phase with
                | Some _ =>
                    match set_phase_item m phase "status" "completed" with
                    | Ok a => set_phase_item a phase "completed_at" now
                    | Raise e => Raise e
                    end
                | None => Ok m
                end = Ok m1 → moves_forward m m1) as Hmark.
  { intros m1. destruct (MigrationManifest.phases m !! phase);
      [|intros [= <-]; apply moves_forward_refl].
    destruct (set_phase_item m phase "status" "completed") as [ma|] eqn:Ha; [|done].
    intros Hb. eapply moves_forward_trans.
    - eapply set_status_moves_forward; [|exact Ha]. by right.
    - eapply set_other_moves_forward; [|exact Hb]. done. }
  destruct (match MigrationManifest.phases m !! phase with Some _ => _ | None => _ end)
    as [m1|]; [|done].
  specialize (Hmark m1 eq_refl).
  destruct (next_phase_of phase) as [next|]; [|by intros [= <-]].
  destruct (set_phase_item m1 next "status" "in_progress") as [mc|] eqn:Hc; [|done].
  intros Hd. eapply moves_forward_trans; [done|].
  eapply moves_forward_trans.
  - eapply set_status_moves_forward; [|exact Hc]. by left.
  - eapply set_other_moves_forward; [|exact Hd]. done.
Qed.

Lemma start_manifest_moves_forward now phase m m' :
  start_manifest now phase m = Ok (Some m') → moves_forward m m'.
Proof.
  unfold start_manifest, and_then.
  destruct (phase_item m phase "status") as [st|]; [|done].
  destruct (String.eqb st "in_progress"); [done|].
  destruct (negb _); [done|].
  destruct (set_phase_item m phase "status" "in_progress") as [m1|] eqn:H1; [|done].
  destruct (set_phase_item m1 phase "started_at" now) as [m2|] eqn:H2; [|done].
  intros [= <-]. eapply moves_forward_trans.
  - eapply set_status_moves_forward; [|exact H1]. by left.
  - eapply set_other_moves_forward; [|exact H2]. done.
Qed.

Lemma start_phase_moves_forward fx now phase w :
  manifest_file (start_phase fx now phase w).2 = manifest_file w
  ∨ ∃ m m', manifest_file w = Some (Holds m)
            ∧ manifest_file (start_phase fx now phase w).2 = Some (Holds m')
            ∧ moves_forward m m'.
Proof.
  rewrite start_phase_run.
  destruct (negb (in_phase_order phase)); [by left|].
  destruct (manifest_file w) as [[msg|msg|m]|] eqn:Hm; simpl; rewrite ?Hm;
    try (by left).
  destruct (start_manifest now phase m) as [[m'|]|e] eqn:Hst;
    [|left; simpl; by rewrite Hm..].
  destruct (write_fails fx manifest_json); [left; simpl; by rewrite Hm|].
  right. exists m, m'. split; [done|]. split; [done|].
  by eapply start_manifest_moves_forward.
Qed.

(** No call sets a status that is not pending back to pending. *)
Lemma perform_keeps_started c w p :
  ¬ status_is p "pending" w → ¬ status_is p "pending" (perform c w).
Proof.
  intros Hnot Hpend.
  assert (manifest_file (perform c w) = manifest_file w
          ∨ ∃ m m', manifest_file w = Some (Holds m)
                    ∧ manifest_file (perform c w) = Some (Holds m')
                    ∧ moves_forward m m') as Hcases.
  { destruct c as [fx now phase|fx now phase|f pl s d]; simpl.
    - apply start_phase_moves_forward.
    - destruct (advance_phase_manifest fx now phase w)
        as [Heq|(m & m' & Hm & _ & Hadv & Hm')]; [by left|].
      right. exists m, m'. split; [done|]. split; [done|].
      by eapply advance_manifest_moves_forward.
    - by left. }
  assert (p ∈ PHASE_ORDER) as Hp.
  { unfold status_is, get_phase_status, in_phase_order in Hpend.
    destruct (decide (p ∈ PHASE_ORDER)); [done|].
    by rewrite bool_decide_eq_false_2 in Hpend. }
  apply status_is_inv in Hpend as (m' & Hm' & Hst).
  destruct Hcases as [Heq|(m & m0 & Hm & Hm0 & Hfwd)].
  - apply Hnot. rewrite Heq in Hm'. rewrite <- Hst. by apply status_is_intro.
  - rewrite Hm' in Hm0. injection Hm0 as <-.
    apply Hnot. pose proof (status_is_intro p m w Hp Hm) as H.
    destruct (Hfwd p) as [Heq|[Heq|Heq]]; fold (status_of m' p) in Hst;
      [|congruence..].
    fold (status_of m p) in H. by rewrite <- Heq, Hst in H.
Qed.

Lemma perform_all_keeps_started cs w p :
  ¬ status_is p "pending" w → ¬ status_is p "pending" (perform_all cs w).
Proof.
  revert w. induction cs as [|c cs IH]; intros w H; simpl; [done|].
  apply IH. by apply perform_keeps_started.
Qed.

(** C2 (amended): in every manifest state reachable from [create_manifest]
    by a sequence of [advance_phase] calls and of [start_phase] calls that are
    not applied to a pending phase (with the artifacts rewritten at will in
    between), at most one phase is in progress and it is the first phase that
    is not completed. *)
Theorem phase_order_invariant w cs :
  created w → disciplined cs w → one_in_progress (perform_all cs w).
Proof.
  intros Hc Hd m Hm.
  destruct (perform_all_shaped cs 0 w ltac:(lia) (created_shaped w Hc) Hd)
    as (k & _ & Hk & m' & Hm' & Hs).
  rewrite Hm in Hm'. injection Hm' as <-.
  by apply (shaped_one_in_progress k).
Qed.

Lemma phase_order_invariant_witness :
  created ready_world
  ∧ disciplined [AdvancePhase no_faults "t1" "understand";
                 StartPhase no_faults "t2" "guardrail";
                 AdvancePhase no_faults "t3" "guardrail"] ready_world
  ∧ one_in_progress
      (perform_all [AdvancePhase no_faults "t1" "understand";
                    StartPhase no_faults "t2" "guardrail";
                    AdvancePhase no_faults "t3" "guardrail"] ready_world).
Proof.
  assert (disciplined [AdvancePhase no_faults "t1" "understand";
                       StartPhase no_faults "t2" "guardrail";
                       AdvancePhase no_faults "t3" "guardrail"] ready_world) as Hd.
  { simpl. split; [done|]. split; [|done]. intros H. vm_compute in H. discriminate. }
  split; [exact created_ready_world|]. split; [exact Hd|].
  exact (phase_order_invariant ready_world _ created_ready_world Hd).
Defined.

Lemma advance_manifest_result now phase m m' :
  advance_manifest now phase m = Ok m' →
  MigrationManifest.checkpoints m' = MigrationManifest.checkpoints m
  ∧ (∀ entry, MigrationManifest.phases m !! phase = Some entry →
       entry !! "status" = Some "in_progress"
       ∧ MigrationManifest.phases m' !! phase
         = Some (<["completed_at" := now]> (<["status" := "completed"]> entry)))
  ∧ (∀ next, next_phase_of phase = Some next →
       ∃ e, MigrationManifest.phases m !! next = Some e
            ∧ MigrationManifest.phases m' !! next
              = Some (<["started_at" := now]> (<["status" := "in_progress"]> e)))
  ∧ (∀ q, q ≠ phase → next_phase_of phase ≠ Some q →
          MigrationManifest.phases m' !! q = MigrationManifest.phases m !! q).
Proof.
  unfold advance_manifest, verify_in_progress, mark_completed, start_next,
    set_phase_item, and_then.
  destruct (MigrationManifest.phases m !! phase) as [entry|] eqn:He; simpl.
  - destruct (entry !! "status") as [st|] eqn:Hst; simpl; [|done].
    destruct (String.eqb_spec st "in_progress") as [->|]; simpl; [|done].
    rewrite lookup_insert_eq. simpl.
    destruct (next_phase_of phase) as [next|] eqn:Hn.
    + pose proof (next_phase_ne _ _ Hn) as Hne.
      rewrite !lookup_insert_ne by done.
      destruct (MigrationManifest.phases m !! next) as [e|] eqn:Hnext; [|done].
      simpl. rewrite lookup_insert_eq. intros [= <-]. simpl.
      split; [done|]. split; [|split].
      * intros ? [= <-]. split; [done|].
        rewrite !lookup_insert_ne by done. rewrite insert_insert_eq.
        by rewrite lookup_insert_eq.
      * intros ? [= <-]. exists e. split; [done|].
        rewrite insert_insert_eq. by rewrite lookup_insert_eq.
      * intros q Hq Hq'. rewrite !lookup_insert_ne; [done|congruence..].
    + intros [= <-]. simpl. split; [done|]. split; [|split]; [|done|].
      * intros ? [= <-]. split; [done|]. rewrite insert_insert_eq.
        by rewrite lookup_insert_eq.
      * intros q Hq _. by rewrite !lookup_insert_ne.
  - destruct (next_phase_of phase) as [next|] eqn:Hn.
    + destruct (MigrationManifest.phases m !! next) as [e|] eqn:Hnext; [|done].
      simpl. rewrite lookup_insert_eq. intros [= <-]. simpl.
      split; [done|]. split; [done|]. split.
      * intros ? [= <-]. exists e. split; [done|].
        rewrite insert_insert_eq. by rewrite lookup_insert_eq.
      * intros q Hq Hq'. rewrite !lookup_insert_ne; [done|congruence..].
    + intros [= <-]. done.
Qed.

Lemma status_is_manifest p status w w' :
  manifest_file w' = manifest_file w → status_is p status w → status_is p status w'.
Proof.
  intros Heq. unfold status_is, get_phase_status.
  destruct (negb (in_phase_order p)); [done|].
  unfold bind, load_manifest, _load_manifest_unlocked, read_json, ret.
  rewrite Heq. by destruct (manifest_file w) as [[msg|msg|m]|].
Qed.

Lemma status_is_phases p status w w' m m' :
  manifest_file w = Some (Holds m) → manifest_file w' = Some (Holds m') →
  MigrationManifest.phases m' !! p = MigrationManifest.phases m !! p →
  status_is p status w → status_is p status w'.
Proof.
  intros Hm Hm' Heq. unfold status_is, get_phase_status.
  destruct (negb (in_phase_order p)); [done|].
  unfold bind, load_manifest, _load_manifest_unlocked, read_json, ret.
  rewrite Hm, Hm'. simpl. unfold status_or_pending. by rewrite Heq.
Qed.

Lemma start_phase_other fx now q w p :
  p ≠ q →
  manifest_file (start_phase fx now q w).2 = manifest_file w
  ∨ ∃ m m', manifest_file w = Some (Holds m)
            ∧ manifest_file (start_phase fx now q w).2 = Some (Holds m')
            ∧ MigrationManifest.phases m' !! p = MigrationManifest.phases m !! p.
Proof.
  intros Hne. rewrite start_phase_run.
  destruct (negb (in_phase_order q)); [by left|].
  destruct (manifest_file w) as [[msg|msg|m]|] eqn:Hm; simpl; rewrite ?Hm;
    try (by left).
  destruct (start_manifest now q m) as [[m'|]|e] eqn:Hst;
    [|left; simpl; by rewrite Hm..].
  destruct (write_fails fx manifest_json); [left; simpl; by rewrite Hm|].
  right. exists m, m'. split; [done|]. split; [done|].
  revert Hst. unfold start_manifest, and_then.
  destruct (phase_item m q "status") as [st|]; [|done].
  destruct (String.eqb st "in_progress"); [done|].
  destruct (negb _); [done|].
  destruct (set_phase_item m q "status" "in_progress") as [m1|] eqn:H1; [|done].
  destruct (set_phase_item m1 q "started_at" now) as [m2|] eqn:H2; [|done].
  intros [= <-].
  rewrite (set_phase_item_other _ _ _ _ _ _ H2 Hne).
  by rewrite (set_phase_item_other _ _ _ _ _ _ H1 Hne).
Qed.

Lemma advance_phase_saved fx now phase w :
  manifest_file (advance_phase fx now phase w).2 = manifest_file w
  ∨ (returns (advance_phase fx now phase w).1
     ∧ ∃ m m', manifest_file w = Some (Holds m)
               ∧ advance_manifest now phase m = Ok m'
               ∧ manifest_file (advance_phase fx now phase w).2 = Some (Holds m')).
Proof.
  rewrite advance_phase_run.
  destruct (in_phase_order phase) eqn:Hin; simpl; [|by left].
  destruct (enforce_gate_world phase (next_phase_of phase) w) as (evs & Hw & _).
  destruct (enforce_gate phase (next_phase_of phase) w) as [[[]|e] w1];
    simpl in Hw; subst w1; [|by left].
  rewrite manifest_file_add_events.
  destruct (manifest_file w) as [[msg|msg|m]|] eqn:Hm; simpl; rewrite ?Hm;
    try (by left).
  destruct (advance_manifest now phase m) as [m'|e] eqn:Hadv;
    [|left; simpl; by rewrite Hm].
  destruct (write_fails fx manifest_json); [left; simpl; by rewrite Hm|].
  right. split; [by eexists|]. by exists m, m'.
Qed.

Lemma completed_entry p w m :
  status_is p "completed" w → manifest_file w = Some (Holds m) →
  ∃ entry, MigrationManifest.phases m !! p = Some entry
           ∧ entry !! "status" = Some "completed".
Proof.
  intros (m' & Hm' & Hst)%status_is_inv Hm. rewrite Hm in Hm'. injection Hm' as <-.
  unfold status_or_pending in Hst.
  destruct (MigrationManifest.phases m !! p) as [entry|]; simpl in Hst; [|done].
  exists entry. split; [done|].
  destruct (entry !! "status") as [st|]; simpl in Hst; [by subst|done].
Qed.

(** A completed phase is left completed by every call that does not restart
    it. *)
Lemma perform_keeps_completed c w p :
  status_is p "completed" w → ¬ restarts c w p →
  status_is p "completed" (perform c w).
Proof.
  intros Hdone Hspared. destruct c as [fx now q|fx now q|f pl s d]; simpl.
  - destruct (decide (p = q)) as [<-|Hne].
    + destruct (start_phase_manifest fx now p w) as [Heq|Hpending].
      * by apply (status_is_manifest _ _ w).
      * unfold status_is in *. congruence.
    + destruct (start_phase_other fx now q w p Hne) as [Heq|(m & m' & Hm & Hm' & Heq)].
      * by apply (status_is_manifest _ _ w).
      * by apply (status_is_phases _ _ w _ m m').
  - destruct (advance_phase_saved fx now q w)
      as [Heq|(Hret & m & m' & Hm & Hadv & Hm')].
    { by apply (status_is_manifest _ _ w). }
    destruct (advance_manifest_result _ _ _ _ Hadv) as (_ & Hq & _ & Hother).
    apply (status_is_phases _ _ w _ m m'); [done..| |done].
    apply Hother.
    + intros ->. destruct (completed_entry _ _ _ Hdone Hm) as (entry & He & Hst).
      destruct (Hq entry He) as [Hst' _]. congruence.
    + intros Hnext. apply Hspared. by split.
  - by apply (status_is_manifest _ _ w).
Qed.

Lemma perform_all_keeps_completed cs w p :
  status_is p "completed" w → spares p cs w →
  status_is p "completed" (perform_all cs w).
Proof.
  revert w. induction cs as [|c cs IH]; intros w Hdone Hsp; simpl; [done|].
  destruct Hsp as [Hc Hsp]. apply IH; [|done]. by apply perform_keeps_completed.
Qed.

Lemma advance_phase_returns fx now phase w :
  returns (advance_phase fx now phase w).1 →
  ∃ m m', manifest_file w = Some (Holds m)
          ∧ advance_manifest now phase m = Ok m'
          ∧ manifest_file (advance_phase fx now phase w).2 = Some (Holds m').
Proof.
  rewrite advance_phase_run.
  destruct (negb (in_phase_order phase)); [by intros [? [=]]|].
  destruct (enforce_gate_world phase (next_phase_of phase) w) as (evs & Hw & _).
  destruct (enforce_gate phase (next_phase_of phase) w) as [[[]|e] w1];
    simpl in Hw; subst w1; [|by intros [? [=]]].
  rewrite manifest_file_add_events.
  destruct (manifest_file w) as [[msg|msg|m]|] eqn:Hm; simpl;
    try (by intros [? [=]]).
  destruct (advance_manifest now phase m) as [m'|e] eqn:Hadv; [|by intros [? [=]]].
  destruct (write_fails fx manifest_json); simpl; [by intros [? [=]]|].
  intros _. by exists m, m'.
Qed.

Lemma next_phase_known phase next : next_phase_of phase = Some next → next ∈ PHASE_ORDER.
Proof.
  unfold next_phase_of. destruct (index_of phase PHASE_ORDER) as [i|]; [|done].
  apply list_elem_of_lookup_2.
Qed.

(** A call that restarts a phase leaves it in progress. *)
Lemma restarts_in_progress c w p :
  restarts c w p → status_is p "in_progress" (perform c w).
Proof.
  destruct c as [fx now q|fx now q|f pl s d]; simpl; [done| |done].
  intros [Hnext (m & m' & Hm & Hadv & Hm')%advance_phase_returns].
  destruct (advance_manifest_result _ _ _ _ Hadv) as (_ & _ & Hn & _).
  destruct (Hn p Hnext) as (e & He & He').
  pose proof (status_is_intro p m' (advance_phase fx now q w).2
                (next_phase_known _ _ Hnext) Hm') as H.
  unfold status_or_pending in H. rewrite He' in H. simpl in H.
  by rewrite lookup_insert_ne, lookup_insert_eq in H.
Qed.

Lemma understand_has_no_predecessor q : next_phase_of q ≠ Some "understand".
Proof.
  unfold next_phase_of, PHASE_ORDER; simpl.
  repeat (case_decide; [subst; simpl; done|]). done.
Qed.

Lemma spares_understand cs w : spares "understand" cs w.
Proof.
  revert w. induction cs as [|c cs IH]; intros w; simpl; [done|].
  split; [|apply IH]. destruct c; simpl; try tauto.
  intros [Hnext _]. by apply understand_has_no_predecessor in Hnext.
Qed.

(** C3 (amended): once a phase is completed, no later call of any sequence
    sets it back to pending, and it stays completed through every call but
    an [advance_phase] of its predecessor that returns, which leaves it in
    progress.  So understand, which has no predecessor, stays completed in
    every sequence, and every phase does in a sequence in which [start_phase]
    is not applied to a pending phase. *)
Theorem completed_is_final w cs cs' p :
  created w → p ∈ PHASE_ORDER →
  status_is p "completed" (perform_all cs w) →
  ¬ status_is p "pending" (perform_all cs' (perform_all cs w))
  ∧ (spares p cs' (perform_all cs w) →
     status_is p "completed" (perform_all cs' (perform_all cs w)))
  ∧ (∀ c, restarts c (perform_all cs' (perform_all cs w)) p →
          status_is p "in_progress" (perform c (perform_all cs' (perform_all cs w))))
  ∧ (p = "understand" →
     status_is p "completed" (perform_all cs' (perform_all cs w)))
  ∧ (disciplined (cs ++ cs') w →
     status_is p "completed" (perform_all cs' (perform_all cs w))).
Proof.
  intros Hc Hp Hdone. split.
  { apply perform_all_keeps_started. unfold status_is in *. rewrite Hdone. done. }
  split; [by apply perform_all_keeps_completed|].
  split; [intros c; apply restarts_in_progress|].
  split.
  { intros ->. apply perform_all_keeps_completed; [done|apply spares_understand]. }
  intros Hd. apply disciplined_app in Hd as [Hd Hd'].
  apply list_elem_of_lookup in Hp as [i Hi].
  destruct (perform_all_shaped cs 0 w ltac:(lia) (created_shaped w Hc) Hd)
    as (k1 & _ & Hk1 & Hs1).
  destruct (perform_all_shaped cs' k1 _ Hk1 Hs1 Hd') as (k2 & Hle & Hk2 & Hs2).
  apply (status_is_shaped k1 _ i p _ Hs1 Hi) in Hdone. symmetry in Hdone.
  apply expected_completed in Hdone.
  apply (status_is_shaped k2 _ i p _ Hs2 Hi). symmetry. apply expected_completed. lia.
Qed.

(** A sequence that is not disciplined, through which understand stays
    completed. *)
Lemma completed_is_final_witness :
  created ready_world
  ∧ "understand" ∈ PHASE_ORDER
  ∧ status_is "understand" "completed"
      (perform_all [StartPhase no_faults "t0" "verify";
                    AdvancePhase no_faults "t1" "understand"] ready_world)
  ∧ ¬ disciplined [StartPhase no_faults "t0" "verify";
                   AdvancePhase no_faults "t1" "understand";
                   StartPhase no_faults "t2" "migrate";
                   AdvancePhase no_faults "t3" "migrate"] ready_world
  ∧ status_is "understand" "completed"
      (perform_all [StartPhase no_faults "t2" "migrate";
                    AdvancePhase no_faults "t3" "migrate"]
         (perform_all [StartPhase no_faults "t0" "verify";
                       AdvancePhase no_faults "t1" "understand"] ready_world)).
Proof.
  assert ("understand" ∈ PHASE_ORDER) as Hp by (apply list_elem_of_here).
  assert (status_is "understand" "completed"
            (perform_all [StartPhase no_faults "t0" "verify";
                          AdvancePhase no_faults "t1" "understand"] ready_world))
    as Hdone by (vm_compute; reflexivity).
  split; [exact created_ready_world|]. split; [exact Hp|]. split; [exact Hdone|].
  split.
  { simpl. intros [H _]. apply H. vm_compute. reflexivity. }
  exact (proj1 (proj2 (proj2 (proj2
           (completed_is_final ready_world _
              [StartPhase no_faults "t2" "migrate"; AdvancePhase no_faults "t3" "migrate"]
              "understand" created_ready_world Hp Hdone)))) eq_refl).
Defined.

(** ** The checkpoint manager *)

(** C6 as stated fails: the deletion of the tag is best effort.  When
    [git tag -d] exits non-zero the failure is logged, the error of the
    manifest update is re-raised and the tag stays. *)
Lemma compensation_claim_fails :
  step_id_matches "s1" = true
  ∧ returns (git save_and_delete_fail ["tag"; tag_of "s1"] fresh_world).1
  ∧ raises (record_checkpoint save_and_delete_fail (tag_of "s1")
              (git save_and_delete_fail ["tag"; tag_of "s1"] fresh_world).2).1
  ∧ repo_tags (create_checkpoint save_and_delete_fail "t1" "s1" fresh_world).2
      !! tag_of "s1" = Some "c0"
  ∧ ¬ compensation_claim.
Proof.
  assert (returns (git save_and_delete_fail ["tag"; tag_of "s1"] fresh_world).1) as Htag.
  { eexists. vm_compute. reflexivity. }
  assert (raises (record_checkpoint save_and_delete_fail (tag_of "s1")
                    (git save_and_delete_fail ["tag"; tag_of "s1"] fresh_world).2).1)
    as Hrec.
  { eexists. vm_compute. reflexivity. }
  split; [reflexivity|]. split; [exact Htag|]. split; [exact Hrec|].
  split; [vm_compute; reflexivity|].
  intros H.
  destruct (H save_and_delete_fail "t1" "s1" fresh_world eq_refl Htag Hrec)
    as (_ & Hgone & _).
  vm_compute in Hgone. discriminate.
Qed.

Lemma git_tag_ok fx name w :
  returns (git fx ["tag"; name] w).1 →
  git_fails fx ["tag"; name] = false ∧ repo_tags w !! name = None
  ∧ git fx ["tag"; name] w
    = (Ok tt, put_repo (<[name := repo_head w]> (repo_tags w)) (repo_head w)
                (record_event (Git ["tag"; name]) w)).
Proof.
  unfold git, returns.
  destruct (git_fails fx ["tag"; name]); simpl; [by intros [? [=]]|].
  destruct (repo_tags w !! name); simpl; [by intros [? [=]]|]. done.
Qed.

Lemma git_tag_raise fx name w e :
  (git fx ["tag"; name] w).1 = Raise e →
  exn_cls e = CalledProcessError
  ∧ (git fx ["tag"; name] w).2 = record_event (Git ["tag"; name]) w.
Proof.
  unfold git.
  destruct (git_fails fx ["tag"; name]); simpl; [by intros [= <-]|].
  destruct (repo_tags w !! name); simpl; [by intros [= <-]|done].
Qed.

(** [record_checkpoint] either saves the manifest with the tag appended, or
    raises and leaves everything but the trace as it was. *)
Lemma record_checkpoint_run fx tag_name w :
  (∃ e evs, record_checkpoint fx tag_name w = (Raise e, add_events evs w))
  ∨ (∃ m, manifest_file w = Some (Holds m)
          ∧ write_fails fx manifest_json = false
          ∧ record_checkpoint fx tag_name w
            = (Ok tt,
               put_manifest
                 (MigrationManifest.with_checkpoints m
                    (MigrationManifest.checkpoints m ++ [tag_name]))
                 (add_events [Read manifest_json; Write manifest_json] w))).
Proof.
  unfold record_checkpoint, bind, _load_manifest_unlocked, read_json,
    _save_manifest_unlocked, _atomic_write.
  destruct (manifest_file w) as [[msg|msg|m]|] eqn:Hm;
    try (left; eexists _, [Read manifest_json]; reflexivity).
  simpl. rewrite !record_event_add, add_events_app. simpl.
  destruct (write_fails fx manifest_json) eqn:Hw.
  - left. eexists _, [Read manifest_json; Write manifest_json]. reflexivity.
  - right. exists m. done.
Qed.

Lemma delete_orphaned_tag_run fx tag_name w :
  (delete_orphaned_tag fx tag_name w).1 = Ok tt
  ∧ manifest_file (delete_orphaned_tag fx tag_name w).2 = manifest_file w
  ∧ checkpoint_files (delete_orphaned_tag fx tag_name w).2 = checkpoint_files w
  ∧ (repo_tags (delete_orphaned_tag fx tag_name w).2 = repo_tags w
     ∨ (git_fails fx ["tag"; "-d"; tag_name] = false
        ∧ repo_tags (delete_orphaned_tag fx tag_name w).2
          = delete tag_name (repo_tags w))).
Proof.
  unfold delete_orphaned_tag, try_except, git.
  destruct (git_fails fx ["tag"; "-d"; tag_name]); simpl; [repeat split; auto|].
  destruct (repo_tags w !! tag_name); simpl; repeat split; auto.
Qed.

Lemma caught_by_exception e : caught_by [Exception] e = true.
Proof. unfold caught_by. simpl. by destruct (exn_cls e). Qed.

(** [create_checkpoint] once the tag is created. *)
Lemma create_checkpoint_tagged fx now step_id w w1 :
  step_id_matches step_id = true →
  git fx ["tag"; tag_of step_id] w = (Ok tt, w1) →
  create_checkpoint fx now step_id w =
    match record_checkpoint fx (tag_of step_id) w1 with
    | (Raise e, w2) => (Raise e, (delete_orphaned_tag fx (tag_of step_id) w2).2)
    | (Ok _, w2) =>
        let w3 := record_event (Write (checkpoint_json step_id)) w2 in
        if write_fails fx (checkpoint_json step_id)
        then (Raise (Exn OSError "write failed"), w3)
        else (Ok (tag_of step_id),
              put_checkpoint_file step_id
                (checkpoint_meta step_id (tag_of step_id) now) w3)
    end.
Proof.
  intros Hvalid Hgit. unfold create_checkpoint, _validate_step_id.
  rewrite Hvalid. simpl. unfold bind at 1, ret at 1.
  unfold bind at 1, try_except at 1. rewrite Hgit.
  unfold bind at 1, try_except at 1.
  destruct (record_checkpoint fx (tag_of step_id) w1) as [[[]|e] w2].
  - unfold bind, _atomic_write, ret.
    by destruct (write_fails fx (checkpoint_json step_id)).
  - unfold dispatch. rewrite caught_by_exception. unfold bind, raise.
    pose proof (delete_orphaned_tag_run fx (tag_of step_id) w2) as [Hok _].
    destruct (delete_orphaned_tag fx (tag_of step_id) w2) as [r w3].
    simpl in Hok. by subst r.
Qed.

(** [create_checkpoint] when the tag cannot be created: nothing but the
    trace changes. *)
Lemma create_checkpoint_untagged fx now step_id w :
  ¬ returns (git fx ["tag"; tag_of step_id] w).1 →
  ∃ e evs, create_checkpoint fx now step_id w = (Raise e, add_events evs w).
Proof.
  intros Hgit. unfold create_checkpoint, _validate_step_id.
  destruct (step_id_matches step_id); simpl.
  2:{ unfold bind, raise. simpl. eexists _, []. by rewrite add_events_nil. }
  unfold bind at 1, ret at 1. unfold bind at 1, try_except at 1.
  destruct (git fx ["tag"; tag_of step_id] w) as [[[]|e] w1] eqn:Hrun.
  { exfalso. apply Hgit. by eexists. }
  destruct (git_tag_raise fx (tag_of step_id) w e) as [Hcls Hw].
  { by rewrite Hrun. }
  rewrite Hrun in Hw. simpl in Hw. subst w1.
  unfold dispatch, caught_by. rewrite Hcls. simpl. unfold raise.
  by eexists _, [Git ["tag"; tag_of step_id]].
Qed.

(** C6 (amended): for a valid step_id, when the tag creation succeeds and the
    manifest load or save fails, [create_checkpoint] raises that error, the
    persisted manifest and the metadata files are unchanged, the tag is
    deleted whenever the deletion command does not fail, and the manifest's
    checkpoint list does not contain the tag (every checkpoint it lists
    being an existing tag beforehand). *)
Theorem checkpoint_compensation fx now step_id w :
  step_id_matches step_id = true →
  returns (git fx ["tag"; tag_of step_id] w).1 →
  raises (record_checkpoint fx (tag_of step_id)
            (git fx ["tag"; tag_of step_id] w).2).1 →
  (∃ e, (record_checkpoint fx (tag_of step_id)
           (git fx ["tag"; tag_of step_id] w).2).1 = Raise e
        ∧ (create_checkpoint fx now step_id w).1 = Raise e)
  ∧ manifest_file (create_checkpoint fx now step_id w).2 = manifest_file w
  ∧ checkpoint_files (create_checkpoint fx now step_id w).2 = checkpoint_files w
  ∧ (git_fails fx ["tag"; "-d"; tag_of step_id] = false →
     repo_tags (create_checkpoint fx now step_id w).2 = repo_tags w
     ∧ repo_tags (create_checkpoint fx now step_id w).2 !! tag_of step_id = None)
  ∧ ((∀ m t, manifest_file w = Some (Holds m) →
             t ∈ MigrationManifest.checkpoints m → is_Some (repo_tags w !! t)) →
     ∀ m, manifest_file (create_checkpoint fx now step_id w).2 = Some (Holds m) →
          tag_of step_id ∉ MigrationManifest.checkpoints m).
Proof.
  intros Hvalid Htag Hrec.
  destruct (git_tag_ok fx (tag_of step_id) w Htag) as (Hnofault & Hfree & Hgit).
  rewrite Hgit in Hrec. simpl in Hrec.
  rewrite (create_checkpoint_tagged fx now step_id w _ Hvalid Hgit). rewrite Hgit. simpl.
  set (w1 := put_repo _ _ _) in *.
  destruct (record_checkpoint_run fx (tag_of step_id) w1)
    as [(e & evs & Hrun)|(m & _ & _ & Hrun)]; rewrite Hrun in *; simpl in *;
    [|by destruct Hrec].
  pose proof (delete_orphaned_tag_run fx (tag_of step_id) (add_events evs w1))
    as (_ & Hmf & Hcf & Htags).
  split; [by exists e|]. split; [by rewrite Hmf|]. split; [by rewrite Hcf|].
  assert (manifest_file (delete_orphaned_tag fx (tag_of step_id) (add_events evs w1)).2
          = manifest_file w) as Hm by (by rewrite Hmf).
  split.
  - intros Hdel. unfold delete_orphaned_tag, try_except, git. rewrite Hdel. simpl.
    rewrite lookup_insert_eq. simpl. rewrite delete_insert_eq.
    rewrite delete_id by done. done.
  - intros Hinv m. rewrite Hm. intros Hfile Hin.
    destruct (Hinv m _ Hfile Hin) as [c Hc]. congruence.
Qed.

Lemma append_cons c s t : String c s +:+ t = String c (s +:+ t).
Proof. reflexivity. Qed.




















Lemma checkpoint_compensation_witness :
  step_id_matches "s1" = true
  ∧ returns (git save_fails ["tag"; tag_of "s1"] fresh_world).1
  ∧ raises (record_checkpoint save_fails (tag_of "s1")
              (git save_fails ["tag"; tag_of "s1"] fresh_world).2).1
  ∧ manifest_file (create_checkpoint save_fails "t1" "s1" fresh_world).2
    = manifest_file fresh_world
  ∧ repo_tags (create_checkpoint save_fails "t1" "s1" fresh_world).2 !! tag_of "s1"
    = None.
Proof.
  assert (returns (git save_fails ["tag"; tag_of "s1"] fresh_world).1) as Htag.
  { eexists. vm_compute. reflexivity. }
  assert (raises (record_checkpoint save_fails (tag_of "s1")
                    (git save_fails ["tag"; tag_of "s1"] fresh_world).2).1) as Hrec.
  { eexists. vm_compute. reflexivity. }
  split; [reflexivity|]. split; [exact Htag|]. split; [exact Hrec|].
  destruct (checkpoint_compensation save_fails "t1" "s1" fresh_world eq_refl Htag Hrec)
    as (_ & Hm & _ & Hdel & _).
  split; [exact Hm|]. by destruct (Hdel eq_refl).
Defined.


(** * The manifest as a document: properties *)

(** ** advance_phase on documents *)

Lemma document_advance_phase_run fx now phase s :
  Document.advance_phase fx now phase s =
    if negb (in_phase_order phase)
    then (Raise (Exn ValueError ("Unknown phase: " +:+ phase)), s)
    else
      match enforce_gate phase (next_phase_of phase) (Document.others s) with
      | (Raise e, w1) => (Raise e, Document.State (Document.document s) w1)
      | (Ok _, w1) =>
          let s2 := Document.log (Read manifest_json)
                      (Document.State (Document.document s) w1) in
          match Document.document s with
          | None => (Raise (Exn FileNotFoundError "No such file or directory"), s2)
          | Some (Unreadable msg) => (Raise (Exn OSError msg), s2)
          | Some (Garbled msg) => (Raise (Exn JSONDecodeError msg), s2)
          | Some (Holds data) =>
              match advance_document now phase data with
              | Raise e => (Raise e, s2)
              | Ok manifest =>
                  let s3 := Document.log (Write manifest_json) s2 in
                  if write_fails fx manifest_json
                  then (Raise (Exn OSError "write failed"), s3)
                  else (Ok {| PhaseResult.phase := phase;
                              PhaseResult.status := "completed";
                              PhaseResult.artifacts := [];
                              PhaseResult.started_at := "";
                              PhaseResult.completed_at := now;
                              PhaseResult.error := "" |},
                        Document.State
                          (Some (Holds (Document.MigrationManifest.asdict manifest)))
                          (Document.others s3))
              end
          end
      end.
Proof.
  unfold Document.advance_phase. destruct (negb (in_phase_order phase)); [done|].
  unfold Document.bind at 1, Document.on_others.
  destruct (enforce_gate phase (next_phase_of phase) (Document.others s))
    as [[[]|e] w1]; [|done].
  unfold Document.bind at 1, Document._load_manifest_unlocked.
  unfold Document.bind at 1, Document.read_document. cbn [Document.document].
  destruct (Document.document s) as [[msg|msg|data]|]; try done.
  unfold advance_document, Document.bind at 1, Document.lift.
  destruct (py_items data) as [items|e]; [|done].
  cbn [and_then]. unfold Document.bind at 1, Document.ret.
  unfold Document.bind at 1.
  destruct (Document.verify_in_progress _ phase) as [[]|e]; [|done].
  cbn [and_then]. unfold Document.bind at 1.
  destruct (Document.mark_completed _ phase now) as [m1|e]; [|done].
  cbn [and_then]. unfold Document.bind at 1.
  destruct (Document.start_next m1 (next_phase_of phase) now) as [m2|e]; [|done].
  unfold Document.bind, Document._save_manifest_unlocked.
  by destruct (write_fails fx manifest_json).
Qed.

Lemma document_advance_phase_raise_frame fx now phase s :
  raises (Document.advance_phase fx now phase s).1 →
  Document.document (Document.advance_phase fx now phase s).2 = Document.document s.
Proof.
  rewrite document_advance_phase_run.
  destruct (negb (in_phase_order phase)); [done|].
  destruct (enforce_gate phase (next_phase_of phase) (Document.others s))
    as [[[]|e] w1]; [|done].
  destruct (Document.document s) as [[msg|msg|data]|]; try done.
  destruct (advance_document now phase data) as [m|e]; [|done].
  destruct (write_fails fx manifest_json); [done|]. by intros [? [=]].
Qed.

Lemma assoc_keep_fields {A} (k : string) names (d : list (string * A)) :
  k ∈ names → assoc k (keep_fields names d) = assoc k d.
Proof.
  intros Hk. unfold keep_fields. induction d as [|[k' v] d IH]; [done|].
  rewrite filter_cons. simpl. destruct (decide (k = k')) as [<-|Hne].
  - rewrite decide_True by (by apply bool_decide_pack). simpl.
    by rewrite decide_True.
  - case_decide; [|done]. simpl. by rewrite decide_False.
Qed.

Lemma loaded_phases d :
  Document.MigrationManifest.phases
    (Document.MigrationManifest.init
       (keep_fields Document.MigrationManifest.field_names d))
  = dict_get "phases" (JObj []) d.
Proof.
  cbn [Document.MigrationManifest.init Document.MigrationManifest.phases].
  unfold dict_get. rewrite assoc_keep_fields; [done|].
  unfold Document.MigrationManifest.field_names. by repeat constructor.
Qed.

Lemma asdict_phases m d :
  Document.MigrationManifest.asdict m = JObj d →
  dict_get "phases" (JObj []) d = Document.MigrationManifest.phases m.
Proof. by intros [= <-]. Qed.

Lemma assoc_set_same {A} k (v : A) d : assoc k (assoc_set k v d) = Some v.
Proof.
  induction d as [|[k' v'] d IH]; simpl; [by rewrite decide_True|].
  destruct (decide (k = k')) as [->|Hne]; simpl.
  - by rewrite decide_True.
  - by rewrite decide_False.
Qed.

Lemma assoc_set_other {A} k k' (v : A) d :
  k' ≠ k → assoc k' (assoc_set k v d) = assoc k' d.
Proof.
  intros Hne. induction d as [|[k0 v0] d IH]; simpl; [by rewrite decide_False|].
  destruct (decide (k = k0)) as [->|Hk]; simpl.
  - by rewrite !decide_False.
  - destruct (decide (k' = k0)); [done|]. apply IH.
Qed.

Lemma py_setitem2_object ps k1 k2 x :
  py_setitem2 (JObj ps) k1 k2 x =
    match assoc k1 ps with
    | None => Raise (Exn KeyError (repr_str k1))
    | Some (JObj fields) =>
        Ok (JObj (assoc_set k1 (JObj (assoc_set k2 x fields)) ps))
    | Some item => and_then (py_setitem item k2 x) (λ _, Ok JNull)
    end.
Proof.
  unfold py_setitem2. cbn [py_getitem].
  destruct (assoc k1 ps) as [item|]; [|done]. cbn [and_then].
  by destruct item.
Qed.

Lemma py_setitem_object item k x :
  returns (py_setitem item k x) ↔ ∃ fields, item = JObj fields.
Proof.
  destruct item; simpl; split; try (by intros [? [=]]); eauto.
  all: by eexists.
Qed.

(** What [advance_phase] saves from a document whose phases are an object
    holding the phase. *)
Lemma advance_document_object now phase d ps entry :
  dict_get "phases" (JObj []) d = JObj ps →
  assoc phase ps = Some entry →
  match advance_document now phase (JObj d) with
  | Ok manifest =>
      (∃ fields, entry = JObj fields
                 ∧ dict_get "status" (JStr "pending") fields = JStr "in_progress")
      ∧ (∀ next, next_phase_of phase = Some next →
                 ∃ fields, assoc next ps = Some (JObj fields))
      ∧ ∃ ps' fields',
          Document.MigrationManifest.phases manifest = JObj ps'
          ∧ assoc phase ps' = Some (JObj fields')
          ∧ assoc "status" fields' = Some (JStr "completed")
  | Raise _ =>
      ¬ ((∃ fields, entry = JObj fields
                    ∧ dict_get "status" (JStr "pending") fields = JStr "in_progress")
         ∧ (∀ next, next_phase_of phase = Some next →
                    ∃ fields, assoc next ps = Some (JObj fields)))
  end.
Proof.
  intros Hps Hentry. unfold advance_document. cbn [py_items and_then].
  unfold Document.verify_in_progress, Document.mark_completed.
  rewrite loaded_phases, Hps. cbn [py_contains and_then py_getitem].
  rewrite Hentry. rewrite bool_decide_eq_true_2 by eauto. cbn [and_then].
  destruct entry as [| | | | |fields];
    try (cbn [py_get and_then]; intros [(? & [=] & _) _]).
  cbn [py_get and_then].
  destruct (eq_str (dict_get "status" (JStr "pending") fields) "in_progress") eqn:Hst;
    cbn [negb and_then].
  2:{ intros [(f & [= <-] & Hf) _]. by rewrite Hf in Hst. }
  assert (dict_get "status" (JStr "pending") fields = JStr "in_progress") as Hstatus.
  { destruct (dict_get "status" (JStr "pending") fields); try done.
    simpl in Hst. by apply String.eqb_eq in Hst as ->. }
  rewrite py_setitem2_object, Hentry. cbn [and_then].
  rewrite py_setitem2_object, assoc_set_same. cbn [and_then].
  set (fields' := assoc_set "completed_at" (JStr now)
                    (assoc_set "status" (JStr "completed") fields)).
  set (ps1 := assoc_set phase (JObj fields')
                (assoc_set phase (JObj (assoc_set "status" (JStr "completed") fields)) ps)).
  assert (assoc phase ps1 = Some (JObj fields')) as Hphase1
    by apply assoc_set_same.
  assert (assoc "status" fields' = Some (JStr "completed")) as Hdone.
  { unfold fields'. rewrite assoc_set_other by done. apply assoc_set_same. }
  assert (∀ q, q ≠ phase → assoc q ps1 = assoc q ps) as Hother1.
  { intros q Hq. unfold ps1. by rewrite !assoc_set_other. }
  unfold Document.start_next.
  destruct (next_phase_of phase) as [next|] eqn:Hn;
    cbn [Document.MigrationManifest.with_phases Document.MigrationManifest.phases].
  2:{ split; [eauto|]. split; [done|]. by exists ps1, fields'. }
  pose proof (next_phase_ne _ _ Hn) as Hne.
  rewrite py_setitem2_object, (Hother1 next Hne).
  destruct (assoc next ps) as [nentry|] eqn:Hnentry.
  2:{ intros [_ H]. destruct (H next eq_refl) as [? Hx]. congruence. }
  destruct nentry as [| | | | |nfields];
    try (cbn [py_setitem and_then]; intros [_ H];
         destruct (H next eq_refl) as [? Hx]; congruence).
  cbn [and_then]. rewrite py_setitem2_object, assoc_set_same. cbn [and_then].
  cbn [Document.MigrationManifest.with_phases Document.MigrationManifest.phases].
  split; [eauto|]. split; [intros ? [= <-]; eauto|].
  eexists _, fields'. split; [done|]. split; [|done].
  rewrite !assoc_set_other by done. done.
Qed.

(** When the status check is skipped, [advance_phase] comes through only if
    the entry of the successor is an object. *)
Lemma advance_document_unchecked now phase d manifest :
  py_contains phase (dict_get "phases" (JObj []) d) = Ok false →
  advance_document now phase (JObj d) = Ok manifest →
  ∀ next, next_phase_of phase = Some next →
          ∃ ps fields, dict_get "phases" (JObj []) d = JObj ps
                       ∧ assoc next ps = Some (JObj fields).
Proof.
  intros Hc. unfold advance_document. cbn [py_items and_then].
  unfold Document.verify_in_progress, Document.mark_completed.
  rewrite loaded_phases, Hc. cbn [and_then].
  unfold Document.start_next. intros Hadv next Hnext. rewrite Hnext in Hadv.
  rewrite loaded_phases in Hadv.
  destruct (dict_get "phases" (JObj []) d) as [| | | | |ps];
    try (unfold py_setitem2 in Hadv; cbn [py_getitem and_then] in Hadv; done).
  rewrite py_setitem2_object in Hadv.
  destruct (assoc next ps) as [[| | | | |fields]|] eqn:Hn;
    cbn [py_setitem and_then] in Hadv; try done. eauto.
Qed.

(** When the status check is not skipped and [advance_phase] comes through,
    the phases are an object holding the phase. *)
Lemma advance_document_checked now phase d manifest :
  py_contains phase (dict_get "phases" (JObj []) d) ≠ Ok false →
  advance_document now phase (JObj d) = Ok manifest →
  ∃ ps entry, dict_get "phases" (JObj []) d = JObj ps ∧ assoc phase ps = Some entry.
Proof.
  intros Hc. unfold advance_document. cbn [py_items and_then].
  unfold Document.verify_in_progress.
  rewrite loaded_phases.
  destruct (py_contains phase (dict_get "phases" (JObj []) d)) as [[]|e] eqn:Hp;
    [|done..].
  cbn [and_then].
  destruct (dict_get "phases" (JObj []) d) as [| | | | |ps];
    cbn [py_getitem and_then]; try done.
  destruct (assoc phase ps) as [entry|] eqn:He; [eauto|done].
Qed.

Lemma document_status_loaded phase status s :
  document_status_is phase status s →
  ∃ data, Document.document s = Some (Holds data).
Proof.
  unfold document_status_is, Document.get_phase_status.
  destruct (negb (in_phase_order phase)); [done|].
  unfold Document.bind at 1, Document.load_manifest, Document._load_manifest_unlocked.
  unfold Document.bind at 1, Document.read_document.
  destruct (Document.document s) as [[msg|msg|data]|]; try done. eauto.
Qed.

Lemma document_status_object phase status s d ps entry :
  phase ∈ PHASE_ORDER →
  Document.document s = Some (Holds (JObj d)) →
  dict_get "phases" (JObj []) d = JObj ps →
  assoc phase ps = Some entry →
  document_status_is phase status s
  ↔ ∃ fields, entry = JObj fields
              ∧ dict_get "status" (JStr "pending") fields = JStr status.
Proof.
  intros Hin Hdoc Hps Hentry.
  unfold document_status_is, Document.get_phase_status, in_phase_order.
  rewrite bool_decide_eq_true_2 by done. cbn [negb].
  unfold Document.bind at 1, Document.load_manifest, Document._load_manifest_unlocked.
  unfold Document.bind at 1, Document.read_document. rewrite Hdoc.
  unfold Document.bind at 1, Document.lift. cbn [py_items].
  unfold Document.ret, Document.bind. rewrite loaded_phases, Hps.
  cbn [py_get]. unfold dict_get at 1. rewrite Hentry. cbn [default from_option id].
  destruct entry; cbn [py_get fst]; split;
    try (by intros [=]); try (by intros (? & [=] & _)).
  - intros [= H]. eauto.
  - by intros (? & [= <-] & ->).
Qed.

Lemma phase_entry_inv phase s entry :
  phase_entry phase s = Some entry →
  ∃ d ps, Document.document s = Some (Holds (JObj d))
          ∧ dict_get "phases" (JObj []) d = JObj ps
          ∧ assoc phase ps = Some entry.
Proof.
  unfold phase_entry.
  destruct (Document.document s) as [[msg|msg|data]|]; try done.
  destruct data as [| | | | |d]; try done.
  destruct (dict_get "phases" (JObj []) d) as [| | | | |ps] eqn:Hps; try done.
  eauto.
Qed.

Lemma document_status_inv phase status s :
  document_status_is phase status s →
  ∃ d ps, Document.document s = Some (Holds (JObj d))
          ∧ dict_get "phases" (JObj []) d = JObj ps
          ∧ match assoc phase ps with
            | Some entry =>
                ∃ fields, entry = JObj fields
                          ∧ dict_get "status" (JStr "pending") fields = JStr status
            | None => status = "pending"
            end.
Proof.
  unfold document_status_is, Document.get_phase_status.
  destruct (negb (in_phase_order phase)); [done|].
  unfold Document.bind at 1, Document.load_manifest, Document._load_manifest_unlocked.
  unfold Document.bind at 1, Document.read_document.
  destruct (Document.document s) as [[msg|msg|data]|]; try done.
  unfold Document.bind at 1, Document.lift.
  destruct data as [| | | | |d]; try done. cbn [py_items].
  unfold Document.ret, Document.bind. rewrite loaded_phases.
  destruct (dict_get "phases" (JObj []) d) as [| | | | |ps] eqn:Hps; try done.
  cbn [py_get]. unfold dict_get at 1.
  destruct (assoc phase ps) as [entry|] eqn:Hentry; cbn [default from_option id].
  - destruct entry as [| | | | |fields]; cbn [py_get fst]; try (by intros [=]).
    intros [= H]. exists d, ps. rewrite Hentry. eauto.
  - cbn [py_get fst dict_get assoc default from_option id]. intros [= <-].
    exists d, ps. by rewrite Hentry.
Qed.

(** C1 (amended): whenever [advance_phase] raises, the persisted manifest is
    unchanged.  On every state of the manifest file other than a document
    that loads with the phase not in its phases, when the final write does
    not fail, [advance_phase] mutates the manifest if and only if the phase
    is in progress, it has no successor or the gate to its successor passes,
    and the entry of the successor is an object.  On every state, a mutation
    needs the gate to pass and the entry of the successor to be an object,
    and the phase to be in progress unless it is not in the phases, where
    the status check is skipped. *)
Theorem advance_phase_mutation fx now phase s :
  (raises (Document.advance_phase fx now phase s).1 →
     Document.document (Document.advance_phase fx now phase s).2 = Document.document s)
  ∧ (write_fails fx manifest_json = false →
     ¬ phase_not_in_phases phase s →
     (document_mutates (Document.advance_phase fx now phase) s
        ↔ document_status_is phase "in_progress" s
          ∧ gate_passes phase (Document.others s)
          ∧ (∀ next, next_phase_of phase = Some next → object_entry next s)))
  ∧ (document_mutates (Document.advance_phase fx now phase) s →
     gate_passes phase (Document.others s)
     ∧ (∀ next, next_phase_of phase = Some next → object_entry next s)
     ∧ (document_status_is phase "in_progress" s ∨ phase_not_in_phases phase s)).
Proof.
  assert (document_mutates (Document.advance_phase fx now phase) s →
          gate_passes phase (Document.others s)
          ∧ (∀ next, next_phase_of phase = Some next → object_entry next s)
          ∧ (document_status_is phase "in_progress" s ∨ phase_not_in_phases phase s))
    as Hneeds.
  { unfold document_mutates. rewrite document_advance_phase_run.
    destruct (negb (in_phase_order phase)) eqn:Hin; [done|].
    apply negb_false_iff, bool_decide_eq_true in Hin.
    pose proof (enforce_gate_ok phase (Document.others s)) as Hgate.
    destruct (enforce_gate phase (next_phase_of phase) (Document.others s))
      as [[[]|e] w1]; cbn [fst] in Hgate; [|done].
    destruct (Document.document s) as [[msg|msg|data]|] eqn:Hdoc;
      cbv zeta; cbn [snd Document.document Document.log]; try done.
    destruct (advance_document now phase data) as [manifest|e] eqn:Hadv; [|done].
    intros _. split; [by apply Hgate|].
    assert (∃ d, data = JObj d) as [d ->].
    { unfold advance_document in Hadv. destruct data; try done. eauto. }
    assert (py_contains phase (dict_get "phases" (JObj []) d) = Ok false
            ∨ py_contains phase (dict_get "phases" (JObj []) d) ≠ Ok false)
      as [Hc|Hc].
    { destruct (py_contains phase (dict_get "phases" (JObj []) d)) as [[]|?];
        [by right|by left|by right]. }
    - split; [|right; by exists d].
      intros next Hnext.
      destruct (advance_document_unchecked _ _ _ _ Hc Hadv next Hnext)
        as (ps & fields & Hps & Hn).
      exists fields. unfold phase_entry. by rewrite Hdoc, Hps.
    - destruct (advance_document_checked _ _ _ _ Hc Hadv) as (ps & entry & Hps & He).
      pose proof (advance_document_object now phase d ps entry Hps He) as Hl.
      rewrite Hadv in Hl. destruct Hl as (Hst & Hnobj & _).
      split.
      + intros next Hnext. destruct (Hnobj next Hnext) as [fields Hn].
        exists fields. unfold phase_entry. by rewrite Hdoc, Hps.
      + left. by apply (document_status_object phase "in_progress" s d ps entry). }
  split; [apply document_advance_phase_raise_frame|]. split; [|exact Hneeds].
  intros Hwrite Hlisted. split.
  { intros Hmut. destruct (Hneeds Hmut) as (Hg & Hn & [Hst|Hno]); done. }
  intros (Hst & Hg & Hn). unfold document_mutates.
  destruct (document_status_inv _ _ _ Hst) as (d & ps & Hdoc & Hps & He).
  assert (phase ∈ PHASE_ORDER) as Hin.
  { unfold document_status_is, Document.get_phase_status in Hst.
    destruct (negb (in_phase_order phase)) eqn:Hin; [done|].
    by apply negb_false_iff, bool_decide_eq_true in Hin. }
  destruct (assoc phase ps) as [entry|] eqn:Hentry; [|done].
  rewrite document_advance_phase_run. unfold in_phase_order.
  rewrite bool_decide_eq_true_2 by done. cbn [negb].
  apply enforce_gate_ok in Hg.
  destruct (enforce_gate phase (next_phase_of phase) (Document.others s))
    as [[[]|e] w1]; cbn [fst] in Hg; [|done].
  rewrite Hdoc. cbv zeta.
  pose proof (advance_document_object now phase d ps entry Hps Hentry) as Hl.
  destruct (advance_document now phase (JObj d)) as [manifest|e].
  - rewrite Hwrite. cbn [snd Document.document].
    destruct Hl as (_ & _ & ps' & fields' & Hps' & Hphase' & Hdone).
    intros Heq.
    assert (Document.MigrationManifest.asdict manifest = JObj d) as Hd by congruence.
    apply asdict_phases in Hd. rewrite Hps, Hps' in Hd. injection Hd as ->.
    destruct He as (fields & -> & Hfields).
    rewrite Hentry in Hphase'. injection Hphase' as ->.
    unfold dict_get in Hfields. rewrite Hdone in Hfields. done.
  - exfalso. apply Hl. split; [done|].
    intros next Hnext. destruct (Hn next Hnext) as [fields Hf].
    exists fields. revert Hf. unfold phase_entry. by rewrite Hdoc, Hps.
Qed.

Lemma advance_phase_mutation_witness :
  write_fails no_faults manifest_json = false
  ∧ ¬ phase_not_in_phases "understand" ready_state
  ∧ (document_mutates (Document.advance_phase no_faults "t1" "understand") ready_state
       ↔ document_status_is "understand" "in_progress" ready_state
         ∧ gate_passes "understand" (Document.others ready_state)
         ∧ (∀ next, next_phase_of "understand" = Some next →
                    object_entry next ready_state)).
Proof.
  assert (¬ phase_not_in_phases "understand" ready_state) as Hl.
  { intros (d & [= <-] & Hc). vm_compute in Hc. discriminate. }
  do 2 (split; [done|]).
  exact (proj1 (proj2 (advance_phase_mutation no_faults "t1" "understand" ready_state))
           eq_refl Hl).
Defined.

(** C1 as stated fails on a manifest without an entry for the phase: the
    guard [if phase in manifest.phases] skips the status check, the successor
    is started and the manifest saved, although the phase is not in
    progress. *)
Lemma advance_phase_contract_fails :
  document_mutates (Document.advance_phase no_faults "t1" "understand")
    (Document.State (Some (Holds document_without_understand)) ready_world)
  ∧ document_status_is "understand" "pending"
      (Document.State (Some (Holds document_without_understand)) ready_world)
  ∧ ¬ document_contract no_faults "t1" "understand"
        (Document.State (Some (Holds document_without_understand)) ready_world).
Proof.
  assert (document_mutates (Document.advance_phase no_faults "t1" "understand")
            (Document.State (Some (Holds document_without_understand)) ready_world))
    as Hmut.
  { unfold document_mutates. vm_compute. discriminate. }
  split; [exact Hmut|]. split; [vm_compute; reflexivity|].
  intros [[H _] _]. apply H in Hmut as [Hst _]. vm_compute in Hst. discriminate.
Qed.

(** With both entries present, the phase in progress and the gate passing,
    [advance_phase] still fails when the entry of the successor is not an
    object: the item assignment raises TypeError and nothing is saved. *)
Lemma advance_phase_needs_object_entry :
  document_status_is "understand" "in_progress"
    (Document.State (Some (Holds document_with_string_entry)) ready_world)
  ∧ gate_passes "understand" ready_world
  ∧ (Document.advance_phase no_faults "t1" "understand"
       (Document.State (Some (Holds document_with_string_entry)) ready_world)).1
    = Raise (Exn TypeError "'str' object does not support item assignment")
  ∧ ¬ document_mutates (Document.advance_phase no_faults "t1" "understand")
        (Document.State (Some (Holds document_with_string_entry)) ready_world).
Proof.
  split; [vm_compute; reflexivity|]. split; [vm_compute; eauto|].
  split; [vm_compute; reflexivity|].
  intros H. apply H. vm_compute. reflexivity.
Qed.

(** ** get_progress on documents *)








Lemma read_metadata_run last_tag cp_step_id s :
  Document.read_metadata last_tag cp_step_id s =
    let s' := Document.State (Document.document s)
                (record_event (Read (checkpoint_json cp_step_id)) (Document.others s)) in
    match checkpoint_files (Document.others s) !! cp_step_id with
    | None | Some (Garbled _) =>
        (Ok (CheckpointInfo last_tag (JStr "") (JStr "")), s')
    | Some (Unreadable msg) => (Raise (Exn OSError msg), s')
    | Some (Holds (JObj fields)) =>
        (Ok (CheckpointInfo (dict_get "tag" last_tag fields)
               (dict_get "step_id" (JStr cp_step_id) fields)
               (dict_get "created_at" (JStr "") fields)), s')
    | Some (Holds meta) =>
        (Raise (Exn AttributeError
           ("'" +:+ py_type meta +:+ "' object has no attribute 'get'")), s')
    end.
Proof.
  unfold Document.read_metadata, Document.try_except.
  unfold Document.bind at 1, Document.on_others, read_json.
  destruct (checkpoint_files (Document.others s) !! cp_step_id) as [[msg|msg|meta]|];
    try done.
  by destruct meta.
Qed.

Lemma last_checkpoint_document m s :
  Document.document (Document.last_checkpoint_data m s).2 = Document.document s.
Proof.
  unfold Document.last_checkpoint_data, Document.bind at 1, Document.lift.
  destruct (py_last _) as [[last_tag|]|e]; try done.
  unfold Document.bind at 1, Document.lift.
  destruct (py_split "/" last_tag) as [[|? [|cp_step_id ?]]|e]; try done.
  unfold Document.bind. rewrite read_metadata_run.
  destruct (checkpoint_files (Document.others s) !! cp_step_id) as [[msg|msg|meta]|];
    try done.
  by destruct meta.
Qed.



(** What [get_progress] computes, block by block. *)
Lemma document_get_progress_run self s :
  Document.get_progress self s =
    let w1 := record_event (Read manifest_json) (Document.others s) in
    let w2 := record_event (Read features_json) w1 in
    let w3 := record_event (Read migration_plan_json) w2 in
    let st w := Document.State (Document.document s) w in
    match Document.document s with
    | None => (Raise (Exn FileNotFoundError "No such file or directory"), st w1)
    | Some (Unreadable msg) => (Raise (Exn OSError msg), st w1)
    | Some (Garbled msg) => (Raise (Exn JSONDecodeError msg), st w1)
    | Some (Holds data) =>
        match py_items data with
        | Raise e => (Raise e, st w1)
        | Ok items =>
            let manifest :=
              Document.MigrationManifest.init
                (keep_fields Document.MigrationManifest.field_names items) in
            match Document.scan_phases (Document.MigrationManifest.phases manifest)
                    PHASE_ORDER ("pending", "pending", []) with
            | Raise e => (Raise e, st w1)
            | Ok (current_phase, overall_status, completed_phases) =>
                match (feature_stats w1).1 with
                | Raise e => (Raise e, st w2)
                | Ok (features_total, features_passing) =>
                    match (step_stats w2).1 with
                    | Raise e => (Raise e, st w3)
                    | Ok (steps_total, steps_completed, current_step,
                          current_step_index) =>
                        match Document.last_checkpoint_data manifest (st w3) with
                        | (Raise e, s4) => (Raise e, s4)
                        | (Ok last_checkpoint, s4) =>
                            match py_len (Document.MigrationManifest.checkpoints
                                            manifest) with
                            | Raise e => (Raise e, s4)
                            | Ok checkpoints_count =>
                                (Ok {| Document.pr_migration_id := migration_id self;
                                       Document.pr_status := overall_status;
                                       Document.pr_current_phase := current_phase;
                                       Document.pr_phases :=
                                         Document.MigrationManifest.phases manifest;
                                       Document.pr_completed_phases := completed_phases;
                                       Document.pr_source :=
                                         Document.MigrationManifest.source_info manifest;
                                       Document.pr_target :=
                                         Document.MigrationManifest.target_info manifest;
                                       Document.pr_current_step := current_step;
                                       Document.pr_features_passing := features_passing;
                                       Document.pr_features_total := features_total;
                                       Document.pr_steps_current := current_step_index;
                                       Document.pr_steps_completed := steps_completed;
                                       Document.pr_steps_total := steps_total;
                                       Document.pr_last_checkpoint := last_checkpoint;
                                       Document.pr_checkpoints_count :=
                                         checkpoints_count |}, s4)
                            end
                        end
                    end
                end
            end
        end
    end.
Proof.
  unfold Document.get_progress, Document.load_manifest,
    Document._load_manifest_unlocked.
  unfold Document.bind at 1. unfold Document.bind at 1, Document.read_document.
  unfold Document.log.
  destruct (Document.document s) as [[msg|msg|data]|] eqn:Hdoc; try done.
  unfold Document.bind at 1, Document.lift.
  destruct (py_items data) as [items|e]; [|done].
  unfold Document.ret at 1. cbv beta iota zeta.
  unfold Document.bind at 1, Document.lift.
  destruct (Document.scan_phases _ PHASE_ORDER _) as [[[cur status] completed]|e];
    [|done].
  cbv beta iota. unfold Document.bind at 1, Document.on_others.
  cbn [Document.others Document.document].
  pose proof (feature_stats_world (record_event (Read manifest_json) (Document.others s)))
    as Hw2.
  destruct (feature_stats _) as [[[ft fp]|e] w2]; cbn [fst snd] in *; subst w2;
    [|done].
  unfold Document.bind at 1, Document.on_others.
  cbn [Document.others Document.document].
  pose proof (step_stats_world
                (record_event (Read features_json)
                   (record_event (Read manifest_json) (Document.others s)))) as Hw3.
  destruct (step_stats _) as [[[[[st sc] cs] ci]|e] w3]; cbn [fst snd] in *; subst w3;
    [|done].
  unfold Document.bind at 1.
  destruct (Document.last_checkpoint_data _ _) as [[lc|e] s4]; [|done].
  unfold Document.bind at 1, Document.lift.
  by destruct (py_len _).
Qed.





(** * Further properties *)

(** ** start_phase *)

Lemma start_manifest_in_progress now phase m :
  start_manifest now phase m = Ok None ↔ phase_item m phase "status" = Ok "in_progress".
Proof.
  unfold start_manifest, and_then.
  destruct (phase_item m phase "status") as [st|e]; [|done].
  destruct (String.eqb_spec st "in_progress") as [->|Hne]; [done|].
  split; [|by intros [= ->]].
  destruct (negb _); [done|].
  destruct (set_phase_item m phase "status" "in_progress") as [m1|]; [|done].
  by destruct (set_phase_item m1 phase "started_at" now).
Qed.

(** What a successful [start_phase] leaves: the phase has status
    in_progress. *)
Lemma start_phase_ok_status fx now phase w :
  (start_phase fx now phase w).1 = Ok tt →
  ∃ m, manifest_file (start_phase fx now phase w).2 = Some (Holds m)
       ∧ phase_item m phase "status" = Ok "in_progress".
Proof.
  rewrite start_phase_run.
  destruct (negb (in_phase_order phase)); [done|].
  destruct (manifest_file w) as [[msg|msg|m]|] eqn:Hm; simpl; try done.
  destruct (start_manifest now phase m) as [[m'|]|e] eqn:Hst; simpl; [| |done].
  - destruct (write_fails fx manifest_json); simpl; [done|]. intros _.
    exists m'. split; [done|].
    unfold start_manifest, and_then in Hst.
    destruct (phase_item m phase "status") as [st|]; [|done].
    destruct (String.eqb st "in_progress"); [done|].
    destruct (negb _); [done|].
    destruct (set_phase_item m phase "status" "in_progress") as [m1|] eqn:H1; [|done].
    destruct (set_phase_item m1 phase "started_at" now) as [m2|] eqn:H2; [|done].
    injection Hst as <-.
    apply set_phase_item_same in H1 as (e1 & _ & H1).
    apply set_phase_item_same in H2 as (e2 & He2 & H2).
    rewrite H1 in He2. injection He2 as <-.
    unfold phase_item. rewrite H2. rewrite lookup_insert_ne by done.
    by rewrite lookup_insert_eq.
  - intros _. exists m. split; [by rewrite Hm|]. by apply start_manifest_in_progress in Hst.
Qed.

(** X1: [start_phase] is idempotent.  After a call that returned, a second
    call returns too, reads the manifest and writes nothing: the manifest,
    and with it [started_at], is as the first call left it. *)
Theorem start_phase_idempotent fx now fx' now' phase w :
  (start_phase fx now phase w).1 = Ok tt →
  start_phase fx' now' phase (start_phase fx now phase w).2
  = (Ok tt, add_events [Read manifest_json] (start_phase fx now phase w).2).
Proof.
  intros Hok. destruct (start_phase_ok_status fx now phase w Hok) as (m & Hm & Hst).
  assert (in_phase_order phase = true) as Hin.
  { rewrite start_phase_run in Hok. by destruct (in_phase_order phase). }
  rewrite (start_phase_run fx' now' phase), Hin, Hm. simpl.
  apply (start_manifest_in_progress now' phase m) in Hst. by rewrite Hst.
Qed.

Lemma start_phase_idempotent_witness :
  (start_phase no_faults "t1" "guardrail" fresh_world).1 = Ok tt
  ∧ manifest_file
      (start_phase no_faults "t2" "guardrail"
         (start_phase no_faults "t1" "guardrail" fresh_world).2).2
    = manifest_file (start_phase no_faults "t1" "guardrail" fresh_world).2.
Proof.
  assert ((start_phase no_faults "t1" "guardrail" fresh_world).1 = Ok tt) as Hok
    by (vm_compute; reflexivity).
  split; [exact Hok|].
  by rewrite (start_phase_idempotent no_faults "t1" no_faults "t2" "guardrail"
                fresh_world Hok).
Defined.

(** X2: [start_phase] on a pending phase, when the write does not fail, sets
    the status to in_progress and [started_at] to the clock, in the entry of
    that phase only; the other phases and the checkpoints are as before. *)
Theorem start_phase_pending fx now phase w m entry :
  phase ∈ PHASE_ORDER →
  manifest_file w = Some (Holds m) →
  MigrationManifest.phases m !! phase = Some entry →
  entry !! "status" = Some "pending" →
  write_fails fx manifest_json = false →
  (start_phase fx now phase w).1 = Ok tt
  ∧ ∃ m', manifest_file (start_phase fx now phase w).2 = Some (Holds m')
      ∧ MigrationManifest.phases m' !! phase
        = Some (<["started_at" := now]> (<["status" := "in_progress"]> entry))
      ∧ (∀ q, q ≠ phase →
              MigrationManifest.phases m' !! q = MigrationManifest.phases m !! q)
      ∧ MigrationManifest.checkpoints m' = MigrationManifest.checkpoints m.
Proof.
  intros Hin Hm He Hst Hw. rewrite start_phase_run. unfold in_phase_order.
  rewrite bool_decide_eq_true_2 by done. simpl. rewrite Hm.
  unfold start_manifest, phase_item, set_phase_item, and_then.
  rewrite He, Hst. simpl. rewrite lookup_insert_eq. simpl. rewrite Hw. simpl.
  split; [done|]. eexists. split; [done|]. simpl.
  rewrite insert_insert_eq, lookup_insert_eq. split; [done|]. split; [|done].
  intros q Hq. by rewrite lookup_insert_ne.
Qed.

Lemma start_phase_pending_witness :
  (start_phase no_faults "t1" "guardrail" fresh_world).1 = Ok tt
  ∧ status_is "guardrail" "in_progress"
      (start_phase no_faults "t1" "guardrail" fresh_world).2.
Proof.
  destruct (start_phase_pending no_faults "t1" "guardrail" fresh_world sample_manifest
              {[ "status" := "pending"; "started_at" := ""; "completed_at" := "" ]})
    as (Hok & _).
  - set_solver.
  - reflexivity.
  - vm_compute. reflexivity.
  - vm_compute. reflexivity.
  - reflexivity.
  - split; [exact Hok|]. vm_compute. reflexivity.
Defined.

(** X3: [start_phase] refuses what it cannot start and leaves the files alone:
    an unknown phase is a [ValueError] before any access; a status other than
    pending or in_progress (a completed phase) is a [RuntimeError] after the
    read; and whenever it raises, only the trace has grown. *)
Theorem start_phase_refusals fx now phase w :
  (phase ∉ PHASE_ORDER →
     start_phase fx now phase w
     = (Raise (Exn ValueError ("Unknown phase: " +:+ phase)), w))
  ∧ (∀ m status,
       phase ∈ PHASE_ORDER →
       manifest_file w = Some (Holds m) →
       phase_item m phase "status" = Ok status →
       status ≠ "pending" → status ≠ "in_progress" →
       start_phase fx now phase w
       = (Raise (Exn RuntimeError
            ("Cannot start phase '" +:+ phase +:+ "': status is '" +:+ status
             +:+ "', expected 'pending'")),
          add_events [Read manifest_json] w))
  ∧ (raises (start_phase fx now phase w).1 →
     ∃ evs, (start_phase fx now phase w).2 = add_events evs w).
Proof.
  split; [|split].
  - intros Hnot. rewrite start_phase_run. unfold in_phase_order.
    by rewrite bool_decide_eq_false_2.
  - intros m status Hin Hm Hst Hp Hi. rewrite start_phase_run. unfold in_phase_order.
    rewrite bool_decide_eq_true_2 by done. simpl. rewrite Hm.
    unfold start_manifest, and_then. rewrite Hst.
    destruct (String.eqb_spec status "in_progress"); [done|].
    destruct (String.eqb_spec status "pending"); [done|]. done.
  - intros [e He]. rewrite start_phase_run in *.
    destruct (negb (in_phase_order phase)); [exists []; by rewrite add_events_nil|].
    destruct (manifest_file w) as [[msg|msg|m]|]; simpl in *;
      try (by exists [Read manifest_json]).
    destruct (start_manifest now phase m) as [[m'|]|e'];
      simpl in *; try (by exists [Read manifest_json]).
    destruct (write_fails fx manifest_json); simpl in *; [|done].
    exists [Read manifest_json; Write manifest_json].
    by rewrite !record_event_add, add_events_app.
Qed.

Lemma start_phase_refusals_witness :
  ∃ m, manifest_file (advance_phase no_faults "t1" "understand" ready_world).2
       = Some (Holds m)
       ∧ phase_item m "understand" "status" = Ok "completed"
       ∧ start_phase no_faults "t2" "understand"
           (advance_phase no_faults "t1" "understand" ready_world).2
         = (Raise (Exn RuntimeError
              ("Cannot start phase '" +:+ "understand" +:+ "': status is '"
               +:+ "completed" +:+ "', expected 'pending'")),
            add_events [Read manifest_json]
              (advance_phase no_faults "t1" "understand" ready_world).2).
Proof.
  assert (∃ m, manifest_file (advance_phase no_faults "t1" "understand" ready_world).2
               = Some (Holds m)
               ∧ phase_item m "understand" "status" = Ok "completed") as (m & Hm & Hst).
  { eexists. split; vm_compute; reflexivity. }
  exists m. split; [exact Hm|]. split; [exact Hst|].
  exact (proj1 (proj2 (start_phase_refusals no_faults "t2" "understand"
                         (advance_phase no_faults "t1" "understand" ready_world).2))
           m "completed" (list_elem_of_here _ _) Hm Hst
           ltac:(discriminate) ltac:(discriminate)).
Defined.

(** ** The gates, pair by pair *)

(** X4: both variants of the gate reject a pair that is not a phase and its
    successor without looking at anything: an unknown name gives "Unknown
    phase", two phases that are not adjacent give "Cannot jump", and the
    world, trace included, is untouched. *)
Theorem gates_reject_other_pairs from_phase to_phase w :
  next_phase_of from_phase ≠ Some to_phase →
  ∃ reason,
    check_phase_gate from_phase to_phase w = (Ok (false, reason), w)
    ∧ _check_phase_gate_unlocked from_phase to_phase w = (Ok (false, reason), w)
    ∧ (reason = "Unknown phase: " +:+ from_phase +:+ " or " +:+ to_phase
       ∨ reason = "Cannot jump from " +:+ from_phase +:+ " to " +:+ to_phase).
Proof.
  intros Hnext. unfold check_phase_gate, _check_phase_gate_unlocked, next_phase_of in *.
  destruct (index_of from_phase PHASE_ORDER) as [i|] eqn:Hi; [|eauto].
  destruct (index_of to_phase PHASE_ORDER) as [j|] eqn:Hj; [|eauto].
  destruct (Nat.eqb_spec j (i + 1)) as [->|Hne]; simpl; [|eauto].
  exfalso. apply Hnext.
  clear Hnext. unfold PHASE_ORDER in *. simpl in *.
  repeat (case_decide; simplify_eq/=; try done).
Qed.

Lemma gates_reject_other_pairs_witness :
  next_phase_of "understand" ≠ Some "migrate"
  ∧ check_phase_gate "understand" "migrate" fresh_world
    = (Ok (false, "Cannot jump from understand to migrate"), fresh_world).
Proof.
  assert (next_phase_of "understand" ≠ Some "migrate") as H by done.
  split; [exact H|].
  destruct (gates_reject_other_pairs "understand" "migrate" fresh_world H)
    as (reason & Hc & _ & [-> | ->]); [|exact Hc].
  exfalso. vm_compute in Hc. discriminate.
Defined.




(** X7: the standalone gate is read-only: whatever the pair and the verdict,
    it changes no file, no tag and no manifest, and the only accesses it makes
    are reads of features.json and migration-plan.json. *)
Theorem check_phase_gate_read_only from_phase to_phase w :
  ∃ evs, (check_phase_gate from_phase to_phase w).2 = add_events evs w
         ∧ Forall artifact_read evs.
Proof.
  revert w. change (only_logs artifact_read (check_phase_gate from_phase to_phase)).
  unfold check_phase_gate, load_features, load_plan.
  repeat only_logs_step; unfold artifact_read; auto.
Qed.

Lemma gate_variants_agree_witness :
  not_corrupt load_features failing_feature_world
  ∧ not_corrupt load_plan failing_feature_world
  ∧ check_phase_gate "guardrail" "migrate" failing_feature_world
    = _check_phase_gate_unlocked "guardrail" "migrate" failing_feature_world.
Proof.
  assert (not_corrupt load_features failing_feature_world) as Hf.
  { intros e H. vm_compute in H. discriminate. }
  assert (not_corrupt load_plan failing_feature_world) as Hp.
  { intros e H. vm_compute in H. injection H as <-. reflexivity. }
  split; [exact Hf|]. split; [exact Hp|].
  exact (gate_variants_agree "guardrail" "migrate" failing_feature_world Hf Hp).
Defined.

Lemma guardrail_gate_names_at_most_five_witness :
  (check_phase_gate "guardrail" "migrate" failing_feature_world).1
  = Ok (false, "Phase gate failed: 1 characterization tests not passing (f1)")
  ∧ ∃ features failing ids,
      (load_features failing_feature_world).1 = Ok features
      ∧ failing = filter (λ f, negb (truthy (Feature.passes f))) features
      ∧ Feature.id <$> take 5 failing = JStr <$> ids
      ∧ length ids ≤ 5.
Proof.
  assert ((check_phase_gate "guardrail" "migrate" failing_feature_world).1
          = Ok (false, "Phase gate failed: 1 characterization tests not passing (f1)"))
    as H by (vm_compute; reflexivity).
  split; [exact H|].
  destruct (guardrail_gate_names_at_most_five failing_feature_world _ H)
    as [Hr|[Hr|(fs & failing & ids & ? & ? & ? & ? & _)]];
    [discriminate Hr | discriminate Hr |].
  by exists fs, failing, ids.
Defined.

(** ** advance_phase, when it succeeds *)

(** X8: when [advance_phase] returns, in one write and no other change: the
    phase (if it has an entry) went from in_progress to completed with
    [completed_at] the clock, its successor (if any) has status in_progress
    and [started_at] the same clock, every other phase entry and the
    checkpoints are as before; the gate had passed, and the result names the
    phase as completed. *)
Theorem advance_phase_success fx now phase w res :
  (advance_phase fx now phase w).1 = Ok res →
  res = {| PhaseResult.phase := phase; PhaseResult.status := "completed";
           PhaseResult.artifacts := []; PhaseResult.started_at := "";
           PhaseResult.completed_at := now; PhaseResult.error := "" |}
  ∧ gate_passes phase w
  ∧ ∃ m m' evs,
      manifest_file w = Some (Holds m)
      ∧ (advance_phase fx now phase w).2
        = put_manifest m'
            (add_events (evs ++ [Read manifest_json; Write manifest_json]) w)
      ∧ Forall artifact_read evs
      ∧ MigrationManifest.checkpoints m' = MigrationManifest.checkpoints m
      ∧ (∀ entry, MigrationManifest.phases m !! phase = Some entry →
           entry !! "status" = Some "in_progress"
           ∧ MigrationManifest.phases m' !! phase
             = Some (<["completed_at" := now]> (<["status" := "completed"]> entry)))
      ∧ (∀ next, next_phase_of phase = Some next →
           ∃ e, MigrationManifest.phases m !! next = Some e
                ∧ MigrationManifest.phases m' !! next
                  = Some (<["started_at" := now]> (<["status" := "in_progress"]> e)))
      ∧ (∀ q, q ≠ phase → next_phase_of phase ≠ Some q →
              MigrationManifest.phases m' !! q = MigrationManifest.phases m !! q).
Proof.
  rewrite advance_phase_run.
  destruct (negb (in_phase_order phase)); [done|].
  pose proof (enforce_gate_ok phase w) as Hgate.
  destruct (enforce_gate_world phase (next_phase_of phase) w) as (evs & Hw & Hevs).
  destruct (enforce_gate phase (next_phase_of phase) w) as [[[]|e] w1];
    simpl in Hw, Hgate; subst w1; [|done].
  rewrite manifest_file_add_events.
  destruct (manifest_file w) as [[msg|msg|m]|] eqn:Hm; simpl; try done.
  destruct (advance_manifest now phase m) as [m'|e] eqn:Hadv; simpl; [|done].
  destruct (write_fails fx manifest_json); simpl; [done|].
  intros [= <-]. split; [done|]. split; [by apply Hgate|].
  exists m, m', evs. split; [done|]. split.
  { by rewrite !record_event_add, !add_events_app. }
  split; [done|]. by apply advance_manifest_result.
Qed.

Lemma advance_phase_success_witness :
  ∃ res, (advance_phase no_faults "t1" "understand" ready_world).1 = Ok res
         ∧ PhaseResult.completed_at res = "t1"
         ∧ gate_passes "understand" ready_world.
Proof.
  eexists. split; [vm_compute; reflexivity|].
  destruct (advance_phase_success no_faults "t1" "understand" ready_world _
              ltac:(vm_compute; reflexivity)) as (_ & Hg & _).
  split; [reflexivity | exact Hg].
Defined.

(** X9: the last phase has no gate: [advance_phase("verify")] never reads
    an artifact, so rewriting features, plan, seams or docs changes neither
    its result nor the manifest it leaves. *)
Theorem advance_verify_ignores_artifacts fx now features plan seams docs w :
  (advance_phase fx now "verify" (with_artifacts features plan seams docs w)).1
  = (advance_phase fx now "verify" w).1
  ∧ manifest_file
      (advance_phase fx now "verify" (with_artifacts features plan seams docs w)).2
    = manifest_file (advance_phase fx now "verify" w).2
  ∧ ∃ evs, trace (advance_phase fx now "verify" w).2 = trace w ++ evs
           ∧ Forall (λ ev, ev = Read manifest_json ∨ ev = Write manifest_json) evs.
Proof.
  rewrite !advance_phase_run. simpl.
  destruct (manifest_file w) as [[msg|msg|m]|]; simpl;
    [| | destruct (advance_manifest now "verify" m) as [m'|e]; simpl;
         [destruct (write_fails fx manifest_json); simpl|] |];
    (split; [done|]; split; [done|]; rewrite <- ?app_assoc;
     eexists; split; [reflexivity|];
     repeat (apply Forall_cons_2; [auto|]); apply Forall_nil_2).
Qed.

(** ** Step ids *)

Lemma safe_tail_spec s :
  safe_tail s = true ↔
  ∃ body, Forall (λ c, safe_char c = true) (String.list_ascii_of_string body)
          ∧ (s = body ∨ s = body +:+ newline).
Proof.
  induction s as [|c s IH]; simpl.
  - split; [|done]. intros _. exists "". split; [constructor|by left].
  - destruct (safe_char c) eqn:Hc.
    + rewrite IH. split.
      * intros (body & Hall & Hs). exists (String c body). split.
        { simpl. by constructor. }
        destruct Hs as [->| ->]; [by left|by right].
      * intros ([|c' body] & Hall & Hs).
        { destruct Hs as [Hs|Hs]; [done|]. injection Hs as -> _.
          by vm_compute in Hc. }
        simpl in Hall. apply Forall_cons in Hall as [_ Hall].
        exists body. split; [done|].
        destruct Hs as [Hs|Hs]; injection Hs as _ ->; [by left|by right].
    + split.
      * intros [Hn Hs]%andb_prop. apply Nat.eqb_eq in Hn.
        apply String.eqb_eq in Hs. subst s. exists "". split; [constructor|].
        right. simpl. unfold newline. f_equal.
        by rewrite <- Hn, Ascii.ascii_nat_embedding.
      * intros ([|c' body] & Hall & Hs).
        { destruct Hs as [Hs|Hs]; [done|]. by injection Hs as -> ->. }
        simpl in Hall. apply Forall_cons in Hall as [Hc' _].
        destruct Hs as [Hs|Hs]; injection Hs as -> _; congruence.
Qed.

Lemma step_id_matches_spec step_id :
  step_id_matches step_id = true ↔ step_id_shape step_id.
Proof.
  unfold step_id_shape, safe_string. destruct step_id as [|c s]; simpl.
  - split; [done|]. intros ([|c body] & [Hne _] & Hs); [done|].
    by destruct Hs as [Hs|Hs].
  - rewrite andb_true_iff, safe_tail_spec. split.
    + intros (Hc & body & Hall & Hs). exists (String c body). split.
      { split; [done|]. simpl. by constructor. }
      destruct Hs as [->| ->]; [by left|by right].
    + intros ([|c' body] & [Hne Hall] & Hs); [done|].
      simpl in Hall. apply Forall_cons in Hall as [Hc' Hall].
      destruct Hs as [Hs|Hs]; injection Hs as -> ->;
        (split; [done|]; exists body; split; [done|]; first [by left|by right]).
Qed.

(** X10: [_validate_step_id] returns exactly on the step ids that are a
    nonempty string over [a-zA-Z0-9_-], optionally followed by one newline
    (the [$] of the pattern matches before a final newline); on every other
    string it raises ValueError.  It never touches the world. *)
Theorem validate_step_id_accepts step_id w :
  ((_validate_step_id step_id w).1 = Ok tt ↔ step_id_shape step_id)
  ∧ (¬ step_id_shape step_id →
     ∃ msg, (_validate_step_id step_id w).1 = Raise (Exn ValueError msg))
  ∧ (_validate_step_id step_id w).2 = w.
Proof.
  rewrite <- step_id_matches_spec. unfold _validate_step_id.
  destruct (step_id_matches step_id); simpl.
  - split; [done|]. split; [done|done].
  - split; [split; done|]. split; [|done]. intros _. by eexists.
Qed.

(** X11: an accepted step id has no path separator, no dot and no blank, so
    the metadata file [checkpoints/<step_id>.json] stays in its directory. *)
Theorem valid_step_id_no_traversal step_id c :
  step_id_matches step_id = true →
  c ∈ String.list_ascii_of_string step_id →
  c ≠ "/"%char ∧ c ≠ "."%char ∧ c ≠ " "%char.
Proof.
  intros (body & [_ Hall] & Hs)%step_id_matches_spec Hc.
  assert (safe_char c = true ∨ c = Ascii.ascii_of_nat 10) as [Hsafe| ->].
  { destruct Hs as [->| ->].
    - left. rewrite Forall_forall in Hall. by apply Hall.
    - clear -Hall Hc. induction body as [|c' body IH]; simpl in *.
      + apply list_elem_of_singleton in Hc. by right.
      + apply Forall_cons in Hall as [Hc' Hall].
        apply elem_of_cons in Hc as [->|Hc]; [by left|by apply IH]. }
  - repeat split; intros ->; by vm_compute in Hsafe.
  - repeat split; intros [=].
Qed.

Lemma valid_step_id_no_traversal_witness :
  step_id_matches "step-001" = true
  ∧ "0"%char ≠ "/"%char.
Proof.
  split; [reflexivity|].
  refine (proj1 (valid_step_id_no_traversal "step-001" "0"%char _ _));
    [reflexivity|].
  simpl. set_solver.
Defined.

(** ** Checkpoints: refusals, repetition and the round trip *)

Lemma create_checkpoint_tag_refused fx now step_id w :
  step_id_matches step_id = true →
  is_Some (repo_tags w !! tag_of step_id)
  ∨ git_fails fx ["tag"; tag_of step_id] = true →
  ∃ msg, create_checkpoint fx now step_id w
         = (Raise (Exn RuntimeError ("Git tag creation failed: " +:+ msg)),
            record_event (Git ["tag"; tag_of step_id]) w).
Proof.
  intros Hvalid Hcause. unfold create_checkpoint, _validate_step_id.
  rewrite Hvalid. simpl. unfold bind at 1, ret at 1.
  unfold bind at 1, try_except at 1, git.
  destruct (git_fails fx ["tag"; tag_of step_id]) eqn:Hf; simpl; [by eexists|].
  destruct Hcause as [[commit Htag]|]; [|done]. rewrite Htag. simpl. by eexists.
Qed.



Lemma create_checkpoint_ok_tag fx now step_id w tag :
  (create_checkpoint fx now step_id w).1 = Ok tag →
  tag = tag_of step_id
  ∧ step_id_matches step_id = true
  ∧ repo_tags (create_checkpoint fx now step_id w).2
    = <[tag_of step_id := repo_head w]> (repo_tags w)
  ∧ repo_head (create_checkpoint fx now step_id w).2 = repo_head w.
Proof.
  intros Hok.
  destruct (step_id_matches step_id) eqn:Hvalid.
  2:{ revert Hok. unfold create_checkpoint, _validate_step_id.
      by rewrite Hvalid. }
  destruct (git fx ["tag"; tag_of step_id] w) as [[[]|e0] w1] eqn:Hrun.
  2:{ destruct (create_checkpoint_untagged fx now step_id w) as (e & evs & Heq).
      { rewrite Hrun. by intros [? [=]]. }
      by rewrite Heq in Hok. }
  destruct (git_tag_ok fx (tag_of step_id) w) as (_ & Hfree & Hgit).
  { rewrite Hrun. by eexists. }
  rewrite Hrun in Hgit. injection Hgit as ->.
  revert Hok. rewrite (create_checkpoint_tagged fx now step_id w _ Hvalid Hrun).
  set (w1 := put_repo _ _ _).
  destruct (record_checkpoint_run fx (tag_of step_id) w1)
    as [(e & evs & Hrec)|(m & Hm & _ & Hrec)]; rewrite Hrec; [done|].
  destruct (write_fails fx (checkpoint_json step_id)); simpl; [done|].
  by intros [= <-].
Qed.

(** X13: a step has at most one checkpoint: after [create_checkpoint]
    returned for a step id, every further [create_checkpoint] for the same
    id raises RuntimeError and leaves the manifest, the metadata files and
    the tags as the first call left them. *)
Theorem create_checkpoint_twice fx now step_id w tag fx' now' :
  (create_checkpoint fx now step_id w).1 = Ok tag →
  let w1 := (create_checkpoint fx now step_id w).2 in
  (∃ msg, (create_checkpoint fx' now' step_id w1).1
          = Raise (Exn RuntimeError ("Git tag creation failed: " +:+ msg)))
  ∧ manifest_file (create_checkpoint fx' now' step_id w1).2 = manifest_file w1
  ∧ checkpoint_files (create_checkpoint fx' now' step_id w1).2 = checkpoint_files w1
  ∧ repo_tags (create_checkpoint fx' now' step_id w1).2 = repo_tags w1.
Proof.
  intros (_ & Hvalid & Htags & _)%create_checkpoint_ok_tag w1.
  destruct (create_checkpoint_tag_refused fx' now' step_id w1 Hvalid) as [msg ->].
  { left. subst w1. rewrite Htags, lookup_insert_eq. by eexists. }
  split; [by exists msg|done].
Qed.

Lemma create_checkpoint_twice_witness :
  (create_checkpoint no_faults "t1" "step-001" fresh_world).1
  = Ok "loki-migrate/step-001/pre"
  ∧ raises (create_checkpoint no_faults "t2" "step-001"
              (create_checkpoint no_faults "t1" "step-001" fresh_world).2).1.
Proof.
  split; [vm_compute; reflexivity|].
  destruct (create_checkpoint_twice no_faults "t1" "step-001" fresh_world
              "loki-migrate/step-001/pre" no_faults "t2"
              ltac:(vm_compute; reflexivity)) as [[msg Hmsg] _].
  eexists. exact Hmsg.
Defined.

(** X14: checkpoint and rollback make a round trip: after [create_checkpoint]
    returned for a step id, whatever commit is checked out later,
    [rollback_to_checkpoint] for that id (when [git reset] itself does not
    fail) returns and checks out the commit that was the head when the
    checkpoint was made. *)
Theorem checkpoint_round_trip fx now step_id w tag fx' head' :
  (create_checkpoint fx now step_id w).1 = Ok tag →
  git_fails fx' ["reset"; "--hard"; tag_of step_id] = false →
  let w1 := checked_out head' (create_checkpoint fx now step_id w).2 in
  (rollback_to_checkpoint fx' step_id w1).1 = Ok tt
  ∧ repo_head (rollback_to_checkpoint fx' step_id w1).2 = repo_head w.
Proof.
  intros (_ & Hvalid & Htags & _)%create_checkpoint_ok_tag Hgit w1.
  assert (repo_tags w1 !! tag_of step_id = Some (repo_head w)) as Hw1.
  { subst w1. simpl. by rewrite Htags, lookup_insert_eq. }
  clearbody w1. unfold rollback_to_checkpoint, _validate_step_id.
  rewrite Hvalid. simpl. unfold bind, ret, try_except, git.
  rewrite Hgit. simpl. by rewrite Hw1.
Qed.

Lemma checkpoint_round_trip_witness :
  repo_head
    (rollback_to_checkpoint no_faults "step-001"
       (checked_out "later-commit"
          (create_checkpoint no_faults "t1" "step-001" fresh_world).2)).2
  = repo_head fresh_world.
Proof.
  exact (proj2 (checkpoint_round_trip no_faults "t1" "step-001" fresh_world
                  "loki-migrate/step-001/pre" no_faults "later-commit"
                  ltac:(vm_compute; reflexivity) eq_refl)).
Defined.


(** ** get_progress *)

Lemma feature_stats_bounds w total passing :
  (feature_stats w).1 = Ok (total, passing) → passing ≤ total.
Proof.
  unfold feature_stats, try_except, bind. rewrite load_features_run.
  destruct (read_result _ _) as [fs|e]; simpl.
  - intros [= <- <-]. unfold count. apply length_filter.
  - case_match; simpl; [|done]. intros [= <- <-]. lia.
Qed.

Lemma step_stats_bounds w total completed current index :
  (step_stats w).1 = Ok (total, completed, current, index) →
  completed ≤ total ∧ index ≤ total ∧ (0 < total → 1 ≤ index)
  ∧ (is_Some current → 0 < total).
Proof.
  unfold step_stats, try_except, bind. rewrite load_plan_run.
  destruct (read_result _ _) as [plan|e]; simpl.
  - intros [= <- <- <- <-]. unfold count.
    pose proof (length_filter
      (λ s, eq_str (MigrationStep.status s) "completed") (MigrationPlan.steps plan)).
    split; [done|].
    destruct (MigrationPlan.steps plan) as [|s steps] eqn:Hsteps.
    { simpl. split; [lia|]. split; [lia|]. intros [? [=]]. }
    cbn [length Nat.eqb negb]. split; [lia|]. split; [lia|]. simpl. lia.
  - case_match; simpl; [|done]. intros [= <- <- <- <-].
    split; [lia|]. split; [lia|]. split; [lia|]. intros [? [=]].
Qed.

Lemma get_progress_inv self w r :
  (get_progress self w).1 = Ok r →
  ∃ m w1 w2 ft fp st sc cs ci,
    manifest_file w = Some (Holds m)
    ∧ (feature_stats w1).1 = Ok (ft, fp)
    ∧ (step_stats w2).1 = Ok (st, sc, cs, ci)
    ∧ scan_phases (MigrationManifest.phases m) PHASE_ORDER ("pending", "pending", [])
      = (pr_current_phase r, pr_status r, pr_completed_phases r)
    ∧ pr_features_total r = ft ∧ pr_features_passing r = fp
    ∧ pr_steps_total r = st ∧ pr_steps_completed r = sc
    ∧ pr_current_step r = cs ∧ pr_steps_current r = ci
    ∧ pr_checkpoints_count r = length (MigrationManifest.checkpoints m)
    ∧ pr_phases r = MigrationManifest.phases m
    ∧ pr_migration_id r = migration_id self.
Proof.
  unfold get_progress, load_manifest, _load_manifest_unlocked, read_json.
  unfold bind at 1.
  destruct (manifest_file w) as [[msg|msg|m]|]; cbv beta iota zeta; try done.
  destruct (scan_phases _ _ _)
    as [[current_phase overall_status] completed_phases] eqn:Hscan.
  set (w1 := record_event (Read manifest_json) w).
  unfold bind at 1.
  destruct (feature_stats w1) as [[[ft fp]|e] w2] eqn:Hfs;
    cbv beta iota zeta; [|done].
  unfold bind at 1.
  destruct (step_stats w2) as [[[[[st sc] cs] ci]|e] w3] eqn:Hss;
    cbv beta iota zeta; [|done].
  unfold bind at 1.
  destruct (last_checkpoint_data m w3) as [[lc|e] w4]; cbv beta iota zeta; [|done].
  unfold ret. cbn [fst]. intros [= <-].
  cbn [pr_current_phase pr_status pr_completed_phases pr_features_total
       pr_features_passing pr_steps_total pr_steps_completed pr_current_step
       pr_steps_current pr_checkpoints_count pr_phases pr_migration_id].
  exists m, w1, w2, ft, fp, st, sc, cs, ci.
  rewrite Hfs, Hss, Hscan. done.
Qed.

(** ** Lookups in a rendered map *)

Lemma assoc_fmap {A B} (f : A → B) k (l : list (string * A)) :
  assoc k (prod_map id f <$> l) = f <$> assoc k l.
Proof.
  induction l as [|[k' v] l IH]; simpl; [done|].
  by destruct (decide (k = k')).
Qed.

Lemma assoc_notin {A} k (l : list (string * A)) : k ∉ l.*1 → assoc k l = None.
Proof.
  induction l as [|[k' v] l IH]; simpl; [done|].
  intros [? ?]%not_elem_of_cons. destruct (decide (k = k')); [done|auto].
Qed.

Lemma assoc_elem {A} k v (l : list (string * A)) :
  NoDup l.*1 → (k, v) ∈ l → assoc k l = Some v.
Proof.
  induction l as [|[k' v'] l IH]; simpl; [by intros _ ?%elem_of_nil|].
  intros [Hk Hl]%NoDup_cons [[= -> ->]|Hin]%elem_of_cons.
  - by rewrite decide_True.
  - destruct (decide (k = k')) as [->|]; [|auto].
    exfalso. apply Hk. apply list_elem_of_fmap. by exists (k', v).
Qed.

Lemma assoc_map_to_list {A} k (m : gmap string A) : assoc k (map_to_list m) = m !! k.
Proof.
  destruct (m !! k) as [v|] eqn:Hk.
  - apply assoc_elem; [apply NoDup_fst_map_to_list|by apply elem_of_map_to_list].
  - apply assoc_notin. intros ([k' v] & -> & Hin%elem_of_map_to_list)%list_elem_of_fmap.
    simpl in Hk. congruence.
Qed.

(** ** The registry and the manifest *)

Lemma overall_status_rendered phases order cur st completed :
  overall_status (JObj (prod_map id phase_asdict <$> map_to_list phases)) order st
  = Ok (scan_phases phases order (cur, st, completed)).1.2.
Proof.
  revert cur st completed.
  induction order as [|phase rest IH]; intros cur st completed; [done|].
  cbn [overall_status scan_phases]. unfold py_get at 1, dict_get.
  rewrite assoc_fmap, assoc_map_to_list. cbn [and_then].
  unfold status_or_pending.
  assert (∀ entry : gmap string string,
            py_get (phase_asdict entry) "status" (JStr "pending")
            = Ok (JStr (default "pending" (entry !! "status")))) as Hentry.
  { intros entry. unfold phase_asdict, py_get, dict_get.
    rewrite assoc_fmap, assoc_map_to_list. by destruct (entry !! "status"). }
  assert (and_then (py_get (default (JObj []) (phase_asdict <$> phases !! phase))
                      "status" (JStr "pending"))
          = and_then (Ok (JStr (default "pending"
                                  (default ∅ (phases !! phase) !! "status")))))
    as ->.
  { destruct (phases !! phase) as [entry|]; [|done].
    change (default (JObj []) (phase_asdict <$> Some entry)) with (phase_asdict entry).
    by rewrite Hentry. }
  cbn [and_then eq_str].
  destruct (String.eqb _ "in_progress"); [done|].
  destruct (String.eqb _ "completed"); apply IH.
Qed.

Lemma summarize_manifest name m :
  summarize name (manifest_asdict m)
  = Ok {| ms_id := JStr (MigrationManifest.id m);
          ms_created_at := JStr (MigrationManifest.created_at m);
          ms_source := JObj (MigrationManifest.source_info m);
          ms_source_path := dict_get "path" (JStr "") (MigrationManifest.source_info m);
          ms_target := dict_get "target" (JStr "") (MigrationManifest.target_info m);
          ms_status :=
            (scan_phases (MigrationManifest.phases m) PHASE_ORDER
               ("pending", "pending", [])).1.2 |}.
Proof.
  unfold summarize, manifest_asdict.
  unfold py_get at 1. unfold dict_get at 1. cbn [assoc decide]. simpl default.
  cbn [and_then].
  by rewrite (overall_status_rendered _ _ "pending" "pending" []).
Qed.







(** X20: the registry and the progress report agree: whenever
    [get_progress] returns for a migration, [list_migrations] on a directory
    holding that migration lists it with the same overall status. *)
Theorem listing_agrees_with_progress self w r name :
  (get_progress self w).1 = Ok r →
  ∃ s, list_migrations (Some [registry_entry name w]) = (Ok [s], [])
       ∧ ms_status s = pr_status r
       ∧ ms_source s = JObj (pr_source r).
Proof.
  intros Hr.
  pose proof Hr as (m & w1 & w2 & ft & fp & st & sc & cs & ci & Hm & _ & _ & Hscan
                    & _)%get_progress_inv.
  assert (pr_source r = MigrationManifest.source_info m) as Hsrc.
  { revert Hr. unfold get_progress, load_manifest, _load_manifest_unlocked, read_json.
    unfold bind at 1. rewrite Hm. cbv beta iota zeta.
    destruct (scan_phases _ _ _) as [[? ?] ?].
    unfold bind at 1. destruct (feature_stats _) as [[[? ?]|?] ?];
      cbv beta iota zeta; [|done].
    unfold bind at 1. destruct (step_stats _) as [[[[[? ?] ?] ?]|?] ?];
      cbv beta iota zeta; [|done].
    unfold bind at 1. destruct (last_checkpoint_data _ _) as [[?|?] ?];
      cbv beta iota zeta; [|done].
    unfold ret. cbn [fst]. by intros [= <-]. }
  unfold registry_entry, manifest_document. rewrite Hm.
  cbn [list_migrations sorted_entries foldr insert_entry list_loop entry_is_dir
       entry_manifest entry_name negb read_manifest_document and_then].
  rewrite summarize_manifest. cbn [app list_loop].
  eexists. split; [reflexivity|]. cbn [ms_status ms_source].
  by rewrite Hscan, Hsrc.
Qed.

Lemma listing_agrees_with_progress_witness :
  ∃ r s, (get_progress sample_pipeline ready_world).1 = Ok r
         ∧ list_migrations (Some [registry_entry "mig_20260223_143052_proj" ready_world])
           = (Ok [s], [])
         ∧ ms_status s = pr_status r.
Proof.
  eexists.
  destruct (listing_agrees_with_progress sample_pipeline ready_world _
              "mig_20260223_143052_proj" ltac:(vm_compute; reflexivity))
    as (s & Hrun & Hstatus & _).
  exists s. split; [reflexivity|]. split; [exact Hrun|exact Hstatus].
Defined.

Lemma find_skip (name : string) before e after :
  Forall (λ e', entry_name e' ≠ name) before →
  entry_name e = name →
  List.find (λ e', String.eqb (entry_name e') name) (before ++ e :: after) = Some e.
Proof.
  intros Hbefore He. induction Hbefore as [|e' before Hne _ IH]; simpl.
  - by rewrite He, String.eqb_refl.
  - apply String.eqb_neq in Hne. by rewrite Hne.
Qed.

Lemma manifest_asdict_source m :
  py_get (manifest_asdict m) "source_info" (JObj [])
  = Ok (JObj (MigrationManifest.source_info m)).
Proof. done. Qed.

Lemma manifest_asdict_target m :
  py_get (manifest_asdict m) "target_info" (JObj [])
  = Ok (JObj (MigrationManifest.target_info m)).
Proof. done. Qed.

(** X21: [load] finds what [create_manifest] wrote: for a pipeline whose id
    has the shape [load] requires, once [create_manifest] returned, [load]
    of that id from a migrations directory holding the migration returns a
    pipeline with the same codebase path, target, id and directory, and
    with empty options whatever the options of the original were. *)
Theorem load_after_create_manifest self fx created started w m dir before after :
  (create_manifest self fx created started w).1 = Ok m →
  migration_id_matches (migration_id self) = true →
  Forall (λ e, entry_name e ≠ migration_id self) before →
  load dir
    (Some (before
           ++ registry_entry (migration_id self)
                (create_manifest self fx created started w).2 :: after))
    (migration_id self)
  = Ok {| lp_codebase_path := JStr (codebase_path self);
          lp_target := JStr (target self);
          lp_options := [];
          lp_migration_dir := dir +:+ "/" +:+ migration_id self;
          lp_migration_id := migration_id self |}.
Proof.
  intros Hok Hid Hbefore. unfold load. rewrite Hid. cbn [negb default from_option id].
  rewrite find_skip by done. cbn [registry_entry entry_is_dir negb entry_manifest].
  revert Hok. unfold create_manifest, save_manifest, _save_manifest_unlocked,
    _atomic_write, bind, ret.
  destruct (write_fails fx manifest_json); cbv beta iota zeta; cbn [fst snd];
    [done|intros _].
  unfold manifest_document. cbn [manifest_file put_manifest record_event].
  cbn [read_manifest_document and_then].
  rewrite manifest_asdict_source, manifest_asdict_target.
  cbn [and_then MigrationManifest.source_info MigrationManifest.target_info].
  change (py_get (JObj [("path", JStr (codebase_path self));
                        ("type", dict_get "source_type" (JStr "unknown") (options self))])
            "path" (JStr ""))
    with (Ok (A:=json) (JStr (codebase_path self))).
  change (py_get (JObj [("target", JStr (target self)); ("options", JObj (options self))])
            "target" (JStr ""))
    with (Ok (A:=json) (JStr (target self))).
  change (py_get (JObj [("target", JStr (target self)); ("options", JObj (options self))])
            "language" (JStr ""))
    with (Ok (A:=json) (JStr "")).
  cbn [and_then truthy].
  destruct (String.eqb_spec (target self) "") as [->|Hne]; done.
Qed.

Lemma load_after_create_manifest_witness :
  ∃ p, load "/root/.loki/migrations"
         (Some [DirEntry "notes.txt" false None;
                registry_entry "mig_20260223_143052_proj" fresh_world])
         "mig_20260223_143052_proj" = Ok p
       ∧ lp_codebase_path p = JStr "/tmp/proj" ∧ lp_target p = JStr "rust".
Proof.
  eexists. split.
  - exact (load_after_create_manifest sample_pipeline no_faults
             "2026-02-23T14:30:52+00:00" "2026-02-23T14:30:52+00:00" empty_world
             sample_manifest "/root/.loki/migrations"
             [DirEntry "notes.txt" false None] []
             ltac:(vm_compute; reflexivity) eq_refl
             ltac:(repeat constructor; discriminate)).
  - split; reflexivity.
Defined.

(** ** Saving and loading the artifacts *)








Lemma seam_round_trip s :
  SeamInfo.init (keep_fields SeamInfo.field_names
                   match seam_asdict s with JObj d => d | _ => [] end) = Ok s.
Proof. by destruct s. Qed.

(** X24: the document [save_seams] writes is read back by [load_seams] as
    the list that was saved. *)
Theorem seams_round_trip seams : seams_of_json (seams_document seams) = Ok seams.
Proof.
  unfold seams_of_json, seams_document, build_all.
  induction seams as [|s seams IH]; [done|].
  rewrite fmap_cons. unfold seam_asdict at 1. cbn [build_each].
  pose proof (seam_round_trip s) as Hs. unfold seam_asdict in Hs.
  rewrite Hs, IH. done.
Qed.

Lemma keep_fields_idemp {A} names (d : list (string * A)) :
  keep_fields names (keep_fields names d) = keep_fields names d.
Proof.
  unfold keep_fields. induction d as [|kv d IH]; [done|].
  rewrite filter_cons. case_decide as Hkv.
  - rewrite filter_cons, decide_True by done. by rewrite IH.
  - done.
Qed.

Lemma build_each_known_fields {A} names (init : list (string * json) → result A) items :
  build_each names init (known_fields names <$> items) = build_each names init items.
Proof.
  induction items as [|item items IH]; [done|].
  rewrite fmap_cons. destruct item; try done.
  cbn [known_fields build_each]. by rewrite keep_fields_idemp, IH.
Qed.

(** X25: only the known fields of a features document matter, and the
    wrapper is transparent: a flat list loads as the list of its items
    reduced to the [Feature] fields, and an object with the list under
    "features" loads as the flat list does; an object without that key
    loads as no features at all. *)
Theorem features_document_forms items d :
  features_of_json (JArr items)
  = features_of_json (JArr (known_fields Feature.field_names <$> items))
  ∧ (assoc "features" d = Some (JArr items) →
     features_of_json (JObj d) = features_of_json (JArr items))
  ∧ (assoc "features" d = None → features_of_json (JObj d) = Ok []).
Proof.
  unfold features_of_json, dict_get. split; [|split].
  - cbn [build_all]. by rewrite build_each_known_fields.
  - by intros ->.
  - by intros ->.
Qed.

(** ** Migration identifiers *)

Lemma literal_app lit rest : literal lit (lit +:+ rest) = Some rest.
Proof.
  induction lit as [|c lit IH]; [done|].
  rewrite append_cons. cbn [literal]. by rewrite Ascii.eqb_refl.
Qed.

Lemma digits_app n d rest : all_digits n d → digits n (d +:+ rest) = Some rest.
Proof.
  intros [Hlen Hall]. revert n Hlen.
  induction d as [|c d IH]; intros n Hlen; simpl in Hlen; subst n; [done|].
  simpl in Hall. apply Forall_cons in Hall as [Hc Hall].
  rewrite append_cons. cbn [digits]. rewrite Hc. by apply IH.
Qed.

Lemma safe_char_sanitized c : safe_char (if safe_char c then c else "_"%char) = true.
Proof. by destruct (safe_char c) eqn:Hc. Qed.

Lemma sanitize_safe_tail s : safe_tail (sanitize s) = true.
Proof.
  induction s as [|c s IH]; [done|].
  cbn [sanitize safe_tail]. by rewrite safe_char_sanitized.
Qed.

Lemma sanitize_matches s : s ≠ "" → step_id_matches (sanitize s) = true.
Proof.
  destruct s as [|c s]; [done|]. intros _. cbn [sanitize step_id_matches].
  by rewrite safe_char_sanitized, sanitize_safe_tail.
Qed.

(** X26: every id [_generate_migration_id] makes is one [load] accepts:
    whatever the name of the codebase directory (empty, or with characters
    outside [a-zA-Z0-9_-]), with the date rendered as 8 digits and the time
    as 6, the id matches the pattern [load] validates against. *)
Theorem generated_id_is_loadable dirname date_str time_str :
  all_digits 8 date_str → all_digits 6 time_str →
  migration_id_matches (_generate_migration_id dirname date_str time_str) = true.
Proof.
  intros Hdate Htime. unfold migration_id_matches, _generate_migration_id.
  rewrite literal_app, (digits_app 8) by done.
  rewrite literal_app, (digits_app 6) by done.
  rewrite literal_app.
  destruct (String.eqb_spec (sanitize dirname) "") as [Hs|Hs]; [done|].
  apply sanitize_matches. by intros ->.
Qed.

Lemma generated_id_is_loadable_witness :
  _generate_migration_id "my project" "20260223" "143052"
  = "mig_20260223_143052_my_project"
  ∧ migration_id_matches (_generate_migration_id "my project" "20260223" "143052") = true.
Proof.
  split; [reflexivity|].
  apply generated_id_is_loadable; (split; [reflexivity|]);
    repeat (apply Forall_cons_2; [reflexivity|]); apply Forall_nil_2.
Defined.

(** ** create_manifest *)



(** ** The progress report on documents *)

Lemma document_last_checkpoint_others m s :
  ∃ evs, Document.others (Document.last_checkpoint_data m s).2
         = add_events evs (Document.others s)
         ∧ Forall is_read evs.
Proof.
  assert (∃ evs, Document.others s = add_events evs (Document.others s)
                 ∧ Forall is_read evs) as Hnil.
  { exists []. by rewrite add_events_nil. }
  unfold Document.last_checkpoint_data, Document.bind at 1, Document.lift.
  destruct (py_last _) as [[last_tag|]|e]; try done.
  unfold Document.bind at 1, Document.lift.
  destruct (py_split "/" last_tag) as [[|? [|cp_step_id ?]]|e]; try done.
  unfold Document.bind. rewrite read_metadata_run.
  exists [Read (checkpoint_json cp_step_id)].
  split; [|constructor; [by eexists|constructor]].
  destruct (checkpoint_files (Document.others s) !! cp_step_id) as [[msg|msg|meta]|];
    try done.
  by destruct meta.
Qed.

(** X17: [get_progress] is read-only on every manifest document: whether it
    returns or raises, the document is as before, the other files and the
    repository are as before, and every access it made is a read. *)
Theorem document_progress_read_only self s :
  Document.document (Document.get_progress self s).2 = Document.document s
  ∧ ∃ evs, Document.others (Document.get_progress self s).2
           = add_events evs (Document.others s)
           ∧ Forall is_read evs.
Proof.
  assert (∀ p, is_read (Read p)) as Hread by (by eexists).
  rewrite document_get_progress_run. cbv zeta. rewrite !record_event_add.
  rewrite !add_events_app. cbn [app].
  set (w1 := add_events [Read manifest_json] (Document.others s)).
  set (w2 := add_events [Read manifest_json; Read features_json] (Document.others s)).
  set (w3 := add_events [Read manifest_json; Read features_json;
                         Read migration_plan_json] (Document.others s)).
  assert (∃ evs, w1 = add_events evs (Document.others s) ∧ Forall is_read evs) as H1.
  { eexists. split; [done|]. repeat constructor; apply Hread. }
  assert (∃ evs, w2 = add_events evs (Document.others s) ∧ Forall is_read evs) as H2.
  { eexists. split; [done|]. repeat constructor; apply Hread. }
  assert (∃ evs, w3 = add_events evs (Document.others s) ∧ Forall is_read evs) as H3.
  { eexists. split; [done|]. repeat constructor; apply Hread. }
  clearbody w1 w2 w3.
  destruct (Document.document s) as [[msg|msg|data]|] eqn:Hdoc; try done.
  destruct (py_items data) as [items|e]; [|done].
  destruct (Document.scan_phases _ PHASE_ORDER _) as [[[cur status] completed]|e];
    [|done].
  destruct (feature_stats w1).1 as [[ft fp]|e]; [|done].
  destruct (step_stats w2).1 as [[[[st sc] cs] ci]|e]; [|done].
  pose proof (last_checkpoint_document
                (Document.MigrationManifest.init
                   (keep_fields Document.MigrationManifest.field_names items))
                (Document.State (Some (Holds data)) w3)) as Hd.
  destruct (document_last_checkpoint_others
              (Document.MigrationManifest.init
                 (keep_fields Document.MigrationManifest.field_names items))
              (Document.State (Some (Holds data)) w3)) as (evs & Ho & Hevs4).
  cbn [Document.document Document.others] in Hd, Ho.
  destruct H3 as (evs3 & -> & Hevs3).
  assert (∃ evs', Document.others
                    (Document.last_checkpoint_data
                       (Document.MigrationManifest.init
                          (keep_fields Document.MigrationManifest.field_names items))
                       (Document.State (Some (Holds data))
                          (add_events evs3 (Document.others s)))).2
                  = add_events evs' (Document.others s) ∧ Forall is_read evs') as H4.
  { exists (evs3 ++ evs). rewrite Ho, add_events_app. split; [done|].
    by apply Forall_app. }
  destruct (Document.last_checkpoint_data _ _) as [[lc|e] s4]; cbn [snd] in *;
    [|done].
  by destruct (py_len _).
Qed.

Lemma loaded_checkpoints d :
  Document.MigrationManifest.checkpoints
    (Document.MigrationManifest.init
       (keep_fields Document.MigrationManifest.field_names d))
  = dict_get "checkpoints" (JArr []) d.
Proof.
  cbn [Document.MigrationManifest.init Document.MigrationManifest.checkpoints].
  unfold dict_get. rewrite assoc_keep_fields; [done|].
  unfold Document.MigrationManifest.field_names. by repeat constructor.
Qed.

(** What a report is made of, when [get_progress] returns. *)
Lemma document_get_progress_inv self s r :
  (Document.get_progress self s).1 = Ok r →
  ∃ d w1 w2,
    Document.document s = Some (Holds (JObj d))
    ∧ Document.scan_phases (dict_get "phases" (JObj []) d) PHASE_ORDER
        ("pending", "pending", [])
      = Ok (Document.pr_current_phase r, Document.pr_status r,
            Document.pr_completed_phases r)
    ∧ (feature_stats w1).1
      = Ok (Document.pr_features_total r, Document.pr_features_passing r)
    ∧ (step_stats w2).1
      = Ok (Document.pr_steps_total r, Document.pr_steps_completed r,
            Document.pr_current_step r, Document.pr_steps_current r)
    ∧ py_len (dict_get "checkpoints" (JArr []) d)
      = Ok (Document.pr_checkpoints_count r).
Proof.
  rewrite document_get_progress_run. cbv zeta.
  destruct (Document.document s) as [[msg|msg|data]|] eqn:Hdoc; try done.
  destruct data as [| | | | |d]; try done. cbn [py_items].
  rewrite loaded_phases, loaded_checkpoints.
  destruct (Document.scan_phases _ PHASE_ORDER _) as [[[cur status] completed]|e]
    eqn:Hscan; [|done].
  destruct (feature_stats _).1 as [[ft fp]|e] eqn:Hfs; [|done].
  destruct (step_stats _).1 as [[[[st sc] cs] ci]|e] eqn:Hss; [|done].
  destruct (Document.last_checkpoint_data _ _) as [[lc|e] s4]; [|done].
  destruct (py_len _) as [n|e] eqn:Hlen; [|done].
  intros [= <-]. cbn. eauto 10.
Qed.

(** X16: on every manifest document, the counts of a progress report are
    consistent: passing features are at most the total, completed steps at
    most the total, the 1-based current step index is between 1 and the
    total when there are steps, a current step is named only when there are
    steps, and the checkpoint count is the length of the checkpoints field
    of the document. *)
Theorem document_progress_bounds self s r :
  (Document.get_progress self s).1 = Ok r →
  Document.pr_features_passing r ≤ Document.pr_features_total r
  ∧ Document.pr_steps_completed r ≤ Document.pr_steps_total r
  ∧ Document.pr_steps_current r ≤ Document.pr_steps_total r
  ∧ (0 < Document.pr_steps_total r → 1 ≤ Document.pr_steps_current r)
  ∧ (is_Some (Document.pr_current_step r) → 0 < Document.pr_steps_total r)
  ∧ ∃ d, Document.document s = Some (Holds (JObj d))
         ∧ py_len (dict_get "checkpoints" (JArr []) d)
           = Ok (Document.pr_checkpoints_count r).
Proof.
  intros (d & w1 & w2 & Hdoc & _ & Hfs & Hss & Hlen)%document_get_progress_inv.
  apply feature_stats_bounds in Hfs.
  apply step_stats_bounds in Hss as (? & ? & ? & ?).
  repeat (split; [done|]). by exists d.
Qed.

Lemma document_progress_bounds_witness :
  ∃ r, (Document.get_progress sample_pipeline ready_state).1 = Ok r
       ∧ Document.pr_features_passing r ≤ Document.pr_features_total r.
Proof.
  eexists. split; [vm_compute; reflexivity|].
  exact (proj1 (document_progress_bounds sample_pipeline ready_state _
                  ltac:(vm_compute; reflexivity))).
Defined.

Lemma document_scan_phases_cases ps order acc r :
  Document.scan_phases (JObj ps) order acc = Ok r →
  (∃ pre p post,
      order = pre ++ p :: post
      ∧ document_status_of ps p = JStr "in_progress"
      ∧ Forall (λ q, document_status_of ps q ≠ JStr "in_progress") pre
      ∧ r = (p, "in_progress",
             acc.2 ++ filter (λ q, eq_str (document_status_of ps q) "completed") pre))
  ∨ (Forall (λ q, document_status_of ps q ≠ JStr "in_progress") order
     ∧ r.2 = acc.2 ++ filter (λ q, eq_str (document_status_of ps q) "completed") order
     ∧ match last (filter (λ q, eq_str (document_status_of ps q) "completed") order) with
       | None => r = acc
       | Some p => r.1 = (p, "completed")
       end).
Proof.
  revert acc r. induction order as [|phase rest IH]; intros acc r.
  { intros [= <-]. right. simpl. rewrite filter_nil, app_nil_r.
    split; [constructor|]. done. }
  cbn [Document.scan_phases py_get and_then]. unfold dict_get at 1.
  assert (∀ st, eq_str st "in_progress" = true → st = JStr "in_progress") as Heq.
  { intros [| | |x| |]; try done. simpl. by intros ->%String.eqb_eq. }
  assert (∀ st, eq_str st "in_progress" = false → st ≠ JStr "in_progress") as Hneq.
  { intros st H ->. done. }
  assert (∃ st, and_then (py_get (default (JObj []) (assoc phase ps)) "status"
                            (JStr "pending"))
                = (λ k, match assoc phase ps with
                        | Some (JObj _) | None => k st
                        | Some v => Raise (Exn AttributeError
                             ("'" +:+ py_type v +:+ "' object has no attribute 'get'"))
                        end)
                ∧ (match assoc phase ps with
                   | Some (JObj _) | None => True | _ => False end
                   → st = document_status_of ps phase)) as (st & -> & Hst).
  { unfold document_status_of.
    destruct (assoc phase ps) as [[| | | | |fields]|]; cbn [default from_option id];
      try (by exists JNull).
    - by exists (dict_get "status" (JStr "pending") fields).
    - by exists (JStr "pending"). }
  destruct (assoc phase ps) as [entry|] eqn:He.
  - destruct entry as [| | | | |fields]; try done.
    specialize (Hst I). subst st.
    destruct (eq_str (document_status_of ps phase) "in_progress") eqn:Hin.
    { intros [= <-]. left. exists [], phase, rest. simpl.
      rewrite filter_nil, app_nil_r. split; [done|]. split; [exact (Heq _ Hin)|].
      split; [constructor|done]. }
    apply Hneq in Hin.
    destruct (eq_str (document_status_of ps phase) "completed") eqn:Hc.
    + intros Hr. rewrite filter_cons_True by (by rewrite Hc).
      destruct (IH _ _ Hr)
        as [(pre & p & post & -> & Hp & Hpre & ->)|(Hall & Hdone & Hlast)].
      * left. exists (phase :: pre), p, post. split; [done|]. split; [done|].
        split; [by constructor|]. simpl.
        rewrite filter_cons_True by (by rewrite Hc). by rewrite <- app_assoc.
      * right. split; [by constructor|]. split.
        { rewrite Hdone. simpl. by rewrite <- app_assoc. }
        simpl in *.
        destruct (filter _ rest) as [|c cs] eqn:Hf.
        { simpl in *. by rewrite Hlast. }
        rewrite !last_cons. rewrite last_cons in Hlast.
        by destruct (last cs).
    + intros Hr. rewrite filter_cons_False by (rewrite Hc; simpl; tauto).
      destruct (IH _ _ Hr)
        as [(pre & p & post & -> & Hp & Hpre & ->)|(Hall & Hdone & Hlast)].
      * left. exists (phase :: pre), p, post. split; [done|]. split; [done|].
        split; [by constructor|].
        by rewrite filter_cons_False by (rewrite Hc; simpl; tauto).
      * right. split; [by constructor|]. done.
  - specialize (Hst I). subst st.
    assert (document_status_of ps phase = JStr "pending") as Hp.
    { unfold document_status_of. by rewrite He. }
    rewrite Hp. cbn [eq_str String.eqb Ascii.eqb Bool.eqb].
    intros Hr. rewrite filter_cons_False by (rewrite Hp; simpl; tauto).
    destruct (IH _ _ Hr)
      as [(pre & p & post & -> & Hp' & Hpre & ->)|(Hall & Hdone & Hlast)].
    + left. exists (phase :: pre), p, post. split; [done|]. split; [done|].
      split; [constructor; [by rewrite Hp|done]|].
      by rewrite filter_cons_False by (rewrite Hp; simpl; tauto).
    + right. split; [constructor; [by rewrite Hp|done]|]. done.
Qed.

(** X18: how [get_progress] summarises the phases of a manifest document.
    If the loop meets a phase in progress, the report is for the first such
    phase in [PHASE_ORDER]: status in_progress, that phase as current, and as
    completed the completed phases before it.  Otherwise the completed
    phases are all the completed phases in order; with none the status and
    the current phase are both "pending", else the status is completed and
    the current phase is the last completed one. *)
Theorem document_progress_status self s r :
  (Document.get_progress self s).1 = Ok r →
  ∃ d ps,
    Document.document s = Some (Holds (JObj d))
    ∧ dict_get "phases" (JObj []) d = JObj ps
    ∧ ((∃ pre p post,
          PHASE_ORDER = pre ++ p :: post
          ∧ document_status_of ps p = JStr "in_progress"
          ∧ Forall (λ q, document_status_of ps q ≠ JStr "in_progress") pre
          ∧ Document.pr_status r = "in_progress"
          ∧ Document.pr_current_phase r = p
          ∧ Document.pr_completed_phases r
            = filter (λ q, eq_str (document_status_of ps q) "completed") pre)
       ∨ (Forall (λ q, document_status_of ps q ≠ JStr "in_progress") PHASE_ORDER
          ∧ Document.pr_completed_phases r
            = filter (λ q, eq_str (document_status_of ps q) "completed") PHASE_ORDER
          ∧ match last (Document.pr_completed_phases r) with
            | None => Document.pr_status r = "pending"
                      ∧ Document.pr_current_phase r = "pending"
            | Some p => Document.pr_status r = "completed"
                        ∧ Document.pr_current_phase r = p
            end)).
Proof.
  intros (d & w1 & w2 & Hdoc & Hscan & _)%document_get_progress_inv.
  exists d.
  destruct (dict_get "phases" (JObj []) d) as [| | | | |ps] eqn:Hps; try done.
  exists ps. split; [done|]. split; [done|].
  destruct (document_scan_phases_cases _ _ _ _ Hscan)
    as [(pre & p & post & Hord & Hp & Hpre & [= -> -> ->])|(Hall & Hdone & Hlast)].
  - left. exists pre, p, post. done.
  - right. simpl in Hdone. split; [done|]. split; [done|]. rewrite Hdone.
    destruct (last _) as [p|]; [by injection Hlast as -> ->|].
    by injection Hlast as -> -> _.
Qed.

Lemma document_progress_status_witness :
  ∃ r, (Document.get_progress sample_pipeline ready_state).1 = Ok r
       ∧ Document.pr_status r = "in_progress"
       ∧ Document.pr_current_phase r = "understand".
Proof.
  eexists. split; [vm_compute; reflexivity|].
  destruct (document_progress_status sample_pipeline ready_state _
              ltac:(vm_compute; reflexivity)) as (d & ps & Hd & _).
  split; reflexivity.
Defined.
